(** * IntelliQuery (app.py): a shallow embedding and its specification

    The application is a Streamlit script that wires third-party services
    together.  The embedding below keeps that shape:

    - Python strings are lists of Unicode code points ([pystr]); the string
      methods the script calls ([strip], [split], [join], slicing) are
      written out.
    - The services the script calls (the text splitter, FAISS, Whisper,
      ffmpeg, Cohere, the question-answering chain, the document parsers)
      are the fields of a record [Externals]; every function of the script
      is defined for an arbitrary such record.
    - Functions that touch [st.session_state], the disk, or a service live
      in a small monad [M] that threads the world, propagates Python
      exceptions and logs every external call. *)

From Stdlib Require Import NArith ZArith List Lia Ascii String Bool.
From stdpp Require Import gmap strings list.

Local Open Scope N_scope.

(** ** Python strings *)

Module PyStr.

(** A code point of a Python [str]; well-formed ones are at most U+10FFFF. *)
Definition codepoint := N.
Definition pystr := list codepoint.

Definition max_codepoint : N := 0x10FFFF.

Definition wf_str (s : pystr) : Prop := Forall (fun c => c <= max_codepoint) s.

(** A Rocq string literal read as a Python string. *)
Definition py (s : string) : pystr := map N_of_ascii (list_ascii_of_string s).

(** [str.isspace] for one character (CPython's [_PyUnicode_IsWhitespace]);
    this is the set [str.strip()] and [str.split()] work with. *)
Definition is_space (c : codepoint) : bool :=
  ((0x09 <=? c) && (c <=? 0x0D)) || ((0x1C <=? c) && (c <=? 0x20))
  || (c =? 0x85) || (c =? 0xA0) || (c =? 0x1680)
  || ((0x2000 <=? c) && (c <=? 0x200A))
  || (c =? 0x2028) || (c =? 0x2029) || (c =? 0x202F) || (c =? 0x205F)
  || (c =? 0x3000).

Fixpoint drop_while (p : codepoint -> bool) (s : pystr) : pystr :=
  match s with
  | [] => []
  | c :: s' => if p c then drop_while p s' else s
  end.

Definition lstrip (s : pystr) : pystr := drop_while is_space s.
Definition rstrip (s : pystr) : pystr := rev (drop_while is_space (rev s)).
(** [s.strip()] *)
Definition strip (s : pystr) : pystr := rstrip (lstrip s).

(** [s.split()]: the maximal runs of non-whitespace characters.  [cur] is
    the current run, reversed. *)
Fixpoint split_ws_from (cur : pystr) (s : pystr) : list pystr :=
  match s with
  | [] => match cur with [] => [] | _ => [rev cur] end
  | c :: s' =>
      if is_space c
      then match cur with
           | [] => split_ws_from [] s'
           | _ => rev cur :: split_ws_from [] s'
           end
      else split_ws_from (c :: cur) s'
  end.

Definition split_ws (s : pystr) : list pystr := split_ws_from [] s.

(** [s.split(sep)] for a one-character separator: empty fields are kept. *)
Fixpoint split_on_from (sep : codepoint) (cur : pystr) (s : pystr) : list pystr :=
  match s with
  | [] => [rev cur]
  | c :: s' =>
      if c =? sep then rev cur :: split_on_from sep [] s'
      else split_on_from sep (c :: cur) s'
  end.

Definition split_on (sep : codepoint) (s : pystr) : list pystr :=
  split_on_from sep [] s.

(** [sep.join(parts)] *)
Fixpoint join (sep : pystr) (parts : list pystr) : pystr :=
  match parts with
  | [] => []
  | [x] => x
  | x :: rest => x ++ sep ++ join sep rest
  end.

(** Truthiness of a string: [if s]. *)
Definition truthy (s : pystr) : bool :=
  match s with [] => false | _ => true end.

(** Python's slice bounds: a negative index counts from the end, and both
    bounds are clamped to the sequence. *)
Definition clamp_index (n i : Z) : Z :=
  if (i <? 0)%Z then Z.max (i + n) 0 else Z.min i n.

(** [l[a:b]] *)
Definition py_slice {A} (l : list A) (a b : Z) : list A :=
  let n := Z.of_nat (length l) in
  let lo := clamp_index n a in
  let hi := clamp_index n b in
  firstn (Z.to_nat (hi - lo)) (skipn (Z.to_nat lo) l).

End PyStr.
Import PyStr.

(** ** Text cleaning (section 5 of app.py) *)

Definition is_surrogate (c : codepoint) : bool := (0xD800 <=? c) && (c <=? 0xDFFF).

(** [text.encode("utf-8", "replace").decode("utf-8")]: a lone surrogate cannot
    be encoded and becomes a question mark; every other character survives
    the round trip. *)
Definition encode_replace_decode (text : pystr) : pystr :=
  map (fun c => if is_surrogate c then 0x3F else c) text.

(** The character class [[\U00010000-\U0010ffff]]. *)
Definition is_astral (c : codepoint) : bool := (0x10000 <=? c) && (c <=? 0x10FFFF).

(** [re.sub(r'[\U00010000-\U0010ffff]', '', text)] *)
Definition remove_astral (text : pystr) : pystr :=
  List.filter (fun c => negb (is_astral c)) text.

Definition clean_text (text : pystr) : pystr :=
  if negb (truthy text) then []
  else strip (remove_astral (encode_replace_decode text)).

(** [clean_text] applied to a value that may be [None]. *)
Definition clean_text_value (text : option pystr) : pystr :=
  match text with
  | None => []
  | Some s => clean_text s
  end.

(** ** Late chunking (section 6 of app.py) *)

(** The three shapes of element [get_late_chunked_text] tells apart.  [repr]
    is the text [str(doc)] gives for the element. *)
Inductive LateDoc :=
| IsDocument (page_content : pystr)
| IsDict (page_content : option pystr) (repr : pystr)
| IsOther (repr : pystr).

Definition late_doc_text (doc : LateDoc) : pystr :=
  match doc with
  | IsDocument c => clean_text c
  | IsDict (Some c) _ => clean_text c
  | IsDict None r => clean_text r
  | IsOther r => clean_text r
  end.

(** The [while start < len(text)] loop.  [None] stands for a loop that is
    still running when the fuel is spent. *)
Fixpoint late_loop (fuel : nat) (text : pystr) (chunk_size chunk_overlap start : Z)
  : option (list pystr) :=
  match fuel with
  | O => None
  | S fuel' =>
      if (start <? Z.of_nat (length text))%Z
      then match late_loop fuel' text chunk_size chunk_overlap
                   (start + (chunk_size - chunk_overlap))%Z with
           | Some rest => Some (py_slice text start (start + chunk_size)%Z :: rest)
           | None => None
           end
      else Some []
  end.

(** The chunks of one document; the loop runs at most [len(text)] rounds
    when it ends at all. *)
Definition late_chunks (text : pystr) (chunk_size chunk_overlap : Z)
  : option (list pystr) :=
  late_loop (S (length text)) text chunk_size chunk_overlap 0%Z.

(** The page contents of the returned [Document]s. *)
Fixpoint get_late_chunked_text (retrieved_docs : list LateDoc)
         (chunk_size chunk_overlap : Z) : option (list pystr) :=
  match retrieved_docs with
  | [] => Some []
  | doc :: rest =>
      match late_chunks (late_doc_text doc) chunk_size chunk_overlap with
      | None => None
      | Some chunks =>
          match get_late_chunked_text rest chunk_size chunk_overlap with
          | None => None
          | Some more => Some (chunks ++ more)
          end
      end
  end.

Definition default_chunk_size : Z := 1000.
Definition default_chunk_overlap : Z := 100.

(** ** The world the script runs in *)

(** The outcome of a Python call: a value, or an exception.  Every handler
    in the script is [except Exception], so one exception is enough. *)
Inductive result (A : Type) : Type :=
| Ok (a : A)
| Raise.
Arguments Ok {A} a.
Arguments Raise {A}.

(** A Streamlit [UploadedFile]: [uploaded_file.name] and its buffer. *)
Record UploadedFile := {
  name : string;
  buffer : list N;
}.

(** The configuration of a [RecursiveCharacterTextSplitter]; [separators] is
    [None] when the call leaves the library's default. *)
Record SplitterConfig := {
  chunk_size : nat;
  chunk_overlap : nat;
  separators : option (list pystr);
}.

(** The libraries and services the script calls.  [VS] is a FAISS vector
    store, [Doc] a retrieved [Document], [Img] a PIL image.  A call that can
    raise returns a [result]. *)
Record Externals (VS Doc Img : Type) := {
  (** [RecursiveCharacterTextSplitter(...).split_text(text)] *)
  split_text : SplitterConfig -> pystr -> list pystr;
  (** [FAISS.from_texts(texts, embedding=embeddings, normalize_L2=...)] *)
  FAISS_from_texts : list pystr -> bool -> result VS;
  (** [FAISS.load_local(path, embeddings, ...)] *)
  FAISS_load_local : string -> result VS;
  (** [vector_store.similarity_search(query)] *)
  similarity_search : VS -> pystr -> result (list Doc);
  (** the chain of [get_conversational_chain] run on documents and a
      question, giving [response["output_text"]] *)
  qa_chain : list Doc -> pystr -> result pystr;
  (** [cohere_client.generate(...).generations[0].text] for a prompt *)
  cohere_generate : pystr -> result pystr;
  (** the [extract_text()] of each page of [PdfReader(file)] *)
  PdfReader_pages : UploadedFile -> result (list pystr);
  (** per slide of [Presentation(file)], the [text] of each shape that has one *)
  Presentation_slides : UploadedFile -> result (list (list pystr));
  (** [pd.read_excel(file, engine="openpyxl").to_csv(index=False)] *)
  read_excel_to_csv : UploadedFile -> result pystr;
  (** [str(e)] for the exception [read_excel_to_csv] raised *)
  excel_error_text : UploadedFile -> pystr;
  (** [Image.open(file)] *)
  Image_open : UploadedFile -> result Img;
  (** the ffmpeg run from a video to a WAV path: it raises, or it returns
      having written the output ([true]) or not ([false]) *)
  ffmpeg_run : string -> string -> result bool;
  (** [WHISPER_MODEL.transcribe(path)["text"]] *)
  whisper_transcribe : string -> result pystr;
  (** whether [open(path, "wb")] and the write succeed *)
  writable : string -> bool;
  (** [os.path.join(a, b)] *)
  os_path_join : string -> string -> string;
  (** [os.path.splitext(path)[0]] *)
  os_path_splitext_root : string -> string;
}.
Arguments split_text {VS Doc Img}.
Arguments FAISS_from_texts {VS Doc Img}.
Arguments FAISS_load_local {VS Doc Img}.
Arguments similarity_search {VS Doc Img}.
Arguments qa_chain {VS Doc Img}.
Arguments cohere_generate {VS Doc Img}.
Arguments PdfReader_pages {VS Doc Img}.
Arguments Presentation_slides {VS Doc Img}.
Arguments read_excel_to_csv {VS Doc Img}.
Arguments excel_error_text {VS Doc Img}.
Arguments Image_open {VS Doc Img}.
Arguments ffmpeg_run {VS Doc Img}.
Arguments whisper_transcribe {VS Doc Img}.
Arguments writable {VS Doc Img}.
Arguments os_path_join {VS Doc Img}.
Arguments os_path_splitext_root {VS Doc Img}.

(** The keys of [st.session_state] the upload and answer paths use. *)
Record Session (VS Img : Type) := {
  content : pystr;
  vector_store : option VS;
  documents_processed : bool;
  audio_processed : bool;
  (** absent until the Video branch of the sidebar first runs *)
  video_processed : option bool;
  uploaded_image : option Img;
}.
Arguments content {VS Img}.
Arguments vector_store {VS Img}.
Arguments documents_processed {VS Img}.
Arguments audio_processed {VS Img}.
Arguments video_processed {VS Img}.
Arguments uploaded_image {VS Img}.

(** Session state and the paths that exist on disk. *)
Record World (VS Img : Type) := {
  session : Session VS Img;
  fs : gset string;
}.
Arguments session {VS Img}.
Arguments fs {VS Img}.

(** The calls that leave the script, in the order they happen. *)
Inductive Event (VS Doc : Type) : Type :=
| EvRmtree (path : string)
| EvWriteFile (path : string)
| EvRemove (path : string)
| EvFfmpeg (video audio : string)
| EvWhisper (path : string)
| EvFromTexts (texts : list pystr) (normalize_L2 : bool)
| EvSaveLocal (path : string)
| EvLoadLocal (path : string)
| EvSimilaritySearch (store : VS) (query : pystr)
| EvChain (docs : list Doc) (question : pystr)
| EvCohere (prompt : pystr)
| EvPdfReader (file : UploadedFile)
| EvPresentation (file : UploadedFile)
| EvReadExcel (file : UploadedFile)
| EvImageOpen (file : UploadedFile).
Arguments EvRmtree {VS Doc}.
Arguments EvWriteFile {VS Doc}.
Arguments EvRemove {VS Doc}.
Arguments EvFfmpeg {VS Doc}.
Arguments EvWhisper {VS Doc}.
Arguments EvFromTexts {VS Doc}.
Arguments EvSaveLocal {VS Doc}.
Arguments EvLoadLocal {VS Doc}.
Arguments EvSimilaritySearch {VS Doc}.
Arguments EvChain {VS Doc}.
Arguments EvCohere {VS Doc}.
Arguments EvPdfReader {VS Doc}.
Arguments EvPresentation {VS Doc}.
Arguments EvReadExcel {VS Doc}.
Arguments EvImageOpen {VS Doc}.

Inductive FileType := PDF | PPT | Excel | Image | Audio | Video.

(** What the file uploader shown for the selected type returns: a list for
    the multi-file uploaders, an optional file for the others. *)
Record Uploads := {
  uploaded_files_in : list UploadedFile;
  uploaded_audio_in : option UploadedFile;
  uploaded_video_in : option UploadedFile;
  uploaded_file_in : option UploadedFile;
}.

Definition UPLOAD_FOLDER : string := "uploads".
Definition INDEX_FOLDER : string := "vector_store_index".

Definition no_documents_message : pystr :=
  py "No relevant documents found. Please upload documents first or try a different question.".

Declare Scope py_scope.
Delimit Scope py_scope with py.

Section App.

Context {VS Doc Img : Type}.
Variable E : Externals VS Doc Img.

(** ** The monad: world passing, exceptions, a log of external calls *)

Record Outcome (A : Type) := {
  value : result A;
  final : World VS Img;
  events : list (Event VS Doc);
}.
Arguments value {A}.
Arguments final {A}.
Arguments events {A}.

Definition M (A : Type) : Type := World VS Img -> Outcome A.

Definition ret {A} (a : A) : M A :=
  fun w => {| value := Ok a; final := w; events := [] |}.

Definition raise {A} : M A :=
  fun w => {| value := Raise; final := w; events := [] |}.

(** Sequencing: an exception skips the rest, the changes made so far stay. *)
Definition bind {A B} (m : M A) (k : A -> M B) : M B :=
  fun w =>
    let o := m w in
    match value o with
    | Ok a =>
        let o' := k a (final o) in
        {| value := value o'; final := final o'; events := events o ++ events o' |}
    | Raise => {| value := Raise; final := final o; events := events o |}
    end.

(** [try: body except Exception: handler] *)
Definition try_except {A} (body handler : M A) : M A :=
  fun w =>
    let o := body w in
    match value o with
    | Ok _ => o
    | Raise =>
        let o' := handler (final o) in
        {| value := value o'; final := final o'; events := events o ++ events o' |}
    end.

Notation "x <- m ;; k" := (bind m (fun x => k))
  (at level 100, m at next level, right associativity) : py_scope.
Notation "m ;; k" := (bind m (fun _ => k))
  (at level 100, right associativity) : py_scope.
Local Open Scope py_scope.

Definition emit (e : Event VS Doc) : M unit :=
  fun w => {| value := Ok tt; final := w; events := [e] |}.

(** An external call: logged, then its value or its exception. *)
Definition call {A} (e : Event VS Doc) (r : result A) : M A :=
  emit e ;; match r with Ok a => ret a | Raise => raise end.

Definition get_session : M (Session VS Img) :=
  fun w => {| value := Ok (session w); final := w; events := [] |}.

Definition modify_session (f : Session VS Img -> Session VS Img) : M unit :=
  fun w => {| value := Ok tt;
              final := {| session := f (session w); fs := fs w |};
              events := [] |}.

Definition modify_fs (f : gset string -> gset string) : M unit :=
  fun w => {| value := Ok tt;
              final := {| session := session w; fs := f (fs w) |};
              events := [] |}.

Definition set_content (c : pystr) : M unit :=
  modify_session (fun s =>
    {| content := c; vector_store := vector_store s;
       documents_processed := documents_processed s;
       audio_processed := audio_processed s;
       video_processed := video_processed s;
       uploaded_image := uploaded_image s |}).

Definition set_vector_store (v : option VS) : M unit :=
  modify_session (fun s =>
    {| content := content s; vector_store := v;
       documents_processed := documents_processed s;
       audio_processed := audio_processed s;
       video_processed := video_processed s;
       uploaded_image := uploaded_image s |}).

Definition set_documents_processed (b : bool) : M unit :=
  modify_session (fun s =>
    {| content := content s; vector_store := vector_store s;
       documents_processed := b;
       audio_processed := audio_processed s;
       video_processed := video_processed s;
       uploaded_image := uploaded_image s |}).

Definition set_audio_processed (b : bool) : M unit :=
  modify_session (fun s =>
    {| content := content s; vector_store := vector_store s;
       documents_processed := documents_processed s;
       audio_processed := b;
       video_processed := video_processed s;
       uploaded_image := uploaded_image s |}).

Definition set_video_processed (b : option bool) : M unit :=
  modify_session (fun s =>
    {| content := content s; vector_store := vector_store s;
       documents_processed := documents_processed s;
       audio_processed := audio_processed s;
       video_processed := b;
       uploaded_image := uploaded_image s |}).

Definition set_uploaded_image (i : option Img) : M unit :=
  modify_session (fun s =>
    {| content := content s; vector_store := vector_store s;
       documents_processed := documents_processed s;
       audio_processed := audio_processed s;
       video_processed := video_processed s;
       uploaded_image := i |}).

(** [os.path.exists(path)] *)
Definition path_exists (path : string) : M bool :=
  fun w => {| value := Ok (bool_decide (path ∈ fs w)); final := w; events := [] |}.

(** [shutil.rmtree(path)] *)
Definition rmtree (path : string) : M unit :=
  modify_fs (fun d => d ∖ {[path]}) ;; emit (EvRmtree path).

(** [os.makedirs(path, exist_ok=True)] *)
Definition makedirs (path : string) : M unit :=
  modify_fs (fun d => {[path]} ∪ d).

(** [with open(path, "wb") as f: f.write(...)] *)
Definition write_file (path : string) : M unit :=
  if writable E path
  then modify_fs (fun d => {[path]} ∪ d) ;; emit (EvWriteFile path)
  else raise.

(** [os.remove(path)]: raises when the file is not there. *)
Definition remove_file (path : string) : M unit :=
  ex <- path_exists path ;;
  if ex then modify_fs (fun d => d ∖ {[path]}) ;; emit (EvRemove path)
  else raise.

(** [vector_store.save_local(path)] *)
Definition save_local (path : string) : M unit :=
  modify_fs (fun d => {[path]} ∪ d) ;; emit (EvSaveLocal path).

(** ** Section 3: file handling *)

Definition clear_old_index : M unit :=
  ex <- path_exists INDEX_FOLDER ;;
  if ex then rmtree INDEX_FOLDER else ret tt.

Definition handle_file_upload (uploaded_file : option UploadedFile)
  : M (option string) :=
  match uploaded_file with
  | None => ret None
  | Some f =>
      makedirs UPLOAD_FOLDER ;;
      let file_path := os_path_join E UPLOAD_FOLDER (name f) in
      write_file file_path ;;
      ret (Some file_path)
  end.

Definition load_excel_and_convert_to_csv (file : UploadedFile) : M pystr :=
  try_except
    (call (EvReadExcel file) (read_excel_to_csv E file))
    (ret (py "Error: " ++ excel_error_text E file)).

Definition get_ppt_content (file : UploadedFile) : M pystr :=
  slides <- call (EvPresentation file) (Presentation_slides E file) ;;
  let slides_content := map (fun shapes => join [] shapes) slides in
  ret (join (py (String "010" "")) slides_content).

Definition get_pdf_text (file : UploadedFile) : M pystr :=
  pages <- call (EvPdfReader file) (PdfReader_pages E file) ;;
  ret (fold_left (fun text page => text ++ page) pages []).

(** ** Section 4: audio and video *)

Definition extract_audio (video_path : string) : M (option string) :=
  ex <- path_exists video_path ;;
  if negb ex then ret None
  else
    let audio_output := (os_path_splitext_root E video_path ++ ".wav")%string in
    try_except
      (written <- call (EvFfmpeg video_path audio_output)
                       (ffmpeg_run E video_path audio_output) ;;
       (if written : bool then modify_fs (fun d => {[audio_output]} ∪ d) else ret tt) ;;
       ex' <- path_exists audio_output ;;
       if ex' then ret (Some audio_output) else ret None)
      (ret None).

Definition transcribe_audio (audio_file_path : string) : M (option pystr) :=
  ex <- path_exists audio_file_path ;;
  if negb ex then ret None
  else
    try_except
      (transcription <- call (EvWhisper audio_file_path)
                             (whisper_transcribe E audio_file_path) ;;
       ret (Some transcription))
      (ret None).

(** ** Section 5: chunks and the vector store *)

Definition text_splitter_config : SplitterConfig :=
  {| chunk_size := 1000; chunk_overlap := 100; separators := None |}.

Definition get_text_chunks (text : pystr) : list pystr :=
  split_text E text_splitter_config text.

Definition get_vector_store (text_chunks : list pystr) (vector_store_path : string)
  : M VS :=
  let cleaned_chunks := map clean_text text_chunks in
  vs <- call (EvFromTexts cleaned_chunks false)
             (FAISS_from_texts E cleaned_chunks false) ;;
  save_local vector_store_path ;;
  ret vs.

Definition load_vector_store (vector_store_path : string) : M (option VS) :=
  ex <- path_exists vector_store_path ;;
  if negb ex then ret None
  else
    vs <- call (EvLoadLocal vector_store_path)
               (FAISS_load_local E vector_store_path) ;;
    ret (Some vs).

Definition newline : pystr := py (String "010" "").

(** The part of [process_video] that runs once a transcription is there. *)
Definition process_video_index (video_path audio_path : string)
           (transcription : pystr) : M bool :=
  s <- get_session ;;
  set_content (content s ++ (transcription ++ newline)) ;;
  clear_old_index ;;
  s' <- get_session ;;
  let text_chunks := get_text_chunks (content s') in
  vs <- get_vector_store text_chunks INDEX_FOLDER ;;
  set_vector_store (Some vs) ;;
  set_documents_processed true ;;
  try_except (remove_file video_path ;; remove_file audio_path) (ret tt) ;;
  ret true.

Definition process_video (uploaded_video : option UploadedFile) : M bool :=
  match uploaded_video with
  | None => ret false
  | Some _ =>
      try_except
        (video_path <- handle_file_upload uploaded_video ;;
         match video_path with
         | None => ret false
         | Some video_path =>
             audio_path <- extract_audio video_path ;;
             match audio_path with
             | None => ret false
             | Some audio_path =>
                 transcription <- transcribe_audio audio_path ;;
                 match transcription with
                 | Some t =>
                     if truthy t
                     then process_video_index video_path audio_path t
                     else ret false
                 | None => ret false
                 end
             end
         end)
        (ret false)
  end.

Definition audio_splitter_config : SplitterConfig :=
  {| chunk_size := 500; chunk_overlap := 50;
     separators := Some (map py [String "010" (String "010" ""); String "010" "";
                                 "."; "!"; "?"; ","; " "]%string) |}.

(** The part of [process_audio] that runs once a transcription is there. *)
Definition process_audio_index (audio_path : string) (transcription : pystr)
  : M bool :=
  clear_old_index ;;
  let text_chunks := split_text E audio_splitter_config transcription in
  vs <- call (EvFromTexts text_chunks true) (FAISS_from_texts E text_chunks true) ;;
  set_vector_store (Some vs) ;;
  save_local INDEX_FOLDER ;;
  set_documents_processed true ;;
  set_content transcription ;;
  try_except (remove_file audio_path) (ret tt) ;;
  ret true.

Definition process_audio (uploaded_audio : option UploadedFile) : M bool :=
  match uploaded_audio with
  | None => ret false
  | Some _ =>
      try_except
        (audio_path <- handle_file_upload uploaded_audio ;;
         match audio_path with
         | None => ret false
         | Some audio_path =>
             transcription <- transcribe_audio audio_path ;;
             match transcription with
             | Some t =>
                 if truthy t
                 then process_audio_index audio_path t
                 else ret false
             | None => ret false
             end
         end)
        (ret false)
  end.

(** ** Section 6: retrieval and answering *)

(** The store [retrieve_documents] searches: the session's, or else the one
    loaded from [INDEX_FOLDER], which is then kept in the session.  A FAISS
    object is always truthy, so [if vector_store] tests for [None]. *)
Definition available_vector_store : M (option VS) :=
  s <- get_session ;;
  match vector_store s with
  | Some vs => ret (Some vs)
  | None =>
      loaded <- load_vector_store INDEX_FOLDER ;;
      match loaded with
      | Some vs => set_vector_store (Some vs) ;; ret (Some vs)
      | None => ret None
      end
  end.

Definition retrieve_documents (query : pystr) : M (list Doc) :=
  try_except
    (store <- available_vector_store ;;
     match store with
     | None => ret []
     | Some vs =>
         retrieved_docs <- call (EvSimilaritySearch vs query)
                                (similarity_search E vs query) ;;
         ret retrieved_docs
     end)
    (ret []).

Definition process_question (question : pystr) (retrieved_docs : list Doc)
  : M pystr :=
  match retrieved_docs with
  | [] => ret no_documents_message
  | _ => call (EvChain retrieved_docs question) (qa_chain E retrieved_docs question)
  end.

(** ** Section 7: query improvement *)

Definition related_terms_prompt (query : pystr) : pystr :=
  py "Provide a list of related search terms (separated by commas) for improving retrieval. "
  ++ py "Do NOT change the meaning of the query: '" ++ query ++ py "'".

Definition comma : codepoint := 0x2C.

(** [", ".join([term.strip() for term in text.strip().split(",") if term.strip()])] *)
Definition tidy_terms (text : pystr) : pystr :=
  join (py ", ")
       (map strip (List.filter (fun term => truthy (strip term))
                               (split_on comma (strip text)))).

Definition fetch_related_terms (query : pystr) : M pystr :=
  try_except
    (text <- call (EvCohere (related_terms_prompt query))
                  (cohere_generate E (related_terms_prompt query)) ;;
     ret (tidy_terms text))
    (ret []).

Definition short_query_words : nat := 15.

Definition process_input (question : pystr) : M pystr :=
  if (length (split_ws question) <? short_query_words)%nat
  then
    related_terms <- fetch_related_terms question ;;
    let combined_query : pystr :=
      if truthy related_terms then question ++ py " " ++ related_terms
      else question in
    retrieved_docs <- retrieve_documents combined_query ;;
    process_question question retrieved_docs
  else
    retrieved_docs <- retrieve_documents question ;;
    process_question question retrieved_docs.

(** ** Section 10: the sidebar's upload handling *)

(** The text one file adds to [combined_content]. *)
Definition extract_file (file_type : FileType) (file : UploadedFile)
  : M (option pystr) :=
  match file_type with
  | PDF => t <- get_pdf_text file ;; ret (Some t)
  | PPT => t <- get_ppt_content file ;; ret (Some t)
  | Excel => t <- load_excel_and_convert_to_csv file ;; ret (Some t)
  | _ => ret None
  end.

(** [for file in uploaded_files: combined_content += ... + "\n"] *)
Fixpoint combine_files (file_type : FileType) (files : list UploadedFile)
         (combined_content : pystr) : M pystr :=
  match files with
  | [] => ret combined_content
  | file :: rest =>
      t <- extract_file file_type file ;;
      match t with
      | Some t => combine_files file_type rest (combined_content ++ (t ++ newline))
      | None => combine_files file_type rest combined_content
      end
  end.

(** The block under [if file_type != "Image" and uploaded_files]. *)
Definition process_uploaded_files (file_type : FileType)
           (uploaded_files : list UploadedFile) : M unit :=
  s <- get_session ;;
  if negb (documents_processed s)
  then
    clear_old_index ;;
    combined_content <- combine_files file_type uploaded_files [] ;;
    set_content combined_content ;;
    let text_chunks := get_text_chunks combined_content in
    vs <- get_vector_store text_chunks INDEX_FOLDER ;;
    set_vector_store (Some vs) ;;
    set_documents_processed true
  else ret tt.

(** The branch of the selected file type; it gives the value of
    [uploaded_files] (empty where the source leaves it [None]). *)
Definition upload_branch (file_type : FileType) (up : Uploads)
  : M (list UploadedFile) :=
  match file_type with
  | PDF | PPT | Excel => ret (uploaded_files_in up)
  | Audio =>
      s <- get_session ;;
      match uploaded_audio_in up with
      | Some a =>
          if negb (audio_processed s)
          then
            ok <- process_audio (Some a) ;;
            (if ok : bool then set_audio_processed true else ret tt) ;;
            ret []
          else ret []
      | None => ret []
      end
  | Video =>
      s <- get_session ;;
      (match video_processed s with
       | None => set_video_processed (Some false)
       | Some _ => ret tt
       end) ;;
      s' <- get_session ;;
      match uploaded_video_in up with
      | Some v =>
          if negb (default false (video_processed s'))
          then
            ok <- process_video (Some v) ;;
            (if ok : bool then set_video_processed (Some true) else ret tt) ;;
            ret []
          else ret []
      | None => ret []
      end
  | Image =>
      match uploaded_file_in up with
      | Some f =>
          image <- call (EvImageOpen f) (Image_open E f) ;;
          set_uploaded_image (Some image) ;;
          ret []
      | None => ret []
      end
  end.

(** One run of the sidebar from the file-type select box on. *)
Definition sidebar (file_type : FileType) (up : Uploads) : M unit :=
  uploaded_files <- upload_branch file_type up ;;
  match file_type, uploaded_files with
  | Image, _ => ret tt
  | _, [] => ret tt
  | _, _ => process_uploaded_files file_type uploaded_files
  end.

End App.

Arguments value {VS Doc Img A}.
Arguments final {VS Doc Img A}.
Arguments events {VS Doc Img A}.

(** ** A small instance of the services

    Concrete services to run the script on: a vector store is the list of
    texts it was built from, a retrieved document is one of those texts. *)

Module Demo.

Definition VS : Type := list pystr.
Definition Doc : Type := pystr.
Definition Img : Type := list N.

(** One chunk per line of the text. *)
Definition lines (cfg : SplitterConfig) (text : pystr) : list pystr :=
  List.filter truthy (split_on 0x0A text).

Definition ext : Externals VS Doc Img := {|
  split_text := lines;
  FAISS_from_texts := fun texts _ =>
    match texts with [] => Raise | _ => Ok texts end;
  FAISS_load_local := fun _ => Ok [py "stored on disk"];
  similarity_search := fun vs _ => Ok vs;
  qa_chain := fun docs question => Ok (py "answer to: " ++ question);
  cohere_generate := fun _ => Ok (py " alpha, beta ,, gamma ");
  PdfReader_pages := fun f => Ok [buffer f];
  Presentation_slides := fun f => Ok [[buffer f]];
  read_excel_to_csv := fun f => Ok (buffer f);
  excel_error_text := fun _ => py "unreadable";
  Image_open := fun f => Ok (buffer f);
  ffmpeg_run := fun _ _ => Ok true;
  whisper_transcribe := fun _ => Ok (py "spoken words");
  writable := fun _ => true;
  os_path_join := fun a b => (a ++ "/" ++ b)%string;
  os_path_splitext_root := fun p => p;
|}.

(** The same services with Cohere, the index on disk and the search down. *)
Definition offline : Externals VS Doc Img := {|
  split_text := lines;
  FAISS_from_texts := fun _ _ => Raise;
  FAISS_load_local := fun _ => Raise;
  similarity_search := fun _ _ => Raise;
  qa_chain := fun _ _ => Raise;
  cohere_generate := fun _ => Raise;
  PdfReader_pages := fun _ => Raise;
  Presentation_slides := fun _ => Raise;
  read_excel_to_csv := fun _ => Raise;
  excel_error_text := fun _ => py "unreadable";
  Image_open := fun _ => Raise;
  ffmpeg_run := fun _ _ => Raise;
  whisper_transcribe := fun _ => Raise;
  writable := fun _ => false;
  os_path_join := fun a b => (a ++ "/" ++ b)%string;
  os_path_splitext_root := fun p => p;
|}.

(** The session as the script initialises it. *)
Definition fresh_session : Session VS Img := {|
  content := [];
  vector_store := None;
  documents_processed := false;
  audio_processed := false;
  video_processed := None;
  uploaded_image := None;
|}.

Definition fresh : World VS Img := {| session := fresh_session; fs := ∅ |}.

(** A session that already indexed one document. *)
Definition indexed_session : Session VS Img := {|
  content := py "first document" ++ [0x0A];
  vector_store := Some [py "first document"];
  documents_processed := true;
  audio_processed := false;
  video_processed := None;
  uploaded_image := None;
|}.

Definition indexed : World VS Img :=
  {| session := indexed_session; fs := {[INDEX_FOLDER]} |}.

(** No store in the session, an index folder on disk. *)
Definition restarted : World VS Img :=
  {| session := fresh_session; fs := {[INDEX_FOLDER]} |}.

Definition file (n : string) (text : string) : UploadedFile :=
  {| name := n; buffer := py text |}.

Definition no_uploads : Uploads := {|
  uploaded_files_in := [];
  uploaded_audio_in := None;
  uploaded_video_in := None;
  uploaded_file_in := None;
|}.

Definition two_files : Uploads := {|
  uploaded_files_in := [file "a.pdf" "alpha"; file "b.pdf" "beta"];
  uploaded_audio_in := None;
  uploaded_video_in := None;
  uploaded_file_in := None;
|}.

Definition one_audio : Uploads := {|
  uploaded_files_in := [];
  uploaded_audio_in := Some (file "talk.wav" "");
  uploaded_video_in := None;
  uploaded_file_in := None;
|}.

Definition one_video : Uploads := {|
  uploaded_files_in := [];
  uploaded_audio_in := None;
  uploaded_video_in := Some (file "clip.mp4" "");
  uploaded_file_in := None;
|}.

Definition one_image : Uploads := {|
  uploaded_files_in := [];
  uploaded_audio_in := None;
  uploaded_video_in := None;
  uploaded_file_in := Some (file "photo.png" "pixels");
|}.

Definition short_question : pystr := py "what is alpha".

Definition long_question : pystr :=
  py "one two three four five six seven eight nine ten eleven twelve thirteen fourteen fifteen".




End Demo.

(** ** Predicates the statements use *)

Definition starts_with_space (s : pystr) : bool :=
  match s with
  | c :: _ => is_space c
  | [] => false
  end.

Definition ends_with_space (s : pystr) : bool := starts_with_space (rev s).

(** No leading and no trailing whitespace. *)
Definition trimmed (s : pystr) : Prop :=
  starts_with_space s = false /\ ends_with_space s = false.

(** Every character is in the Basic Multilingual Plane. *)
Definition within_bmp (s : pystr) : Prop := Forall (fun c => c <= 0xFFFF) s.

(** What [clean_text] establishes of its result. *)
Definition cleaned (s : pystr) : Prop :=
  within_bmp s /\ trimmed s /\ clean_text s = s.





(** ** The vocabulary of the statements

    What the theorems below say about a run: the step a service call
    stands for, the text a parser gives, the worlds between the steps. *)

Section Vocabulary.

Context {VS Doc Img : Type}.
Variable E : Externals VS Doc Img.

(** Neither a surrogate nor beyond the Basic Multilingual Plane: a character
    [clean_text] keeps as it is. *)
Definition plain (c : codepoint) : Prop :=
  is_surrogate c = false /\ is_astral c = false.

Definition is_search (e : Event VS Doc) : bool :=
  match e with EvSimilaritySearch _ _ => true | _ => false end.

(** What [retrieve_documents] returns once it searched [vs]: the list the
    search gave, or the empty list when the search raised. *)
Definition search_result (vs : VS) (q : pystr) : list Doc :=
  match similarity_search E vs q with
  | Ok docs => docs
  | Raise => []
  end.

(** The terms [fetch_related_terms] returns for a query. *)
Definition related_terms (query : pystr) : pystr :=
  match cohere_generate E (related_terms_prompt query) with
  | Ok text => tidy_terms text
  | Raise => []
  end.

(** The query [process_input] hands to [retrieve_documents]. *)
Definition retrieval_query (question : pystr) : pystr :=
  if (length (split_ws question) <? short_query_words)%nat
  then if truthy (related_terms question)
       then question ++ py " " ++ related_terms question
       else question
  else question.

(** The Cohere call [process_input] makes, if any. *)
Definition expansion_events (question : pystr) : list (Event VS Doc) :=
  if (length (split_ws question) <? short_query_words)%nat
  then [EvCohere (related_terms_prompt question)]
  else [].

Definition is_document_type (file_type : FileType) : bool :=
  match file_type with
  | PDF | PPT | Excel => true
  | _ => false
  end.

(** The text the script extracts from one file of a document type. *)
Definition extracted_text (file_type : FileType) (file : UploadedFile)
  : result pystr :=
  match file_type with
  | PDF =>
      match PdfReader_pages E file with
      | Ok pages => Ok (concat pages)
      | Raise => Raise
      end
  | PPT =>
      match Presentation_slides E file with
      | Ok slides => Ok (join newline (map (fun shapes => concat shapes) slides))
      | Raise => Raise
      end
  | Excel =>
      match read_excel_to_csv E file with
      | Ok csv => Ok csv
      | Raise => Ok (py "Error: " ++ excel_error_text E file)
      end
  | _ => Raise
  end.

(** The parser call made for one file. *)
Definition extract_event (file_type : FileType) (file : UploadedFile)
  : Event VS Doc :=
  match file_type with
  | PDF => EvPdfReader file
  | PPT => EvPresentation file
  | _ => EvReadExcel file
  end.

(** [combined_content] after the loop over the files. *)
Definition combined (texts : list pystr) : pystr :=
  concat (map (fun t => t ++ newline) texts).

(** The world once the index folder is gone. *)
Definition without_index (w : World VS Img) : World VS Img :=
  {| session := session w; fs := fs w ∖ {[INDEX_FOLDER]} |}.

(** The removal of the index folder, when there is one. *)
Definition deletion_events (w : World VS Img) : list (Event VS Doc) :=
  if bool_decide (INDEX_FOLDER ∈ fs w) then [EvRmtree INDEX_FOLDER] else [].

(** The world with one more path on disk. *)
Definition with_path (path : string) (w : World VS Img) : World VS Img :=
  {| session := session w; fs := {[path]} ∪ fs w |}.

(** The session after a batch of documents was indexed. *)
Definition documents_session (s : Session VS Img) (text : pystr) (vs : VS)
  : Session VS Img :=
  {| content := text; vector_store := Some vs; documents_processed := true;
     audio_processed := audio_processed s;
     video_processed := video_processed s;
     uploaded_image := uploaded_image s |}.

Definition is_from_texts (e : Event VS Doc) : bool :=
  match e with EvFromTexts _ _ => true | _ => false end.

(** Where [handle_file_upload] saves a file. *)
Definition upload_path (f : UploadedFile) : string :=
  os_path_join E UPLOAD_FOLDER (name f).

(** Where [extract_audio] puts the audio of a saved video. *)
Definition wav_path (f : UploadedFile) : string :=
  (os_path_splitext_root E (upload_path f) ++ ".wav")%string.

(** The world once the upload is saved. *)
Definition after_upload (f : UploadedFile) (w : World VS Img) : World VS Img :=
  {| session := session w;
     fs := {[upload_path f]} ∪ ({[UPLOAD_FOLDER]} ∪ fs w) |}.

(** Saving the upload succeeds. *)
Definition saved (f : UploadedFile) : bool := writable E (upload_path f).

(** ffmpeg returns and the WAV file is there afterwards. *)
Definition audio_extracted (f : UploadedFile) (w : World VS Img) : bool :=
  match ffmpeg_run E (upload_path f) (wav_path f) with
  | Ok true => true
  | Ok false => bool_decide (wav_path f ∈ fs (after_upload f w))
  | Raise => false
  end.

(** The world once the audio is extracted. *)
Definition after_extraction (f : UploadedFile) (w : World VS Img) : World VS Img :=
  match ffmpeg_run E (upload_path f) (wav_path f) with
  | Ok true => with_path (wav_path f) (after_upload f w)
  | _ => after_upload f w
  end.

(** Whisper returns a non-empty transcription of the file at [path]. *)
Definition transcription (path : string) : option pystr :=
  match whisper_transcribe E path with
  | Ok t => if truthy t then Some t else None
  | Raise => None
  end.

(** The calls that delete, build or save an index. *)
Definition builds_index (e : Event VS Doc) : bool :=
  match e with
  | EvRmtree _ | EvFromTexts _ _ | EvSaveLocal _ => true
  | _ => false
  end.

(** The session with new content and nothing else changed. *)
Definition with_content (s : Session VS Img) (text : pystr) : Session VS Img :=
  {| content := text; vector_store := vector_store s;
     documents_processed := documents_processed s;
     audio_processed := audio_processed s;
     video_processed := video_processed s;
     uploaded_image := uploaded_image s |}.

(** A call in a [try] whose handler returns [false]. *)
Definition guarded (pre : list (Event VS Doc)) (o : @Outcome VS Doc Img bool)
  : @Outcome VS Doc Img bool :=
  {| value := match value o with Ok b => Ok b | Raise => Ok false end;
     final := final o; events := pre ++ events o |}.

(** The calls of [process_video] up to the audio extraction. *)
Definition video_events (f : UploadedFile) : list (Event VS Doc) :=
  [EvWriteFile (upload_path f); EvFfmpeg (upload_path f) (wav_path f)].

(** The session with [audio_processed] set. *)
Definition mark_audio (s : Session VS Img) : Session VS Img :=
  {| content := content s; vector_store := vector_store s;
     documents_processed := documents_processed s;
     audio_processed := true;
     video_processed := video_processed s;
     uploaded_image := uploaded_image s |}.

(** The session with [video_processed] set to [b]. *)
Definition mark_video (b : bool) (s : Session VS Img) : Session VS Img :=
  {| content := content s; vector_store := vector_store s;
     documents_processed := documents_processed s;
     audio_processed := audio_processed s;
     video_processed := Some b;
     uploaded_image := uploaded_image s |}.

(** The world once the Video branch made sure [video_processed] is there. *)
Definition video_ready (w : World VS Img) : World VS Img :=
  match video_processed (session w) with
  | Some _ => w
  | None => {| session := mark_video false (session w); fs := fs w |}
  end.

(** A run of the sidebar that builds an index. *)
Definition indexes_upload (file_type : FileType) (up : Uploads) (w : World VS Img)
  : Prop :=
  exists texts normalize,
    In (EvFromTexts texts normalize) (events (sidebar E file_type up w)).

(** The texts of every index built in a run are cleaned. *)
Definition embeds_cleaned (e : Event VS Doc) : Prop :=
  match e with
  | EvFromTexts texts _ => Forall cleaned texts
  | _ => True
  end.

End Vocabulary.

(** ** Words, terms and chunks *)

Definition not_space (c : codepoint) : bool := negb (is_space c).

(** A word of [s.split()]: not empty, no whitespace in it. *)
Definition is_word (w : pystr) : Prop := w <> [] /\ forallb not_space w = true.

(** The list [fetch_related_terms] joins with [", "]. *)
Definition terms_of (text : pystr) : list pystr :=
  map strip (List.filter (fun term => truthy (strip term))
                         (split_on comma (strip text))).

(** A term as [fetch_related_terms] returns it: not empty, nothing to strip,
    no comma. *)
Definition is_term (t : pystr) : Prop :=
  t <> [] /\ trimmed t /\ Forall (fun c => c <> comma) t.

(** Whitespace, or a character [clean_text] deletes. *)
Definition vanishes (c : codepoint) : bool := is_space c || is_astral c.

(** A chunk of the late-chunking loop: not empty, at most [chunk_size] long. *)
Definition is_chunk (chunk_size : Z) (c : pystr) : Prop :=
  c <> [] /\ (Z.of_nat (length c) <= chunk_size)%Z.

(** ** Uploads and questions: the worlds they leave *)

Section UploadVocabulary.

Context {VS Doc Img : Type}.
Variable E : Externals VS Doc Img.

(** A run that does nothing: no exception, no change, no call. *)
Definition skipped (w : World VS Img) : @Outcome VS Doc Img unit :=
  {| value := Ok tt; final := w; events := [] |}.

(** What [load_excel_and_convert_to_csv] returns for a file. *)
Definition excel_text (file : UploadedFile) : pystr :=
  match read_excel_to_csv E file with
  | Ok csv => csv
  | Raise => py "Error: " ++ excel_error_text E file
  end.

(** The session with a store loaded and nothing else changed. *)
Definition with_store (s : Session VS Img) (vs : VS) : Session VS Img :=
  {| content := content s; vector_store := Some vs;
     documents_processed := documents_processed s;
     audio_processed := audio_processed s;
     video_processed := video_processed s;
     uploaded_image := uploaded_image s |}.

(** The world a question leaves behind: the one it found, or the same with
    the index of the disk loaded into a session that had no store. *)
Definition after_question (w w' : World VS Img) : Prop :=
  w' = w \/
  (vector_store (session w) = None /\ (INDEX_FOLDER ∈ fs w) /\
   exists vs, FAISS_load_local E INDEX_FOLDER = Ok vs /\
              w' = {| session := with_store (session w) vs; fs := fs w |}).

(** The calls that answering a question from the documents can make. *)
Definition is_retrieval (e : Event VS Doc) : bool :=
  match e with
  | EvCohere _ | EvLoadLocal _ | EvSimilaritySearch _ _ | EvChain _ _ => true
  | _ => false
  end.

End UploadVocabulary.

(** ** The chat: submitting a question and answering it *)

(** The Gemini vision model behind [get_gemini_response]. *)
Record Gemini (Img : Type) := {
  (** [genai.GenerativeModel('gemini-1.5-flash-latest')] *)
  GenerativeModel : result unit;
  (** [model.generate_content([question, image]).text] *)
  generate_content : pystr -> Img -> result pystr;
  (** [str(e)] for the exception [generate_content] raised *)
  gemini_error_text : pystr -> Img -> pystr;
}.
Arguments GenerativeModel {Img}.
Arguments generate_content {Img}.
Arguments gemini_error_text {Img}.

(** The session state of a chat: the keys of [Session] and the disk, and
    the keys the input box and the chat display use. *)
Record Chat (VS Img : Type) := {
  world : World VS Img;
  user_input : pystr;
  current_question : option pystr;
  processing : bool;
  conversation_history : list (pystr * pystr);
}.
Arguments world {VS Img}.
Arguments user_input {VS Img}.
Arguments current_question {VS Img}.
Arguments processing {VS Img}.
Arguments conversation_history {VS Img}.

(** What the user does: type a text and send it, which runs the callback
    [handle_submit]; or anything that makes Streamlit run the script, with
    the file type selected and the files in the uploaders. *)
Inductive Action :=
| Submit (text : pystr)
| Run (file_type : FileType) (up : Uploads).

Section ChatModel.

Context {VS Doc Img : Type}.
Variable E : Externals VS Doc Img.
Variable G : Gemini Img.

Definition get_gemini_response (question : pystr) (image : Img) : result pystr :=
  match GenerativeModel G with
  | Raise => Raise
  | Ok _ =>
      match generate_content G question image with
      | Ok text => Ok text
      | Raise => Ok (py "Error processing image: " ++ gemini_error_text G question image)
      end
  end.

(** The session state when the script first ran: lines 66 to 89 set every
    key but [video_processed], and none that is already there. *)
Definition initial_chat (disk : gset string) : Chat VS Img :=
  {| world := {| session := {| content := []; vector_store := None;
                               documents_processed := false;
                               audio_processed := false;
                               video_processed := None;
                               uploaded_image := None |};
                 fs := disk |};
     user_input := [];
     current_question := None;
     processing := false;
     conversation_history := [] |}.

(** [handle_submit]: the state it leaves, and whether it showed
    [st.error("Please upload the documents before asking questions.")]. *)
Definition handle_submit (c : Chat VS Img) : Chat VS Img * bool :=
  if truthy (user_input c) && truthy (strip (user_input c))
  then
    if negb (truthy (content (session (world c)))
             || match uploaded_image (session (world c)) with
                | Some _ => true
                | None => false
                end)
    then (c, true)
    else ({| world := world c;
             user_input := [];
             current_question := Some (user_input c);
             processing := true;
             conversation_history := conversation_history c |}, false)
  else (c, false).

(** One run of a part of the script over the chat. *)
Record ChatOutcome := {
  outcome : result unit;
  chat : Chat VS Img;
  calls : list (Event VS Doc);
}.

Definition with_world (c : Chat VS Img) (w : World VS Img) : Chat VS Img :=
  {| world := w; user_input := user_input c;
     current_question := current_question c;
     processing := processing c;
     conversation_history := conversation_history c |}.

(** The chat once [response] was appended to the history. *)
Definition answered (c : Chat VS Img) (w : World VS Img) (question response : pystr)
  : Chat VS Img :=
  {| world := w; user_input := user_input c;
     current_question := None;
     processing := false;
     conversation_history := conversation_history c ++ [(question, response)] |}.

Definition idle (c : Chat VS Img) : ChatOutcome :=
  {| outcome := Ok tt; chat := c; calls := [] |}.

(** The block under [if st.session_state.processing and
    st.session_state.current_question]; the [st.rerun()] that ends it starts
    the next run of the script. *)
Definition answer_step (c : Chat VS Img) : ChatOutcome :=
  match current_question c with
  | Some question =>
      if processing c && truthy question
      then
        match uploaded_image (session (world c)) with
        | Some image =>
            match get_gemini_response question image with
            | Ok response =>
                {| outcome := Ok tt; chat := answered c (world c) question response;
                   calls := [] |}
            | Raise => {| outcome := Raise; chat := c; calls := [] |}
            end
        | None =>
            let o := process_input E question (world c) in
            match value o with
            | Ok response =>
                {| outcome := Ok tt; chat := answered c (final o) question response;
                   calls := events o |}
            | Raise =>
                {| outcome := Raise; chat := with_world c (final o); calls := events o |}
            end
        end
      else idle c
  | None => idle c
  end.

(** One run of the script: the sidebar, then the chat; an exception ends
    the run, what was written to the session state stays. *)
Definition script_run (file_type : FileType) (up : Uploads) (c : Chat VS Img)
  : ChatOutcome :=
  let o := sidebar E file_type up (world c) in
  match value o with
  | Ok _ =>
      let a := answer_step (with_world c (final o)) in
      {| outcome := outcome a; chat := chat a; calls := events o ++ calls a |}
  | Raise => {| outcome := Raise; chat := with_world c (final o); calls := events o |}
  end.

(** The text box holds [text] when the callback runs. *)
Definition typed (text : pystr) (c : Chat VS Img) : Chat VS Img :=
  {| world := world c; user_input := text;
     current_question := current_question c;
     processing := processing c;
     conversation_history := conversation_history c |}.

Definition act (a : Action) (c : Chat VS Img) : ChatOutcome :=
  match a with
  | Submit text => idle (fst (handle_submit (typed text c)))
  | Run file_type up => script_run file_type up c
  end.

(** A session: the state after the actions, and every call made. *)
Fixpoint interact (actions : list Action) (c : Chat VS Img)
  : Chat VS Img * list (Event VS Doc) :=
  match actions with
  | [] => (c, [])
  | a :: rest =>
      let o := act a c in
      let r := interact rest (chat o) in
      (fst r, calls o ++ snd r)
  end.

(** What a session never loses: content, a store, the flags that say an
    upload was processed, an image. *)
Definition grows (s s' : Session VS Img) : Prop :=
  (content s <> [] -> content s' <> []) /\
  (vector_store s <> None -> vector_store s' <> None) /\
  (documents_processed s = true -> documents_processed s' = true) /\
  (audio_processed s = true -> audio_processed s' = true) /\
  (video_processed s <> None -> video_processed s' <> None) /\
  (video_processed s = Some true -> video_processed s' = Some true) /\
  (uploaded_image s <> None -> uploaded_image s' <> None).

(** A run from [w] keeps what the session has and makes only calls in [P]. *)
Definition steady_at (P : Event VS Doc -> Prop) {A} (m : @M VS Doc Img A)
           (w : World VS Img) : Prop :=
  grows (session w) (session (final (m w))) /\ Forall P (events (m w)).

Definition steady (P : Event VS Doc -> Prop) {A} (m : @M VS Doc Img A) : Prop :=
  forall w, steady_at P m w.

(** A call of the upload path: none that answering a question makes. *)
Definition is_upload_call (e : Event VS Doc) : Prop := is_retrieval e = false.

(** A question that can be answered: not blank. *)
Definition is_question (q : pystr) : Prop := strip q <> [].

(** There is something to ask about: content, or an image. *)
Definition has_material (s : Session VS Img) : Prop :=
  content s <> [] \/ uploaded_image s <> None.

(** The state of the chat is coherent: a question is pending exactly when
    [processing] is set, it is not blank and there is something to ask
    about; no question of the history is blank. *)
Definition coherent (c : Chat VS Img) : Prop :=
  (processing c = true <-> current_question c <> None) /\
  (forall q, current_question c = Some q ->
             is_question q /\ has_material (session (world c))) /\
  Forall (fun qa => is_question (fst qa)) (conversation_history c).

End ChatModel.

Arguments outcome {VS Doc Img}.
Arguments chat {VS Doc Img}.
Arguments calls {VS Doc Img}.

(** ** Services that fail, and a chat *)

Module Scenes.

(** The services of [Demo.ext] with FAISS down. *)
Definition no_index : Externals Demo.VS Demo.Doc Demo.Img := {|
  split_text := split_text Demo.ext;
  FAISS_from_texts := fun _ _ => Raise;
  FAISS_load_local := FAISS_load_local Demo.ext;
  similarity_search := similarity_search Demo.ext;
  qa_chain := qa_chain Demo.ext;
  cohere_generate := cohere_generate Demo.ext;
  PdfReader_pages := PdfReader_pages Demo.ext;
  Presentation_slides := Presentation_slides Demo.ext;
  read_excel_to_csv := read_excel_to_csv Demo.ext;
  excel_error_text := excel_error_text Demo.ext;
  Image_open := Image_open Demo.ext;
  ffmpeg_run := ffmpeg_run Demo.ext;
  whisper_transcribe := whisper_transcribe Demo.ext;
  writable := writable Demo.ext;
  os_path_join := os_path_join Demo.ext;
  os_path_splitext_root := os_path_splitext_root Demo.ext;
|}.

(** The services of [Demo.ext] with a pandas that reads no file. *)
Definition no_excel : Externals Demo.VS Demo.Doc Demo.Img := {|
  split_text := split_text Demo.ext;
  FAISS_from_texts := FAISS_from_texts Demo.ext;
  FAISS_load_local := FAISS_load_local Demo.ext;
  similarity_search := similarity_search Demo.ext;
  qa_chain := qa_chain Demo.ext;
  cohere_generate := cohere_generate Demo.ext;
  PdfReader_pages := PdfReader_pages Demo.ext;
  Presentation_slides := Presentation_slides Demo.ext;
  read_excel_to_csv := fun _ => Raise;
  excel_error_text := excel_error_text Demo.ext;
  Image_open := Image_open Demo.ext;
  ffmpeg_run := ffmpeg_run Demo.ext;
  whisper_transcribe := whisper_transcribe Demo.ext;
  writable := writable Demo.ext;
  os_path_join := os_path_join Demo.ext;
  os_path_splitext_root := os_path_splitext_root Demo.ext;
|}.

Definition one_sheet : Uploads := {|
  uploaded_files_in := [Demo.file "sales.xlsx" "1,2"];
  uploaded_audio_in := None;
  uploaded_video_in := None;
  uploaded_file_in := None;
|}.

(** A Gemini whose calls fail once the model object is built. *)
Definition gemini_down : Gemini Demo.Img := {|
  GenerativeModel := Ok tt;
  generate_content := fun _ _ => Raise;
  gemini_error_text := fun _ _ => py "quota exceeded";
|}.

(** A chat over an indexed session, nothing pending. *)
Definition ready : Chat Demo.VS Demo.Img := {|
  world := Demo.indexed;
  user_input := [];
  current_question := None;
  processing := false;
  conversation_history := [];
|}.

(** The same session with an image uploaded and a question pending. *)
Definition with_image : Chat Demo.VS Demo.Img := {|
  world := {| session := {| content := content Demo.indexed_session;
                            vector_store := vector_store Demo.indexed_session;
                            documents_processed := true;
                            audio_processed := false;
                            video_processed := None;
                            uploaded_image := Some (py "pixels") |};
              fs := {[INDEX_FOLDER]} |};
  user_input := [];
  current_question := Some (py "what is shown");
  processing := true;
  conversation_history := [];
|}.

(** Upload documents, ask, let the script run. *)
Definition upload_and_ask : list Action :=
  [Run PDF Demo.two_files; Submit Demo.short_question; Run PDF Demo.two_files].

End Scenes.

(** Unfolds the monad's operations and reduces what they project. *)
Ltac run :=
  unfold bind, try_except, call, emit, ret, raise, get_session, path_exists,
    modify_session, modify_fs;
  cbn [value final events session fs content vector_store documents_processed
       audio_processed video_processed uploaded_image app negb].

(** ** Python strings: stripping *)

Section StripFacts.

Lemma drop_while_suffix p s :
  exists pre, s = pre ++ drop_while p s /\ forallb p pre = true.
Proof.
  induction s as [|c s IH]; simpl.
  - exists []. split; reflexivity.
  - destruct (p c) eqn:Hc.
    + destruct IH as [pre [Heq Hall]].
      exists (c :: pre). simpl. rewrite Hc, Hall. split; [|reflexivity].
      f_equal. exact Heq.
    + exists []. split; reflexivity.
Qed.

Lemma drop_while_head p s c r :
  drop_while p s = c :: r -> p c = false.
Proof.
  induction s as [|d s IH]; simpl; [discriminate|].
  destruct (p d) eqn:Hd; [exact IH|].
  intros H. injection H as -> _. exact Hd.
Qed.

Lemma drop_while_fixed p s :
  match s with c :: _ => p c = false | [] => True end ->
  drop_while p s = s.
Proof. destruct s as [|c s]; simpl; [reflexivity|]. intros ->. reflexivity. Qed.

Lemma drop_while_Forall (P : codepoint -> Prop) p s :
  Forall P s -> Forall P (drop_while p s).
Proof.
  induction 1 as [|c s Hc Hs IH]; simpl; [constructor|].
  destruct (p c); [exact IH|]. constructor; assumption.
Qed.

Lemma lstrip_no_leading s : starts_with_space (lstrip s) = false.
Proof.
  unfold lstrip. destruct (drop_while is_space s) as [|c r] eqn:H; [reflexivity|].
  simpl. eapply drop_while_head. exact H.
Qed.

Lemma rstrip_no_trailing s : ends_with_space (rstrip s) = false.
Proof.
  unfold ends_with_space, rstrip. rewrite rev_involutive.
  destruct (drop_while is_space (rev s)) as [|c r] eqn:H; [reflexivity|].
  simpl. eapply drop_while_head. exact H.
Qed.

(** [rstrip] only removes characters at the end. *)
Lemma rstrip_prefix s : exists suf, s = rstrip s ++ suf.
Proof.
  unfold rstrip.
  destruct (drop_while_suffix is_space (rev s)) as [pre [Heq _]].
  exists (rev pre).
  rewrite <- rev_app_distr, <- Heq, rev_involutive. reflexivity.
Qed.

Lemma rstrip_keeps_leading s :
  starts_with_space s = false -> starts_with_space (rstrip s) = false.
Proof.
  intros H. destruct (rstrip_prefix s) as [suf Heq].
  destruct (rstrip s) as [|c r]; [reflexivity|].
  rewrite Heq in H. exact H.
Qed.

Lemma strip_trimmed s : trimmed (strip s).
Proof.
  unfold strip. split.
  - apply rstrip_keeps_leading, lstrip_no_leading.
  - apply rstrip_no_trailing.
Qed.

Lemma strip_fixed s : trimmed s -> strip s = s.
Proof.
  intros [Hl Hr]. unfold strip, lstrip.
  rewrite drop_while_fixed.
  - unfold rstrip. rewrite drop_while_fixed; [apply rev_involutive|].
    unfold ends_with_space in Hr.
    destruct (rev s); [exact I|exact Hr].
  - destruct s; [exact I|exact Hl].
Qed.

Lemma strip_Forall (P : codepoint -> Prop) s : Forall P s -> Forall P (strip s).
Proof.
  intros H. unfold strip, rstrip, lstrip.
  apply Forall_rev, drop_while_Forall, Forall_rev, drop_while_Forall, H.
Qed.

End StripFacts.

(** ** [clean_text] *)

Section CleanText.

Lemma encode_replace_decode_plain s :
  Forall plain s -> encode_replace_decode s = s.
Proof.
  induction 1 as [|c s [Hc _] _ IH]; simpl; [reflexivity|].
  rewrite Hc. f_equal. exact IH.
Qed.

Lemma remove_astral_plain s : Forall plain s -> remove_astral s = s.
Proof.
  induction 1 as [|c s [_ Hc] _ IH]; simpl; [reflexivity|].
  rewrite Hc. simpl. f_equal. exact IH.
Qed.

Lemma scrubbed_plain s : Forall plain (remove_astral (encode_replace_decode s)).
Proof.
  induction s as [|c s IH]; simpl; [constructor|].
  destruct (is_surrogate c) eqn:Hs.
  - simpl. constructor; [|exact IH]. split; reflexivity.
  - destruct (is_astral c) eqn:Ha; simpl; [exact IH|].
    constructor; [|exact IH]. split; assumption.
Qed.

Lemma clean_text_plain s : Forall plain (clean_text s).
Proof.
  unfold clean_text. destruct (negb (truthy s)); [constructor|].
  apply strip_Forall, scrubbed_plain.
Qed.

Lemma clean_text_trimmed s : trimmed (clean_text s).
Proof.
  unfold clean_text. destruct (negb (truthy s)).
  - split; reflexivity.
  - apply strip_trimmed.
Qed.

Lemma clean_text_fixed s : Forall plain s -> trimmed s -> clean_text s = s.
Proof.
  intros Hp Ht. unfold clean_text.
  destruct s as [|c s]; [reflexivity|]. simpl negb. cbv iota.
  rewrite encode_replace_decode_plain, remove_astral_plain by assumption.
  apply strip_fixed, Ht.
Qed.

Lemma clean_text_idempotent s : clean_text (clean_text s) = clean_text s.
Proof. apply clean_text_fixed; [apply clean_text_plain|apply clean_text_trimmed]. Qed.

Lemma scrubbed_within_bmp s :
  wf_str s -> within_bmp (remove_astral (encode_replace_decode s)).
Proof.
  unfold wf_str, within_bmp, max_codepoint.
  induction 1 as [|c s Hc _ IH]; simpl; [constructor|].
  destruct (is_surrogate c) eqn:Hs.
  - simpl. constructor; [lia|exact IH].
  - destruct (is_astral c) eqn:Ha; simpl; [exact IH|].
    constructor; [|exact IH].
    unfold is_astral in Ha.
    apply andb_false_iff in Ha as [Ha|Ha].
    + apply N.leb_gt in Ha. lia.
    + apply N.leb_gt in Ha. lia.
Qed.

Lemma clean_text_within_bmp s : wf_str s -> within_bmp (clean_text s).
Proof.
  intros H. unfold clean_text. destruct (negb (truthy s)); [constructor|].
  apply strip_Forall, scrubbed_within_bmp, H.
Qed.

Lemma clean_text_cleaned s : wf_str s -> cleaned (clean_text s).
Proof.
  intros H. split; [|split].
  - apply clean_text_within_bmp, H.
  - apply clean_text_trimmed.
  - apply clean_text_idempotent.
Qed.

End CleanText.

(** ** Late chunking *)

Section LateChunking.



(** A slice with bounds inside the sequence. *)
Lemma py_slice_inside {A} (l : list A) (a b : Z) :
  (0 <= a <= Z.of_nat (length l))%Z -> (a <= b)%Z ->
  py_slice l a b = firstn (Z.to_nat (b - a)) (skipn (Z.to_nat a) l).
Proof.
  intros Ha Hb. unfold py_slice, clamp_index.
  destruct (Z.ltb_spec a 0) as [?|_]; [lia|].
  destruct (Z.ltb_spec b 0) as [?|_]; [lia|].
  rewrite (Z.min_l a) by lia.
  destruct (Z.le_gt_cases b (Z.of_nat (length l))) as [H|H].
  - rewrite Z.min_l by exact H. reflexivity.
  - rewrite Z.min_r by lia.
    rewrite !firstn_all2; [reflexivity| |]; rewrite length_skipn; lia.
Qed.

Lemma late_loop_ends (text : pystr) (chunk_size chunk_overlap : Z) :
  (chunk_overlap < chunk_size)%Z ->
  forall fuel start,
    (Z.of_nat (length text) - start <= Z.of_nat fuel)%Z ->
    exists chunks, late_loop (S fuel) text chunk_size chunk_overlap start = Some chunks.
Proof.
  intros Hstep. induction fuel as [|fuel IH]; intros start Hfuel.
  - simpl. destruct (Z.ltb_spec start (Z.of_nat (length text))) as [Hlt|Hge]; [lia|].
    eexists. reflexivity.
  - cbn [late_loop].
    destruct (Z.ltb_spec start (Z.of_nat (length text))) as [Hlt|Hge].
    + destruct (IH (start + (chunk_size - chunk_overlap))%Z) as [rest Hrest]; [lia|].
      cbn [late_loop] in Hrest. rewrite Hrest. eexists. reflexivity.
    + eexists. reflexivity.
Qed.

(** Without progress the loop never ends on a non-empty text. *)
Lemma late_loop_diverges (text : pystr) (chunk_size chunk_overlap : Z) :
  (chunk_size <= chunk_overlap)%Z ->
  forall fuel start,
    (start < Z.of_nat (length text))%Z ->
    late_loop fuel text chunk_size chunk_overlap start = None.
Proof.
  intros Hstep. induction fuel as [|fuel IH]; intros start Hlt; [reflexivity|].
  simpl. destruct (Z.ltb_spec start (Z.of_nat (length text))) as [_|?]; [|lia].
  rewrite IH by lia. reflexivity.
Qed.




End LateChunking.

(** ** The monad's equations *)

Section MonadFacts.

Context {VS Doc Img : Type}.

Lemma bind_run {A B} (m : @M VS Doc Img A) (k : A -> @M VS Doc Img B) w a w' evs :
  m w = {| value := Ok a; final := w'; events := evs |} ->
  bind m k w =
  {| value := value (k a w'); final := final (k a w');
     events := evs ++ events (k a w') |}.
Proof. intros H. unfold bind. rewrite H. reflexivity. Qed.

Lemma bind_raise {A B} (m : @M VS Doc Img A) (k : A -> @M VS Doc Img B) w :
  value (m w) = Raise ->
  bind m k w = {| value := Raise; final := final (m w); events := events (m w) |}.
Proof. intros H. unfold bind. rewrite H. reflexivity. Qed.

Lemma bind_raise_run {A B} (m : @M VS Doc Img A) (k : A -> @M VS Doc Img B) w w' evs :
  m w = {| value := Raise; final := w'; events := evs |} ->
  bind m k w = {| value := Raise; final := w'; events := evs |}.
Proof. intros H. unfold bind. rewrite H. reflexivity. Qed.

Lemma bind_pure {A B} (m : @M VS Doc Img A) (k : A -> @M VS Doc Img B) w a w' :
  m w = {| value := Ok a; final := w'; events := [] |} -> bind m k w = k a w'.
Proof. intros H. unfold bind. rewrite H. cbn. destruct (k a w'). reflexivity. Qed.

Lemma bind_get_session {B} (k : Session VS Img -> @M VS Doc Img B) w :
  bind get_session k w = k (session w) w.
Proof. apply bind_pure. reflexivity. Qed.

Lemma bind_modify_session {B} f (k : unit -> @M VS Doc Img B) w :
  bind (modify_session f) k w = k tt {| session := f (session w); fs := fs w |}.
Proof. apply bind_pure. reflexivity. Qed.

Lemma call_run {A} (e : Event VS Doc) (r : result A) (w : World VS Img) :
  call e r w = {| value := r; final := w; events := [e] |}.
Proof. unfold call. run. destruct r; reflexivity. Qed.

Lemma try_except_ok {A} (body handler : @M VS Doc Img A) w a w' evs :
  body w = {| value := Ok a; final := w'; events := evs |} ->
  try_except body handler w = {| value := Ok a; final := w'; events := evs |}.
Proof. intros H. unfold try_except. rewrite H. reflexivity. Qed.

Lemma try_except_raise {A} (body : @M VS Doc Img A) w a w' evs :
  body w = {| value := Raise; final := w'; events := evs |} ->
  try_except body (ret a) w = {| value := Ok a; final := w'; events := evs |}.
Proof. intros H. unfold try_except. rewrite H. cbn. rewrite app_nil_r. reflexivity. Qed.

Lemma try_except_guarded pre (m : @M VS Doc Img bool) body w w1 :
  body w = {| value := value (m w1); final := final (m w1);
              events := pre ++ events (m w1) |} ->
  try_except body (ret false) w = guarded pre (m w1).
Proof.
  intros H. unfold guarded. destruct (m w1) as [[b|] wf evs]; cbn in *.
  - apply try_except_ok, H.
  - apply try_except_raise, H.
Qed.

End MonadFacts.

(** ** Retrieval and answering *)

Section Retrieval.
Context {VS Doc Img : Type}.
Variable E : Externals VS Doc Img.

Lemma load_vector_store_missing path w :
  path ∉ fs w ->
  load_vector_store E path w = {| value := Ok None; final := w; events := [] |}.
Proof.
  intros H. unfold load_vector_store. run.
  rewrite bool_decide_eq_false_2 by exact H. reflexivity.
Qed.

Lemma load_vector_store_present path w :
  path ∈ fs w ->
  load_vector_store E path w =
  {| value := match FAISS_load_local E path with
              | Ok vs => Ok (Some vs)
              | Raise => Raise
              end;
     final := w; events := [EvLoadLocal path] |}.
Proof.
  intros H. unfold load_vector_store. run.
  rewrite bool_decide_eq_true_2 by exact H. cbn.
  destruct (FAISS_load_local E path); reflexivity.
Qed.

Lemma retrieve_documents_session q w vs :
  vector_store (session w) = Some vs ->
  retrieve_documents E q w =
  {| value := Ok (search_result E vs q); final := w;
     events := [EvSimilaritySearch vs q] |}.
Proof.
  intros H. unfold retrieve_documents, available_vector_store, search_result. run.
  rewrite H. cbn. destruct (similarity_search E vs q); reflexivity.
Qed.

Lemma retrieve_documents_no_index q w :
  vector_store (session w) = None -> INDEX_FOLDER ∉ fs w ->
  retrieve_documents E q w = {| value := Ok []; final := w; events := [] |}.
Proof.
  intros Hs Hd. unfold retrieve_documents, available_vector_store, load_vector_store.
  run. rewrite Hs. cbn. rewrite bool_decide_eq_false_2 by exact Hd. reflexivity.
Qed.

Lemma retrieve_documents_load_fails q w :
  vector_store (session w) = None -> INDEX_FOLDER ∈ fs w ->
  FAISS_load_local E INDEX_FOLDER = Raise ->
  retrieve_documents E q w =
  {| value := Ok []; final := w; events := [EvLoadLocal INDEX_FOLDER] |}.
Proof.
  intros Hs Hd Hl. unfold retrieve_documents, available_vector_store, load_vector_store.
  run. rewrite Hs. cbn. rewrite bool_decide_eq_true_2 by exact Hd. cbn.
  rewrite Hl. reflexivity.
Qed.

Lemma retrieve_documents_loaded q w vs :
  vector_store (session w) = None -> INDEX_FOLDER ∈ fs w ->
  FAISS_load_local E INDEX_FOLDER = Ok vs ->
  let o := retrieve_documents E q w in
  value o = Ok (search_result E vs q) /\
  vector_store (session (final o)) = Some vs /\
  content (session (final o)) = content (session w) /\
  fs (final o) = fs w /\
  events o = [EvLoadLocal INDEX_FOLDER; EvSimilaritySearch vs q].
Proof.
  intros Hs Hd Hl.
  unfold retrieve_documents, available_vector_store, load_vector_store, search_result,
    set_vector_store, modify_session.
  run. rewrite Hs. cbn. rewrite bool_decide_eq_true_2 by exact Hd. cbn.
  rewrite Hl. cbn. destruct (similarity_search E vs q); cbn; repeat split; reflexivity.
Qed.

(** [retrieve_documents] never raises. *)
Lemma retrieve_documents_returns q w :
  exists docs, value (retrieve_documents E q w) = Ok docs.
Proof.
  destruct (vector_store (session w)) as [vs|] eqn:Hs.
  - rewrite (retrieve_documents_session q w vs Hs). eexists. reflexivity.
  - destruct (decide (INDEX_FOLDER ∈ fs w)) as [Hd|Hd].
    + destruct (FAISS_load_local E INDEX_FOLDER) as [vs|] eqn:Hl.
      * destruct (retrieve_documents_loaded q w vs Hs Hd Hl) as [-> _].
        eexists. reflexivity.
      * rewrite (retrieve_documents_load_fails q w Hs Hd Hl). eexists. reflexivity.
    + rewrite (retrieve_documents_no_index q w Hs Hd). eexists. reflexivity.
Qed.

Lemma process_question_empty question w :
  process_question E question [] w =
  {| value := Ok no_documents_message; final := w; events := [] |}.
Proof. reflexivity. Qed.

Lemma process_question_docs question d docs w :
  process_question E question (d :: docs) w =
  {| value := qa_chain E (d :: docs) question; final := w;
     events := [EvChain (d :: docs) question] |}.
Proof.
  unfold process_question. run. destruct (qa_chain E (d :: docs) question); reflexivity.
Qed.

Lemma retrieve_documents_events q w e :
  In e (events (retrieve_documents E q w)) ->
  e = EvLoadLocal INDEX_FOLDER \/ exists vs, e = EvSimilaritySearch vs q.
Proof.
  destruct (vector_store (session w)) as [vs|] eqn:Hs.
  - rewrite (retrieve_documents_session q w vs Hs). cbn.
    intros [<-|[]]. right. exists vs. reflexivity.
  - destruct (decide (INDEX_FOLDER ∈ fs w)) as [Hd|Hd].
    + destruct (FAISS_load_local E INDEX_FOLDER) as [vs|] eqn:Hl.
      * destruct (retrieve_documents_loaded q w vs Hs Hd Hl) as (_ & _ & _ & _ & ->).
        cbn. intros [<-|[<-|[]]]; [left; reflexivity|right; exists vs; reflexivity].
      * rewrite (retrieve_documents_load_fails q w Hs Hd Hl). cbn.
        intros [<-|[]]. left. reflexivity.
    + rewrite (retrieve_documents_no_index q w Hs Hd). cbn. intros [].
Qed.

Lemma process_question_events question docs w e :
  In e (events (process_question E question docs w)) -> e = EvChain docs question.
Proof.
  destruct docs as [|d docs].
  - rewrite process_question_empty. cbn. intros [].
  - rewrite process_question_docs. cbn. intros [<-|[]]. reflexivity.
Qed.

Lemma fetch_related_terms_run query w :
  fetch_related_terms E query w =
  {| value := Ok (related_terms E query); final := w;
     events := [EvCohere (related_terms_prompt query)] |}.
Proof.
  unfold fetch_related_terms, related_terms.
  generalize (related_terms_prompt query). intros prompt. run.
  destruct (cohere_generate E prompt); reflexivity.
Qed.

Lemma retrieve_then_answer query question w docs :
  value (retrieve_documents E query w) = Ok docs ->
  let r := retrieve_documents E query w in
  let g := process_question E question docs (final r) in
  bind (retrieve_documents E query) (fun d => process_question E question d) w =
  {| value := value g; final := final g; events := events r ++ events g |}.
Proof. intros H. unfold bind. cbv zeta. rewrite H. reflexivity. Qed.

(** [process_input] is the expansion, then retrieval, then generation. *)
Lemma process_input_run question w docs :
  value (retrieve_documents E (retrieval_query E question) w) = Ok docs ->
  let r := retrieve_documents E (retrieval_query E question) w in
  let g := process_question E question docs (final r) in
  process_input E question w =
  {| value := value g; final := final g;
     events := expansion_events question ++ events r ++ events g |}.
Proof.
  intros Hr r g. subst r g.
  unfold process_input, retrieval_query, expansion_events in *.
  destruct (length (split_ws question) <? short_query_words)%nat.
  - unfold bind at 1. rewrite fetch_related_terms_run. cbv beta iota zeta.
    cbn [value final events].
    rewrite (retrieve_then_answer _ question w docs Hr). reflexivity.
  - rewrite (retrieve_then_answer _ question w docs Hr). reflexivity.
Qed.

(** Every way a call of [retrieve_documents] can go. *)
Lemma retrieve_documents_cases q w :
  (exists vs, vector_store (session w) = Some vs /\
     retrieve_documents E q w =
     {| value := Ok (search_result E vs q); final := w;
        events := [EvSimilaritySearch vs q] |}) \/
  (vector_store (session w) = None /\ (INDEX_FOLDER ∉ fs w) /\
     retrieve_documents E q w = {| value := Ok []; final := w; events := [] |}) \/
  (vector_store (session w) = None /\ (INDEX_FOLDER ∈ fs w) /\
     FAISS_load_local E INDEX_FOLDER = Raise /\
     retrieve_documents E q w =
     {| value := Ok []; final := w; events := [EvLoadLocal INDEX_FOLDER] |}) \/
  (exists vs, vector_store (session w) = None /\ (INDEX_FOLDER ∈ fs w) /\
     FAISS_load_local E INDEX_FOLDER = Ok vs /\
     value (retrieve_documents E q w) = Ok (search_result E vs q) /\
     events (retrieve_documents E q w) =
     [EvLoadLocal INDEX_FOLDER; EvSimilaritySearch vs q]).
Proof.
  destruct (vector_store (session w)) as [vs|] eqn:Hs.
  - left. exists vs. split; [reflexivity|]. apply retrieve_documents_session, Hs.
  - destruct (decide (INDEX_FOLDER ∈ fs w)) as [Hd|Hd].
    + destruct (FAISS_load_local E INDEX_FOLDER) as [vs|] eqn:Hl.
      * right. right. right. exists vs.
        destruct (retrieve_documents_loaded q w vs Hs Hd Hl) as (Hv & _ & _ & _ & He).
        repeat split; assumption.
      * right. right. left. repeat split; try assumption.
        apply retrieve_documents_load_fails; assumption.
    + right. left. repeat split; try assumption.
      apply retrieve_documents_no_index; assumption.
Qed.

(** C7. No custom similarity computation or re-ranking: the documents
    [retrieve_documents] returns for a query are exactly the list the vector
    store's [similarity_search] returned for that query, in the same order.
    Whenever a store is available, the session's or else the one loaded
    from the index folder, that store is searched once with the query and
    the list it gives is the result, unchanged; the empty list is returned
    only when the search raised or when there is no store to search, and
    then no search is made. *)
Theorem retrieve_documents_returns_search_result (q : pystr) (w : World VS Img) :
  let o := retrieve_documents E q w in
  (forall vs,
      vector_store (session w) = Some vs ->
      List.filter is_search (events o) = [EvSimilaritySearch vs q] /\
      (forall docs, similarity_search E vs q = Ok docs -> value o = Ok docs) /\
      (similarity_search E vs q = Raise -> value o = Ok [])) /\
  (forall vs,
      vector_store (session w) = None -> INDEX_FOLDER ∈ fs w ->
      FAISS_load_local E INDEX_FOLDER = Ok vs ->
      List.filter is_search (events o) = [EvSimilaritySearch vs q] /\
      (forall docs, similarity_search E vs q = Ok docs -> value o = Ok docs) /\
      (similarity_search E vs q = Raise -> value o = Ok [])) /\
  (vector_store (session w) = None ->
   (INDEX_FOLDER ∉ fs w) \/ FAISS_load_local E INDEX_FOLDER = Raise ->
   List.filter is_search (events o) = [] /\ value o = Ok []) /\
  ((exists vs,
       List.filter is_search (events o) = [EvSimilaritySearch vs q] /\
       match similarity_search E vs q with
       | Ok docs => value o = Ok docs
       | Raise => value o = Ok []
       end) \/
   (List.filter is_search (events o) = [] /\ value o = Ok [])).
Proof.
  cbv zeta. split; [|split; [|split]].
  - intros vs Hs. rewrite (retrieve_documents_session q w vs Hs).
    cbn [value events List.filter is_search]. unfold search_result.
    split; [reflexivity|]. split.
    + intros docs Hd. rewrite Hd. reflexivity.
    + intros Hr. rewrite Hr. reflexivity.
  - intros vs Hs Hd Hl.
    destruct (retrieve_documents_loaded q w vs Hs Hd Hl) as (Hv & _ & _ & _ & He).
    rewrite Hv, He. cbn [List.filter is_search]. unfold search_result.
    split; [reflexivity|]. split.
    + intros docs Hok. rewrite Hok. reflexivity.
    + intros Hr. rewrite Hr. reflexivity.
  - intros Hs [Hd|Hl].
    + rewrite (retrieve_documents_no_index q w Hs Hd). split; reflexivity.
    + destruct (decide (INDEX_FOLDER ∈ fs w)) as [Hd|Hd].
      * rewrite (retrieve_documents_load_fails q w Hs Hd Hl). split; reflexivity.
      * rewrite (retrieve_documents_no_index q w Hs Hd). split; reflexivity.
  - destruct (retrieve_documents_cases q w)
      as [(vs & _ & ->)|[(_ & _ & ->)|[(_ & _ & _ & ->)|(vs & _ & _ & _ & Hv & He)]]].
    + left. exists vs. split; [reflexivity|]. cbn. unfold search_result.
      destruct (similarity_search E vs q); reflexivity.
    + right. split; reflexivity.
    + right. split; reflexivity.
    + left. exists vs. rewrite He, Hv. split; [reflexivity|]. unfold search_result.
      destruct (similarity_search E vs q); reflexivity.
Qed.

(** C6. Index loading falls back from memory to disk: [retrieve_documents]
    searches the session's vector store when there is one, without touching
    the disk; otherwise it loads the index from ["vector_store_index"], and
    a store that loaded is kept in the session and searched.
    [load_vector_store] returns [None] exactly when its path does not exist. *)
Theorem index_loading_falls_back_to_disk (q : pystr) (path : string) (w : World VS Img) :
  (value (load_vector_store E path w) = Ok None <-> path ∉ fs w) /\
  (forall vs, vector_store (session w) = Some vs ->
     events (retrieve_documents E q w) = [EvSimilaritySearch vs q] /\
     final (retrieve_documents E q w) = w) /\
  (vector_store (session w) = None -> INDEX_FOLDER ∉ fs w ->
     events (retrieve_documents E q w) = [] /\
     final (retrieve_documents E q w) = w) /\
  (vector_store (session w) = None -> INDEX_FOLDER ∈ fs w ->
     exists rest,
       events (retrieve_documents E q w) = EvLoadLocal INDEX_FOLDER :: rest) /\
  (forall vs, vector_store (session w) = None -> INDEX_FOLDER ∈ fs w ->
     FAISS_load_local E INDEX_FOLDER = Ok vs ->
     vector_store (session (final (retrieve_documents E q w))) = Some vs /\
     events (retrieve_documents E q w) =
     [EvLoadLocal INDEX_FOLDER; EvSimilaritySearch vs q]).
Proof.
  split; [|split; [|split; [|split]]].
  - destruct (decide (path ∈ fs w)) as [Hd|Hd].
    + rewrite load_vector_store_present by exact Hd. cbn.
      destruct (FAISS_load_local E path); split; intros H;
        try discriminate; contradiction.
    + rewrite load_vector_store_missing by exact Hd. cbn. split; intros _;
        [exact Hd|reflexivity].
  - intros vs Hs. rewrite (retrieve_documents_session q w vs Hs). split; reflexivity.
  - intros Hs Hd. rewrite (retrieve_documents_no_index q w Hs Hd). split; reflexivity.
  - intros Hs Hd. destruct (FAISS_load_local E INDEX_FOLDER) as [vs|] eqn:Hl.
    + destruct (retrieve_documents_loaded q w vs Hs Hd Hl) as (_ & _ & _ & _ & ->).
      eexists. reflexivity.
    + rewrite (retrieve_documents_load_fails q w Hs Hd Hl). eexists. reflexivity.
  - intros vs Hs Hd Hl.
    destruct (retrieve_documents_loaded q w vs Hs Hd Hl) as (_ & Hv & _ & _ & He).
    split; assumption.
Qed.

(** C2. Answering is retrieval followed by generation.  With no vector
    store in the session and none that loads from disk,
    [retrieve_documents] returns the empty list; [process_question] on an
    empty list returns the fixed message and calls no chain; a search that
    raises gives the empty list too, and [retrieve_documents] itself never
    raises. *)
Theorem no_documents_no_generation (q question : pystr) (w : World VS Img) :
  (vector_store (session w) = None ->
   (INDEX_FOLDER ∉ fs w) \/ FAISS_load_local E INDEX_FOLDER = Raise ->
   value (retrieve_documents E q w) = Ok []) /\
  process_question E question [] w =
    {| value := Ok (py "No relevant documents found. Please upload documents first or try a different question.");
       final := w; events := [] |} /\
  (forall vs, In (EvSimilaritySearch vs q) (events (retrieve_documents E q w)) ->
     similarity_search E vs q = Raise ->
     value (retrieve_documents E q w) = Ok []) /\
  (exists docs, value (retrieve_documents E q w) = Ok docs) /\
  (exists docs,
     let r := retrieve_documents E (retrieval_query E question) w in
     let g := process_question E question docs (final r) in
     value r = Ok docs /\
     process_input E question w =
     {| value := value g; final := final g;
        events := expansion_events question ++ events r ++ events g |}).
Proof.
  split; [|split; [|split; [|split]]].
  - intros Hs [Hd|Hl].
    + rewrite (retrieve_documents_no_index q w Hs Hd). reflexivity.
    + destruct (decide (INDEX_FOLDER ∈ fs w)) as [Hd|Hd].
      * rewrite (retrieve_documents_load_fails q w Hs Hd Hl). reflexivity.
      * rewrite (retrieve_documents_no_index q w Hs Hd). reflexivity.
  - reflexivity.
  - intros vs Hin Hraise.
    destruct (retrieve_documents_cases q w)
      as [(vs' & _ & Hr)|[(_ & _ & Hr)|[(_ & _ & _ & Hr)|(vs' & _ & _ & _ & Hv & He)]]].
    + rewrite Hr in *. cbn in *. destruct Hin as [Heq|[]].
      injection Heq as ->. unfold search_result. rewrite Hraise. reflexivity.
    + rewrite Hr. reflexivity.
    + rewrite Hr. reflexivity.
    + rewrite He in Hin. rewrite Hv. cbn in Hin.
      destruct Hin as [Heq|[Heq|[]]]; [discriminate|].
      injection Heq as ->. unfold search_result. rewrite Hraise. reflexivity.
  - apply retrieve_documents_returns.
  - destruct (retrieve_documents_returns (retrieval_query E question) w) as [docs Hr].
    exists docs. cbv zeta. split; [exact Hr|]. apply process_input_run, Hr.
Qed.

(** C1. [process_input] asks Cohere for related terms exactly when the
    question has fewer than 15 whitespace-separated words.  It then
    retrieves with the question followed by a space and the related terms
    (with the question alone when no terms came back), and for longer
    questions with the question unchanged; the answer is generated from the
    original question in both cases. *)
Theorem process_input_expands_short_questions (question : pystr) (w : World VS Img) :
  let o := process_input E question w in
  ((exists prompt, In (EvCohere prompt) (events o)) <->
   (length (split_ws question) < 15)%nat) /\
  retrieval_query E question =
    (if (length (split_ws question) <? 15)%nat
     then if truthy (related_terms E question)
          then question ++ py " " ++ related_terms E question
          else question
     else question) /\
  (exists docs,
     let r := retrieve_documents E (retrieval_query E question) w in
     let g := process_question E question docs (final r) in
     value r = Ok docs /\
     o = {| value := value g; final := final g;
            events := expansion_events question ++ events r ++ events g |}) /\
  (forall vs q, In (EvSimilaritySearch vs q) (events o) ->
     q = retrieval_query E question) /\
  (forall docs q, In (EvChain docs q) (events o) -> q = question).
Proof.
  cbv zeta.
  destruct (retrieve_documents_returns (retrieval_query E question) w) as [docs Hr].
  pose proof (process_input_run question w docs Hr) as Hrun. cbv zeta in Hrun.
  assert (Hev : forall e, In e (events (process_input E question w)) ->
            In e (expansion_events question) \/
            (e = EvLoadLocal INDEX_FOLDER \/
             exists vs, e = EvSimilaritySearch vs (retrieval_query E question)) \/
            exists d, e = EvChain d question).
  { intros e. rewrite Hrun. cbn [events]. rewrite !in_app_iff.
    intros [H|[H|H]]; [left; exact H| |].
    - right. left. apply retrieve_documents_events in H. exact H.
    - right. right. apply process_question_events in H. eexists. exact H. }
  assert (Hexp : forall e : Event VS Doc, In e (expansion_events question) ->
            e = EvCohere (related_terms_prompt question) /\
            (length (split_ws question) < 15)%nat).
  { intros e. unfold expansion_events, short_query_words.
    destruct (Nat.ltb_spec (length (split_ws question)) 15) as [Hlt|Hge]; cbn.
    - intros [<-|[]]. split; [reflexivity|exact Hlt].
    - intros []. }
  split; [|split; [|split; [|split]]].
  - split.
    + intros [prompt Hin]. apply Hev in Hin as [Hin|[[Heq|[vs Heq]]|[d Heq]]];
        try discriminate. apply Hexp in Hin as [_ Hlt]. exact Hlt.
    + intros Hlt. exists (related_terms_prompt question). rewrite Hrun.
      cbn [events]. apply in_app_iff. left.
      unfold expansion_events, short_query_words.
      apply Nat.ltb_lt in Hlt. rewrite Hlt. left. reflexivity.
  - reflexivity.
  - exists docs. split; [exact Hr|exact Hrun].
  - intros vs q Hin. apply Hev in Hin as [Hin|[[Heq|[vs' Heq]]|[d Heq]]];
      try discriminate.
    + apply Hexp in Hin as [Heq _]. discriminate.
    + injection Heq as _ ->. reflexivity.
  - intros d q Hin. apply Hev in Hin as [Hin|[[Heq|[vs' Heq]]|[d' Heq]]];
      try discriminate.
    + apply Hexp in Hin as [Heq _]. discriminate.
    + injection Heq as _ ->. reflexivity.
Qed.

End Retrieval.

(** A search on an indexed session: the list the store gives is the result. *)
Lemma retrieve_documents_returns_search_result_witness :
  vector_store (session Demo.indexed) = Some [py "first document"] /\
  similarity_search Demo.ext [py "first document"] Demo.short_question
  = Ok [py "first document"] /\
  value (retrieve_documents Demo.ext Demo.short_question Demo.indexed)
  = Ok [py "first document"].
Proof.
  assert (Hs : vector_store (session Demo.indexed) = Some [py "first document"])
    by reflexivity.
  assert (Hd : similarity_search Demo.ext [py "first document"] Demo.short_question
               = Ok [py "first document"]) by reflexivity.
  split; [exact Hs|]. split; [exact Hd|].
  destruct (retrieve_documents_returns_search_result Demo.ext Demo.short_question
                                                     Demo.indexed) as (H & _).
  destruct (H [py "first document"] Hs) as (_ & Hv & _).
  exact (Hv [py "first document"] Hd).
Defined.

(** The fall-back on a restarted session: nothing in memory, an index on disk. *)
Lemma index_loading_falls_back_to_disk_witness :
  vector_store (session Demo.restarted) = None /\
  (INDEX_FOLDER ∈ fs Demo.restarted) /\
  FAISS_load_local Demo.ext INDEX_FOLDER = Ok [py "stored on disk"] /\
  vector_store (session (final (retrieve_documents Demo.ext Demo.short_question
                                                   Demo.restarted)))
  = Some [py "stored on disk"].
Proof.
  assert (Hd : INDEX_FOLDER ∈ fs Demo.restarted).
  { apply elem_of_singleton. reflexivity. }
  destruct (index_loading_falls_back_to_disk Demo.ext Demo.short_question
              INDEX_FOLDER Demo.restarted) as (_ & _ & _ & _ & H).
  destruct (H [py "stored on disk"] eq_refl Hd eq_refl) as [Hv _].
  split; [reflexivity|]. split; [exact Hd|]. split; [reflexivity|]. exact Hv.
Defined.

(** A fresh session with nothing on disk retrieves nothing. *)
Lemma no_documents_no_generation_witness :
  vector_store (session Demo.fresh) = None /\
  (INDEX_FOLDER ∉ fs Demo.fresh) /\
  value (retrieve_documents Demo.ext Demo.short_question Demo.fresh) = Ok [].
Proof.
  assert (Hd : INDEX_FOLDER ∉ fs Demo.fresh).
  { apply not_elem_of_empty. }
  destruct (no_documents_no_generation Demo.ext Demo.short_question
              Demo.short_question Demo.fresh) as (H & _).
  split; [reflexivity|]. split; [exact Hd|].
  apply H; [reflexivity|left; exact Hd].
Defined.

(** A three-word question is expanded; the search sees the expanded query,
    the chain the original question. *)
Lemma process_input_expands_short_questions_witness :
  (length (split_ws Demo.short_question) < 15)%nat /\
  (exists prompt,
      In (EvCohere prompt)
         (events (process_input Demo.ext Demo.short_question Demo.indexed))) /\
  retrieval_query Demo.ext Demo.short_question
  = py "what is alpha alpha, beta, gamma".
Proof.
  assert (Hlt : (length (split_ws Demo.short_question) < 15)%nat).
  { vm_compute. lia. }
  destruct (process_input_expands_short_questions Demo.ext Demo.short_question
              Demo.indexed) as (Hc & Hq & _).
  split; [exact Hlt|]. split; [apply Hc, Hlt|].
  rewrite Hq. vm_compute. reflexivity.
Defined.

(** ** Document uploads *)

Section Documents.
Context {VS Doc Img : Type}.
Variable E : Externals VS Doc Img.

Lemma fold_left_app_concat (pages : list pystr) (acc : pystr) :
  fold_left (fun text page => text ++ page) pages acc = acc ++ concat pages.
Proof.
  revert acc. induction pages as [|p pages IH]; intros acc; simpl.
  - rewrite app_nil_r. reflexivity.
  - rewrite IH, <- app_assoc. reflexivity.
Qed.

Lemma join_empty_concat (parts : list pystr) : join [] parts = concat parts.
Proof.
  induction parts as [|x parts IH]; [reflexivity|].
  destruct parts as [|y parts].
  - simpl. rewrite app_nil_r. reflexivity.
  - change (join [] (x :: y :: parts)) with (x ++ [] ++ join [] (y :: parts)).
    rewrite IH. reflexivity.
Qed.

Lemma extract_file_run file_type file w :
  is_document_type file_type = true ->
  extract_file E file_type file w =
  {| value := match extracted_text E file_type file with
              | Ok t => Ok (Some t)
              | Raise => Raise
              end;
     final := w; events := [extract_event file_type file] |}.
Proof.
  destruct file_type; try discriminate; intros _;
    unfold extract_file, extracted_text, extract_event.
  - unfold get_pdf_text. run. destruct (PdfReader_pages E file) as [pages|]; run;
      [|reflexivity].
    rewrite fold_left_app_concat. reflexivity.
  - unfold get_ppt_content. run.
    destruct (Presentation_slides E file) as [slides|]; run; [|reflexivity].
    do 3 f_equal. unfold newline. f_equal.
    apply map_ext. intros shapes. apply join_empty_concat.
  - unfold load_excel_and_convert_to_csv. run.
    destruct (read_excel_to_csv E file) as [csv|]; run; reflexivity.
Qed.

Lemma combine_files_ok file_type files texts acc w :
  is_document_type file_type = true ->
  Forall2 (fun f t => extracted_text E file_type f = Ok t) files texts ->
  combine_files E file_type files acc w =
  {| value := Ok (acc ++ combined texts); final := w;
     events := map (extract_event file_type) files |}.
Proof.
  intros Hty Hall. revert acc.
  induction Hall as [|f t files texts Ht _ IH]; intros acc.
  - cbn. rewrite app_nil_r. reflexivity.
  - cbn [combine_files]. unfold bind. cbv zeta.
    rewrite (extract_file_run file_type f w Hty), Ht. cbn [value final events].
    rewrite IH. cbn [value final events map app].
    unfold combined. cbn [map concat]. rewrite <- !app_assoc. reflexivity.
Qed.

Lemma clear_old_index_run w :
  @clear_old_index VS Doc Img w =
  {| value := Ok tt; final := without_index w; events := deletion_events w |}.
Proof.
  unfold clear_old_index, rmtree, without_index, deletion_events. run.
  destruct (decide (INDEX_FOLDER ∈ fs w)) as [Hd|Hd].
  - rewrite !bool_decide_eq_true_2 by exact Hd. reflexivity.
  - rewrite !bool_decide_eq_false_2 by exact Hd. run.
    destruct w as [s d]. cbn in *. do 2 f_equal.
    symmetry. apply difference_disjoint_L. set_solver.
Qed.

Lemma get_vector_store_run chunks path w :
  get_vector_store E chunks path w =
  match FAISS_from_texts E (map clean_text chunks) false with
  | Ok vs =>
      {| value := Ok vs; final := with_path path w;
         events := [EvFromTexts (map clean_text chunks) false; EvSaveLocal path] |}
  | Raise =>
      {| value := Raise; final := w;
         events := [EvFromTexts (map clean_text chunks) false] |}
  end.
Proof.
  unfold get_vector_store, save_local, with_path. run.
  destruct (FAISS_from_texts E (map clean_text chunks) false); reflexivity.
Qed.

(** Building the index and recording it in the session. *)
Lemma build_index_run chunks w :
  bind (get_vector_store E chunks INDEX_FOLDER)
       (fun vs => bind (set_vector_store (Some vs))
                       (fun _ => set_documents_processed true)) w =
  match FAISS_from_texts E (map clean_text chunks) false with
  | Ok vs =>
      {| value := Ok tt;
         final := {| session := documents_session (session w)
                                                  (content (session w)) vs;
                     fs := {[INDEX_FOLDER]} ∪ fs w |};
         events := [EvFromTexts (map clean_text chunks) false;
                    EvSaveLocal INDEX_FOLDER] |}
  | Raise =>
      {| value := Raise; final := w;
         events := [EvFromTexts (map clean_text chunks) false] |}
  end.
Proof.
  unfold bind. cbv zeta. rewrite get_vector_store_run.
  destruct (FAISS_from_texts E (map clean_text chunks) false); reflexivity.
Qed.

Lemma process_uploaded_files_ok file_type files texts vs w :
  is_document_type file_type = true ->
  documents_processed (session w) = false ->
  Forall2 (fun f t => extracted_text E file_type f = Ok t) files texts ->
  FAISS_from_texts E (map clean_text (get_text_chunks E (combined texts))) false
  = Ok vs ->
  process_uploaded_files E file_type files w =
  {| value := Ok tt;
     final := {| session := documents_session (session w) (combined texts) vs;
                 fs := {[INDEX_FOLDER]} ∪ (fs w ∖ {[INDEX_FOLDER]}) |};
     events := deletion_events w ++ map (extract_event file_type) files ++
               [EvFromTexts (map clean_text (get_text_chunks E (combined texts)))
                            false;
                EvSaveLocal INDEX_FOLDER] |}.
Proof.
  intros Hty Hdp Hall Hvs. unfold process_uploaded_files.
  rewrite bind_get_session, Hdp. cbn [negb].
  rewrite (bind_run _ _ w tt _ _ (clear_old_index_run w)).
  rewrite (bind_run _ _ _ _ _ _
             (combine_files_ok file_type files texts [] (without_index w) Hty Hall)).
  change ([] ++ combined texts) with (combined texts).
  unfold set_content. rewrite bind_modify_session.
  rewrite build_index_run. cbn [session content without_index].
  rewrite Hvs. reflexivity.
Qed.

Lemma sidebar_documents file_type up w :
  is_document_type file_type = true ->
  uploaded_files_in up <> [] ->
  sidebar E file_type up w =
  process_uploaded_files E file_type (uploaded_files_in up) w.
Proof.
  intros Hty Hne. unfold sidebar, upload_branch.
  destruct (uploaded_files_in up) as [|f files] eqn:Hf; [contradiction|].
  destruct file_type; try discriminate;
    rewrite (bind_run _ _ w (f :: files) w []) by reflexivity;
    cbn [app];
    destruct (process_uploaded_files E _ (f :: files) w); reflexivity.
Qed.

Lemma extract_events_no_index file_type files :
  List.filter is_from_texts (map (@extract_event VS Doc file_type) files) = [].
Proof.
  induction files as [|f files IH]; [reflexivity|].
  cbn. destruct file_type; cbn; exact IH.
Qed.

Lemma deletion_events_no_index (w : World VS Img) :
  List.filter is_from_texts (@deletion_events VS Doc Img w) = [].
Proof. unfold deletion_events. destruct (bool_decide _); reflexivity. Qed.

(** C5, as the script has it.  When PDF, PPT or Excel files are uploaded
    in one batch and no documents were processed before, and every file is
    parsed and FAISS returns, the
    run of the sidebar completes and leaves as content the extracted text of
    each file, in upload order, each followed by a newline.  The old index
    folder is removed before anything else, one index is built, from the
    cleaned chunks of that content, and saved, and [documents_processed]
    becomes true. *)
Theorem uploaded_documents_indexed
        (file_type : FileType) (up : Uploads) (w : World VS Img)
        (texts : list pystr) (vs : VS) :
  is_document_type file_type = true ->
  uploaded_files_in up <> [] ->
  documents_processed (session w) = false ->
  Forall2 (fun f t => extracted_text E file_type f = Ok t)
          (uploaded_files_in up) texts ->
  FAISS_from_texts E
    (map clean_text
         (get_text_chunks E (concat (map (fun t => t ++ py (String "010" "")) texts))))
    false = Ok vs ->
  let o := sidebar E file_type up w in
  value o = Ok tt /\
  content (session (final o)) = concat (map (fun t => t ++ py (String "010" "")) texts) /\
  vector_store (session (final o)) = Some vs /\
  documents_processed (session (final o)) = true /\
  events o =
    (if bool_decide (INDEX_FOLDER ∈ fs w) then [EvRmtree INDEX_FOLDER] else []) ++
    map (extract_event file_type) (uploaded_files_in up) ++
    [EvFromTexts (map clean_text (get_text_chunks E (content (session (final o)))))
                 false;
     EvSaveLocal INDEX_FOLDER] /\
  List.filter is_from_texts (events o) =
    [EvFromTexts (map clean_text (get_text_chunks E (content (session (final o)))))
                 false] /\
  (INDEX_FOLDER ∈ fs (final o)).
Proof.
  intros Hty Hne Hdp Hall Hvs. cbv zeta.
  rewrite (sidebar_documents file_type up w Hty Hne).
  rewrite (process_uploaded_files_ok file_type (uploaded_files_in up) texts vs w
             Hty Hdp Hall Hvs).
  cbn [value final events session fs content vector_store
       documents_processed documents_session].
  split; [reflexivity|]. split; [reflexivity|]. split; [reflexivity|].
  split; [reflexivity|]. split; [reflexivity|]. split.
  - rewrite !List.filter_app, deletion_events_no_index, extract_events_no_index.
    reflexivity.
  - set_solver.
Qed.

End Documents.

(** Two PDF files uploaded to a session restarted over an old index. *)
Lemma uploaded_documents_indexed_witness :
  value (sidebar Demo.ext PDF Demo.two_files Demo.restarted) = Ok tt /\
  content (session (final (sidebar Demo.ext PDF Demo.two_files Demo.restarted)))
  = py "alpha" ++ [0x0A] ++ py "beta" ++ [0x0A] /\
  exists rest,
    events (sidebar Demo.ext PDF Demo.two_files Demo.restarted)
    = EvRmtree INDEX_FOLDER :: rest.
Proof.
  destruct (uploaded_documents_indexed Demo.ext PDF Demo.two_files Demo.restarted
              [py "alpha"; py "beta"] [py "alpha"; py "beta"])
    as (Hv & Hc & _ & _ & He & _).
  - reflexivity.
  - discriminate.
  - reflexivity.
  - repeat constructor.
  - reflexivity.
  - split; [exact Hv|]. split; [exact Hc|].
    rewrite He. rewrite bool_decide_eq_true_2.
    + eexists. reflexivity.
    + apply elem_of_singleton. reflexivity.
Defined.

(** C5 as stated fails: nothing in it says that the files can be parsed.
    Two PDF files are uploaded to a session that processed no documents,
    and the reader raises on the first: the run ends with the exception
    after the old index folder was removed, nothing is indexed, the content
    is as it was and [documents_processed] is still false. *)
Lemma unparsed_batch_counterexample :
  let o := sidebar Demo.offline PDF Demo.two_files Demo.restarted in
  is_document_type PDF = true /\
  length (uploaded_files_in Demo.two_files) = 2%nat /\
  documents_processed (session Demo.restarted) = false /\
  value o = Raise /\
  events o = [EvRmtree INDEX_FOLDER; EvPdfReader (Demo.file "a.pdf" "alpha")] /\
  content (session (final o)) = [] /\
  vector_store (session (final o)) = None /\
  documents_processed (session (final o)) = false.
Proof. cbv zeta. repeat split; vm_compute; reflexivity. Qed.

(** ** Audio and video uploads *)

Section Media.
Context {VS Doc Img : Type}.
Variable E : Externals VS Doc Img.

Lemma handle_file_upload_run f w :
  handle_file_upload E (Some f) w =
  if saved E f
  then {| value := Ok (Some (upload_path E f)); final := after_upload E f w;
          events := [EvWriteFile (upload_path E f)] |}
  else {| value := Raise;
          final := {| session := session w; fs := {[UPLOAD_FOLDER]} ∪ fs w |};
          events := [] |}.
Proof.
  unfold handle_file_upload, makedirs, write_file, saved, after_upload, upload_path.
  run. destruct (writable E (os_path_join E UPLOAD_FOLDER (name f))); reflexivity.
Qed.

Lemma extract_audio_run f w :
  extract_audio E (upload_path E f) (after_upload E f w) =
  {| value := Ok (if audio_extracted E f w then Some (wav_path E f) else None);
     final := after_extraction E f w;
     events := [EvFfmpeg (upload_path E f) (wav_path E f)] |}.
Proof.
  unfold extract_audio, audio_extracted, after_extraction, with_path.
  fold (wav_path E f). run.
  rewrite bool_decide_eq_true_2 by (unfold after_upload; cbn; set_solver).
  cbn [negb]. run.
  destruct (ffmpeg_run E (upload_path E f) (wav_path E f)) as [[|]|]; run.
  - rewrite bool_decide_eq_true_2 by set_solver. reflexivity.
  - destruct (bool_decide (wav_path E f ∈ fs (after_upload E f w))); reflexivity.
  - reflexivity.
Qed.

Lemma transcribe_audio_run path w :
  path ∈ fs w ->
  transcribe_audio E path w =
  {| value := Ok (match whisper_transcribe E path with
                  | Ok t => Some t
                  | Raise => None
                  end);
     final := w; events := [EvWhisper path] |}.
Proof.
  intros H. unfold transcribe_audio. run.
  rewrite bool_decide_eq_true_2 by exact H. cbn [negb].
  destruct (whisper_transcribe E path); reflexivity.
Qed.

Lemma wav_path_extracted f w :
  audio_extracted E f w = true -> wav_path E f ∈ fs (after_extraction E f w).
Proof.
  unfold audio_extracted, after_extraction.
  destruct (ffmpeg_run E (upload_path E f) (wav_path E f)) as [[|]|]; intros H.
  - cbn. set_solver.
  - apply bool_decide_eq_true_1 in H. exact H.
  - discriminate.
Qed.

Lemma filter_from_texts_build (evs : list (Event VS Doc)) :
  List.filter is_from_texts evs = List.filter is_from_texts (List.filter builds_index evs).
Proof.
  induction evs as [|e evs IH]; [reflexivity|].
  destruct e; cbn; rewrite ?IH; reflexivity.
Qed.

(** The removal of the temporary files, whatever is there to remove. *)
Lemma cleanup_two_run (a b : string) (w : World VS Img) :
  let o := try_except (bind (remove_file a) (fun _ => remove_file b))
                      (@ret VS Doc Img unit tt) w in
  value o = Ok tt /\ session (final o) = session w /\
  List.filter builds_index (events o) = [].
Proof.
  unfold remove_file. run.
  destruct (bool_decide (a ∈ fs w)); run; [|repeat split].
  destruct (bool_decide (b ∈ fs w ∖ {[a]})); run; repeat split.
Qed.

Lemma cleanup_one_run (a : string) (w : World VS Img) :
  let o := try_except (remove_file a) (@ret VS Doc Img unit tt) w in
  value o = Ok tt /\ session (final o) = session w /\
  List.filter builds_index (events o) = [].
Proof.
  unfold remove_file. run.
  destruct (bool_decide (a ∈ fs w)); run; repeat split.
Qed.

Lemma deletion_events_build (w : World VS Img) :
  List.filter builds_index (@deletion_events VS Doc Img w) = deletion_events w.
Proof. unfold deletion_events. destruct (bool_decide _); reflexivity. Qed.

Lemma process_video_index_run video_path audio_path t w :
  let o := process_video_index E video_path audio_path t w in
  let text := content (session w) ++ (t ++ newline) in
  let chunks := map clean_text (get_text_chunks E text) in
  match FAISS_from_texts E chunks false with
  | Ok vs =>
      value o = Ok true /\
      session (final o) = documents_session (session w) text vs /\
      List.filter builds_index (events o) =
      deletion_events w ++ [EvFromTexts chunks false; EvSaveLocal INDEX_FOLDER]
  | Raise =>
      value o = Raise /\
      session (final o) = with_content (session w) text /\
      List.filter builds_index (events o) =
      deletion_events w ++ [EvFromTexts chunks false]
  end.
Proof.
  cbv zeta. unfold process_video_index.
  rewrite bind_get_session. unfold set_content. rewrite bind_modify_session.
  rewrite (bind_run _ _ _ tt _ _ (clear_old_index_run _)).
  rewrite bind_get_session.
  cbn [value final events session content without_index].
  match goal with
  | |- context [bind (get_vector_store E ?c ?p) ?k ?w0] =>
      pose proof (get_vector_store_run E c p w0) as Hg
  end.
  destruct (FAISS_from_texts E _ false) as [vs|].
  - rewrite (bind_run _ _ _ _ _ _ Hg). clear Hg.
    unfold set_vector_store, set_documents_processed.
    rewrite !bind_modify_session.
    match goal with
    | |- context [bind (try_except ?m ?h) ?k ?w0] =>
        destruct (cleanup_two_run video_path audio_path w0) as (Hv & Hs & He);
        destruct (try_except m h w0) as [v wf evs] eqn:Hcl
    end.
    cbn [value final events] in Hv, Hs, He. subst v.
    rewrite (bind_run _ _ _ _ _ _ Hcl). cbn [value final events ret].
    split; [reflexivity|]. split.
    + rewrite Hs. reflexivity.
    + rewrite !List.filter_app, He, deletion_events_build. cbn.
      reflexivity.
  - rewrite (bind_raise _ _ _ (f_equal value Hg)). rewrite Hg.
    cbn [value final events]. split; [reflexivity|]. split; [reflexivity|].
    rewrite !List.filter_app, deletion_events_build. reflexivity.
Qed.

Lemma process_audio_index_run audio_path t w :
  let o := process_audio_index E audio_path t w in
  let chunks := split_text E audio_splitter_config t in
  match FAISS_from_texts E chunks true with
  | Ok vs =>
      value o = Ok true /\
      session (final o) = documents_session (session w) t vs /\
      List.filter builds_index (events o) =
      deletion_events w ++ [EvFromTexts chunks true; EvSaveLocal INDEX_FOLDER]
  | Raise =>
      value o = Raise /\
      session (final o) = session w /\
      List.filter builds_index (events o) =
      deletion_events w ++ [EvFromTexts chunks true]
  end.
Proof.
  cbv zeta. unfold process_audio_index.
  rewrite (bind_run _ _ _ tt _ _ (clear_old_index_run _)).
  match goal with
  | |- context [bind (call ?e ?r) ?k ?w0] => pose proof (call_run e r w0) as Hg
  end.
  destruct (FAISS_from_texts E _ true) as [vs|].
  - rewrite (bind_run _ _ _ _ _ _ Hg). clear Hg.
    unfold set_vector_store, set_documents_processed, set_content, save_local, modify_fs.
    rewrite bind_modify_session.
    rewrite (bind_run _ _ _ tt _ [EvSaveLocal INDEX_FOLDER] eq_refl).
    rewrite !bind_modify_session.
    match goal with
    | |- context [bind (try_except ?m ?h) ?k ?w0] =>
        destruct (cleanup_one_run audio_path w0) as (Hv & Hs & He);
        destruct (try_except m h w0) as [v wf evs] eqn:Hcl
    end.
    cbn [value final events] in Hv, Hs, He. subst v.
    rewrite (bind_run _ _ _ _ _ _ Hcl). cbn [value final events ret].
    split; [reflexivity|]. split.
    + rewrite Hs. reflexivity.
    + rewrite !List.filter_app, He, deletion_events_build. cbn.
      reflexivity.
  - rewrite (bind_raise _ _ _ (f_equal value Hg)). rewrite Hg.
    cbn [value final events]. split; [reflexivity|]. split; [reflexivity|].
    rewrite !List.filter_app, deletion_events_build. reflexivity.
Qed.

Lemma process_video_run f w :
  process_video E (Some f) w =
  if saved E f
  then
    if audio_extracted E f w
    then
      match transcription E (wav_path E f) with
      | Some t =>
          guarded (video_events E f ++ [EvWhisper (wav_path E f)])
                  (process_video_index E (upload_path E f) (wav_path E f) t
                                       (after_extraction E f w))
      | None =>
          {| value := Ok false; final := after_extraction E f w;
             events := video_events E f ++ [EvWhisper (wav_path E f)] |}
      end
    else {| value := Ok false; final := after_extraction E f w;
            events := video_events E f |}
  else {| value := Ok false;
          final := {| session := session w; fs := {[UPLOAD_FOLDER]} ∪ fs w |};
          events := [] |}.
Proof.
  unfold process_video. pose proof (handle_file_upload_run f w) as Hh.
  destruct (saved E f).
  2:{ apply try_except_raise. apply bind_raise_run. exact Hh. }
  pose proof (extract_audio_run f w) as Hx.
  pose proof (wav_path_extracted f w) as Hin.
  destruct (audio_extracted E f w).
  2:{ apply try_except_ok. rewrite (bind_run _ _ _ _ _ _ Hh).
      rewrite (bind_run _ _ _ _ _ _ Hx). reflexivity. }
  pose proof (transcribe_audio_run (wav_path E f) (after_extraction E f w) (Hin eq_refl))
    as Ht.
  unfold transcription.
  destruct (whisper_transcribe E (wav_path E f)) as [t|].
  2:{ apply try_except_ok. rewrite (bind_run _ _ _ _ _ _ Hh).
      rewrite (bind_run _ _ _ _ _ _ Hx). rewrite (bind_run _ _ _ _ _ _ Ht).
      reflexivity. }
  destruct (truthy t) eqn:Htr.
  2:{ apply try_except_ok. rewrite (bind_run _ _ _ _ _ _ Hh).
      rewrite (bind_run _ _ _ _ _ _ Hx). rewrite (bind_run _ _ _ _ _ _ Ht).
      rewrite Htr. reflexivity. }
  apply try_except_guarded.
  rewrite (bind_run _ _ _ _ _ _ Hh).
  rewrite (bind_run _ _ _ _ _ _ Hx). rewrite (bind_run _ _ _ _ _ _ Ht).
  rewrite Htr. reflexivity.
Qed.

Lemma process_audio_run f w :
  process_audio E (Some f) w =
  if saved E f
  then
    match transcription E (upload_path E f) with
    | Some t =>
        guarded [EvWriteFile (upload_path E f); EvWhisper (upload_path E f)]
                (process_audio_index E (upload_path E f) t (after_upload E f w))
    | None =>
        {| value := Ok false; final := after_upload E f w;
           events := [EvWriteFile (upload_path E f); EvWhisper (upload_path E f)] |}
    end
  else {| value := Ok false;
          final := {| session := session w; fs := {[UPLOAD_FOLDER]} ∪ fs w |};
          events := [] |}.
Proof.
  unfold process_audio. pose proof (handle_file_upload_run f w) as Hh.
  destruct (saved E f).
  2:{ apply try_except_raise. apply bind_raise_run. exact Hh. }
  assert (Hin : upload_path E f ∈ fs (after_upload E f w)) by (cbn; set_solver).
  pose proof (transcribe_audio_run (upload_path E f) (after_upload E f w) Hin) as Ht.
  unfold transcription.
  destruct (whisper_transcribe E (upload_path E f)) as [t|].
  2:{ apply try_except_ok. rewrite (bind_run _ _ _ _ _ _ Hh).
      rewrite (bind_run _ _ _ _ _ _ Ht). reflexivity. }
  destruct (truthy t) eqn:Htr.
  2:{ apply try_except_ok. rewrite (bind_run _ _ _ _ _ _ Hh).
      rewrite (bind_run _ _ _ _ _ _ Ht). rewrite Htr. reflexivity. }
  apply try_except_guarded.
  rewrite (bind_run _ _ _ _ _ _ Hh). rewrite (bind_run _ _ _ _ _ _ Ht).
  rewrite Htr. reflexivity.
Qed.

Lemma transcription_some path t :
  transcription E path = Some t ->
  whisper_transcribe E path = Ok t /\ truthy t = true.
Proof.
  unfold transcription. destruct (whisper_transcribe E path) as [t'|]; [|discriminate].
  destruct (truthy t') eqn:Htr; [|discriminate].
  intros H. injection H as <-. split; [reflexivity|exact Htr].
Qed.

(** A run of [process_video] that returned [True]. *)
Lemma process_video_true f w :
  value (process_video E (Some f) w) = Ok true ->
  exists t vs,
    saved E f = true /\ audio_extracted E f w = true /\
    transcription E (wav_path E f) = Some t /\
    let text := content (session w) ++ (t ++ newline) in
    let chunks := map clean_text (get_text_chunks E text) in
    FAISS_from_texts E chunks false = Ok vs /\
    session (final (process_video E (Some f) w))
    = documents_session (session w) text vs /\
    List.filter builds_index (events (process_video E (Some f) w)) =
    deletion_events (after_extraction E f w) ++
    [EvFromTexts chunks false; EvSaveLocal INDEX_FOLDER].
Proof.
  rewrite process_video_run.
  destruct (saved E f); [|discriminate].
  destruct (audio_extracted E f w); [|discriminate].
  destruct (transcription E (wav_path E f)) as [t|]; [|discriminate].
  pose proof (process_video_index_run (upload_path E f) (wav_path E f) t
                                      (after_extraction E f w)) as Hi.
  cbv zeta in Hi. unfold guarded. cbn [value final events].
  replace (session (after_extraction E f w)) with (session w) in Hi
    by (unfold after_extraction; destruct (ffmpeg_run E _ _) as [[|]|]; reflexivity).
  destruct (FAISS_from_texts E _ false) as [vs|] eqn:Hvs.
  - destruct Hi as (Hv & Hs & He). intros _. exists t, vs.
    split; [reflexivity|]. split; [reflexivity|]. split; [reflexivity|].
    cbv zeta. split; [exact Hvs|]. split; [exact Hs|].
    rewrite List.filter_app, He. reflexivity.
  - destruct Hi as (Hv & _). rewrite Hv. discriminate.
Qed.

(** A run of [process_audio] that returned [True]. *)
Lemma process_audio_true f w :
  value (process_audio E (Some f) w) = Ok true ->
  exists t vs,
    saved E f = true /\ transcription E (upload_path E f) = Some t /\
    let chunks := split_text E audio_splitter_config t in
    FAISS_from_texts E chunks true = Ok vs /\
    session (final (process_audio E (Some f) w))
    = documents_session (session w) t vs /\
    List.filter builds_index (events (process_audio E (Some f) w)) =
    deletion_events (after_upload E f w) ++
    [EvFromTexts chunks true; EvSaveLocal INDEX_FOLDER].
Proof.
  rewrite process_audio_run.
  destruct (saved E f); [|discriminate].
  destruct (transcription E (upload_path E f)) as [t|]; [|discriminate].
  pose proof (process_audio_index_run (upload_path E f) t (after_upload E f w)) as Hi.
  cbv zeta in Hi. unfold guarded. cbn [value final events].
  destruct (FAISS_from_texts E _ true) as [vs|] eqn:Hvs.
  - destruct Hi as (Hv & Hs & He). intros _. exists t, vs.
    split; [reflexivity|]. split; [reflexivity|].
    cbv zeta. split; [exact Hvs|]. split; [exact Hs|].
    rewrite List.filter_app, He. reflexivity.
  - destruct Hi as (Hv & _). rewrite Hv. discriminate.
Qed.

(** When the three steps and FAISS deliver, [process_video] returns [True]. *)
Lemma process_video_succeeds f w t vs :
  saved E f = true ->
  audio_extracted E f w = true ->
  transcription E (wav_path E f) = Some t ->
  FAISS_from_texts E
    (map clean_text (get_text_chunks E (content (session w) ++ (t ++ newline))))
    false = Ok vs ->
  value (process_video E (Some f) w) = Ok true.
Proof.
  intros Hs Ha Ht Hvs. rewrite process_video_run, Hs, Ha, Ht.
  pose proof (process_video_index_run (upload_path E f) (wav_path E f) t
                                      (after_extraction E f w)) as Hi.
  cbv zeta in Hi.
  replace (session (after_extraction E f w)) with (session w) in Hi
    by (unfold after_extraction; destruct (ffmpeg_run E _ _) as [[|]|]; reflexivity).
  rewrite Hvs in Hi. destruct Hi as (Hv & _).
  unfold guarded. cbn [value]. rewrite Hv. reflexivity.
Qed.

(** When the upload, Whisper and FAISS deliver, [process_audio] returns [True]. *)
Lemma process_audio_succeeds f w t vs :
  saved E f = true ->
  transcription E (upload_path E f) = Some t ->
  FAISS_from_texts E (split_text E audio_splitter_config t) true = Ok vs ->
  value (process_audio E (Some f) w) = Ok true.
Proof.
  intros Hs Ht Hvs. rewrite process_audio_run, Hs, Ht.
  pose proof (process_audio_index_run (upload_path E f) t (after_upload E f w)) as Hi.
  cbv zeta in Hi. rewrite Hvs in Hi. destruct Hi as (Hv & _).
  unfold guarded. cbn [value]. rewrite Hv. reflexivity.
Qed.

(** A run of [process_video] in which one of the three steps failed. *)
Lemma process_video_step_fails f w :
  saved E f = false \/ audio_extracted E f w = false \/
  transcription E (wav_path E f) = None ->
  value (process_video E (Some f) w) = Ok false /\
  session (final (process_video E (Some f) w)) = session w /\
  List.filter builds_index (events (process_video E (Some f) w)) = [].
Proof.
  assert (Hs : session (after_extraction E f w) = session w).
  { unfold after_extraction. destruct (ffmpeg_run E _ _) as [[|]|]; reflexivity. }
  rewrite process_video_run. intros H.
  destruct (saved E f); [|repeat split].
  destruct (audio_extracted E f w); [|repeat split; exact Hs].
  destruct (transcription E (wav_path E f)) as [t|]; [|repeat split; exact Hs].
  destruct H as [H|[H|H]]; discriminate.
Qed.

Lemma process_audio_returns up w : exists b, value (process_audio E up w) = Ok b.
Proof.
  destruct up as [f|]; [|exists false; reflexivity].
  rewrite process_audio_run. destruct (saved E f); [|eexists; reflexivity].
  destruct (transcription E (upload_path E f)); [|eexists; reflexivity].
  unfold guarded. cbn [value].
  destruct (value (process_audio_index E _ _ _)); eexists; reflexivity.
Qed.

Lemma process_video_returns up w : exists b, value (process_video E up w) = Ok b.
Proof.
  destruct up as [f|]; [|exists false; reflexivity].
  rewrite process_video_run. destruct (saved E f); [|eexists; reflexivity].
  destruct (audio_extracted E f w); [|eexists; reflexivity].
  destruct (transcription E (wav_path E f)); [|eexists; reflexivity].
  unfold guarded. cbn [value].
  destruct (value (process_video_index E _ _ _ _)); eexists; reflexivity.
Qed.

Lemma sidebar_audio up a w b :
  uploaded_audio_in up = Some a ->
  audio_processed (session w) = false ->
  value (process_audio E (Some a) w) = Ok b ->
  let p := process_audio E (Some a) w in
  let o := sidebar E Audio up w in
  value o = Ok tt /\
  session (final o) = (if b then mark_audio (session (final p)) else session (final p)) /\
  events o = events p.
Proof.
  intros Hup Hap Hv. cbv zeta. unfold sidebar, upload_branch.
  rewrite Hup. unfold set_audio_processed. run. rewrite Hap. run.
  destruct (process_audio E (Some a) w) as [v wf evs].
  cbn in Hv. subst v. run. destruct b; run; rewrite ?app_nil_r; repeat split.
Qed.

Lemma video_ready_frame (w : World VS Img) :
  content (session (video_ready w)) = content (session w) /\
  vector_store (session (video_ready w)) = vector_store (session w) /\
  documents_processed (session (video_ready w)) = documents_processed (session w) /\
  fs (video_ready w) = fs w.
Proof. unfold video_ready. destruct (video_processed (session w)); repeat split. Qed.

Lemma sidebar_video up v w b :
  uploaded_video_in up = Some v ->
  default false (video_processed (session w)) = false ->
  value (process_video E (Some v) (video_ready w)) = Ok b ->
  let p := process_video E (Some v) (video_ready w) in
  let o := sidebar E Video up w in
  value o = Ok tt /\
  session (final o) = (if b then mark_video true (session (final p))
                       else session (final p)) /\
  events o = events p.
Proof.
  intros Hup Hvp. cbv zeta. unfold sidebar, upload_branch, video_ready.
  rewrite Hup. unfold set_video_processed. run.
  destruct (video_processed (session w)) as [[|]|] eqn:Hvw; try discriminate;
    run; try rewrite Hvw; cbn [default from_option id negb]; intros Hv;
    destruct (process_video E (Some v) _) as [r wf evs];
    cbn in Hv; subst r; run; destruct b; run; rewrite ?app_nil_r; repeat split.
Qed.

Lemma sidebar_image up w :
  let o := sidebar E Image up w in
  content (session (final o)) = content (session w) /\
  vector_store (session (final o)) = vector_store (session w) /\
  documents_processed (session (final o)) = documents_processed (session w) /\
  fs (final o) = fs w /\
  List.filter builds_index (events o) = [] /\
  match uploaded_file_in up with
  | Some f =>
      match Image_open E f with
      | Ok image => uploaded_image (session (final o)) = Some image
      | Raise => final o = w
      end
  | None => final o = w
  end.
Proof.
  cbv zeta. unfold sidebar, upload_branch, set_uploaded_image. run.
  destruct (uploaded_file_in up) as [f|]; run; [|repeat split].
  destruct (Image_open E f); run; repeat split.
Qed.

(** C8. [process_video] returns [True] only when saving the upload, the
    audio extraction and the transcription all succeeded.  When there is no
    upload, or one of the three steps fails, it returns [False], the
    session is exactly as before, and no index was deleted, built or saved.
    It never raises. *)
Theorem process_video_all_or_nothing
        (uploaded_video : option UploadedFile) (w : World VS Img) :
  let o := process_video E uploaded_video w in
  (value o = Ok true ->
   exists f t, uploaded_video = Some f /\ saved E f = true /\
               audio_extracted E f w = true /\
               whisper_transcribe E (wav_path E f) = Ok t /\ t <> []) /\
  (uploaded_video = None \/
   (exists f, uploaded_video = Some f /\
              (saved E f = false \/ audio_extracted E f w = false \/
               transcription E (wav_path E f) = None)) ->
   value o = Ok false /\
   content (session (final o)) = content (session w) /\
   vector_store (session (final o)) = vector_store (session w) /\
   documents_processed (session (final o)) = documents_processed (session w) /\
   session (final o) = session w /\
   List.filter builds_index (events o) = []) /\
  (exists b, value o = Ok b).
Proof.
  cbv zeta. split; [|split].
  - destruct uploaded_video as [f|]; [|discriminate].
    intros H. apply process_video_true in H as (t & vs & Hs & Ha & Ht & _).
    apply transcription_some in Ht as [Ht Htr].
    exists f, t. repeat split; try assumption.
    intros ->. discriminate.
  - intros [->|(f & -> & H)].
    + repeat split.
    + destruct (process_video_step_fails f w H) as (Hv & Hs & He).
      rewrite Hs. repeat split; assumption.
  - apply process_video_returns.
Qed.

(** C9. A successful [process_audio] leaves the new transcription alone as
    content and rebuilds the index from the chunks of that transcription; a
    successful [process_video] appends the transcription and a newline to
    the content there was and rebuilds the index from the cleaned chunks of
    the whole content.  Both succeed whenever their steps and FAISS do. *)
Theorem audio_replaces_video_appends
        (uploaded_audio uploaded_video : option UploadedFile) (w : World VS Img) :
  (value (process_audio E uploaded_audio w) = Ok true ->
   let o := process_audio E uploaded_audio w in
   exists f t vs,
     uploaded_audio = Some f /\
     whisper_transcribe E (upload_path E f) = Ok t /\
     content (session (final o)) = t /\
     FAISS_from_texts E (split_text E audio_splitter_config t) true = Ok vs /\
     vector_store (session (final o)) = Some vs /\
     List.filter is_from_texts (events o) =
     [EvFromTexts (split_text E audio_splitter_config t) true]) /\
  (value (process_video E uploaded_video w) = Ok true ->
   let o := process_video E uploaded_video w in
   exists f t vs,
     uploaded_video = Some f /\
     whisper_transcribe E (wav_path E f) = Ok t /\
     content (session (final o)) = content (session w) ++ t ++ py (String "010" "") /\
     FAISS_from_texts E
       (map clean_text (get_text_chunks E (content (session (final o))))) false
     = Ok vs /\
     vector_store (session (final o)) = Some vs /\
     List.filter is_from_texts (events o) =
     [EvFromTexts (map clean_text (get_text_chunks E (content (session (final o)))))
                  false]) /\
  (forall f t vs,
     uploaded_audio = Some f ->
     saved E f = true ->
     transcription E (upload_path E f) = Some t ->
     FAISS_from_texts E (split_text E audio_splitter_config t) true = Ok vs ->
     value (process_audio E uploaded_audio w) = Ok true) /\
  (forall f t vs,
     uploaded_video = Some f ->
     saved E f = true ->
     audio_extracted E f w = true ->
     transcription E (wav_path E f) = Some t ->
     FAISS_from_texts E
       (map clean_text
            (get_text_chunks E (content (session w) ++ t ++ py (String "010" ""))))
       false = Ok vs ->
     value (process_video E uploaded_video w) = Ok true).
Proof.
  split; [|split; [|split]].
  3:{ intros f t vs -> Hs Ht Hvs. eapply process_audio_succeeds; eassumption. }
  3:{ intros f t vs -> Hs Ha Ht Hvs. eapply process_video_succeeds; eassumption. }
  - destruct uploaded_audio as [f|]; [|discriminate].
    intros H. cbv zeta.
    destruct (process_audio_true f w H) as (t & vs & _ & Ht & Hvs & Hs & He).
    apply transcription_some in Ht as [Ht _].
    exists f, t, vs. rewrite Hs. cbn [content vector_store documents_session].
    repeat split; try assumption.
    rewrite (filter_from_texts_build (events _)), He.
    rewrite List.filter_app, deletion_events_no_index. reflexivity.
  - destruct uploaded_video as [f|]; [|discriminate].
    intros H. cbv zeta.
    destruct (process_video_true f w H) as (t & vs & _ & _ & Ht & Hvs & Hs & He).
    apply transcription_some in Ht as [Ht _].
    exists f, t, vs. rewrite Hs. cbn [content vector_store documents_session].
    repeat split; try assumption.
    rewrite (filter_from_texts_build (events _)), He.
    rewrite List.filter_app, deletion_events_no_index. reflexivity.
Qed.

Lemma image_upload_not_indexed up w : ~ indexes_upload E Image up w.
Proof.
  intros (texts & n & Hin).
  destruct (sidebar_image up w) as (_ & _ & _ & _ & He & _).
  assert (H : In (EvFromTexts texts n)
                 (List.filter builds_index (events (sidebar E Image up w)))).
  { apply filter_In. split; [exact Hin|reflexivity]. }
  rewrite He in H. exact H.
Qed.

(** C4, as the script has it.  PDF, PPT and Excel uploads put the extracted
    text in the session content and index it; a successful audio upload
    makes its transcription the content and indexes it; a successful video
    upload appends its transcription to the content and indexes the whole.
    An image upload is only opened and kept in [uploaded_image]: the
    content, the vector store and the disk stay as they were, and no index
    is deleted, built or saved. *)
Theorem upload_paths_by_kind (file_type : FileType) (up : Uploads) (w : World VS Img) :
  let o := sidebar E file_type up w in
  match file_type with
  | PDF | PPT | Excel =>
      forall texts vs,
        uploaded_files_in up <> [] ->
        documents_processed (session w) = false ->
        Forall2 (fun f t => extracted_text E file_type f = Ok t)
                (uploaded_files_in up) texts ->
        FAISS_from_texts E (map clean_text (get_text_chunks E (combined texts))) false
        = Ok vs ->
        value o = Ok tt /\
        content (session (final o)) = combined texts /\
        vector_store (session (final o)) = Some vs
  | Audio =>
      forall a,
        uploaded_audio_in up = Some a ->
        audio_processed (session w) = false ->
        value (process_audio E (Some a) w) = Ok true ->
        exists t vs,
          whisper_transcribe E (upload_path E a) = Ok t /\
          content (session (final o)) = t /\
          FAISS_from_texts E (split_text E audio_splitter_config t) true = Ok vs /\
          vector_store (session (final o)) = Some vs
  | Video =>
      forall v,
        uploaded_video_in up = Some v ->
        default false (video_processed (session w)) = false ->
        value (process_video E (Some v) (video_ready w)) = Ok true ->
        exists t vs,
          whisper_transcribe E (wav_path E v) = Ok t /\
          content (session (final o)) = content (session w) ++ t ++ newline /\
          FAISS_from_texts E
            (map clean_text (get_text_chunks E (content (session (final o))))) false
          = Ok vs /\
          vector_store (session (final o)) = Some vs
  | Image =>
      content (session (final o)) = content (session w) /\
      vector_store (session (final o)) = vector_store (session w) /\
      fs (final o) = fs w /\
      List.filter builds_index (events o) = [] /\
      ~ indexes_upload E Image up w /\
      forall f image,
        uploaded_file_in up = Some f -> Image_open E f = Ok image ->
        uploaded_image (session (final o)) = Some image
  end.
Proof.
  assert (Hdoc : is_document_type file_type = true ->
            forall texts vs,
              uploaded_files_in up <> [] ->
              documents_processed (session w) = false ->
              Forall2 (fun f t => extracted_text E file_type f = Ok t)
                      (uploaded_files_in up) texts ->
              FAISS_from_texts E
                (map clean_text (get_text_chunks E (combined texts))) false = Ok vs ->
              value (sidebar E file_type up w) = Ok tt /\
              content (session (final (sidebar E file_type up w))) = combined texts /\
              vector_store (session (final (sidebar E file_type up w))) = Some vs).
  { intros Hty texts vs Hne Hdp Hall Hvs.
    rewrite (sidebar_documents E file_type up w Hty Hne).
    rewrite (process_uploaded_files_ok E file_type (uploaded_files_in up) texts vs w
               Hty Hdp Hall Hvs).
    repeat split. }
  cbv zeta. destruct file_type.
  - apply Hdoc. reflexivity.
  - apply Hdoc. reflexivity.
  - apply Hdoc. reflexivity.
  - destruct (sidebar_image up w) as (Hc & Hvs & _ & Hfs & He & Himg).
    split; [exact Hc|]. split; [exact Hvs|]. split; [exact Hfs|].
    split; [exact He|]. split; [apply image_upload_not_indexed|].
    intros f image Hf Ho. rewrite Hf, Ho in Himg. exact Himg.
  - intros a Hup Hap Hv.
    destruct (sidebar_audio up a w true Hup Hap Hv) as (_ & Hs & _).
    destruct (process_audio_true a w Hv) as (t & vs & _ & Ht & Hvs & Hp & _).
    apply transcription_some in Ht as [Ht _].
    exists t, vs. rewrite Hs, Hp. repeat split; assumption.
  - intros v Hup Hvp Hv.
    destruct (sidebar_video up v w true Hup Hvp Hv) as (_ & Hs & _).
    destruct (process_video_true v (video_ready w) Hv)
      as (t & vs & _ & _ & Ht & Hvs & Hp & _).
    apply transcription_some in Ht as [Ht _].
    destruct (video_ready_frame w) as (Hc & _).
    exists t, vs. rewrite Hs, Hp. cbn [content vector_store mark_video documents_session].
    rewrite Hc in *. repeat split; assumption.
Qed.

End Media.

(** C4 as stated fails at the Image kind: no image upload builds an index. *)
Lemma image_kind_counterexample :
  ~ (forall file_type : FileType,
        exists up w, indexes_upload Demo.ext file_type up w).
Proof.
  intros H. destruct (H Image) as (up & w & Hidx).
  exact (image_upload_not_indexed Demo.ext up w Hidx).
Qed.

(** An audio upload to a session that has a document indexed. *)
Lemma upload_paths_by_kind_witness :
  content (session (final (sidebar Demo.ext Audio Demo.one_audio Demo.indexed)))
  = py "spoken words".
Proof.
  destruct (upload_paths_by_kind Demo.ext Audio Demo.one_audio Demo.indexed
              (Demo.file "talk.wav" "")) as (t & vs & Ht & Hc & _).
  - reflexivity.
  - reflexivity.
  - vm_compute. reflexivity.
  - rewrite Hc. injection Ht as <-. reflexivity.
Defined.

(** With every service down nothing is saved, and the session is untouched. *)
Lemma process_video_all_or_nothing_witness :
  saved Demo.offline (Demo.file "clip.mp4" "") = false /\
  value (process_video Demo.offline (Some (Demo.file "clip.mp4" "")) Demo.indexed)
  = Ok false /\
  session (final (process_video Demo.offline (Some (Demo.file "clip.mp4" ""))
                                Demo.indexed))
  = session Demo.indexed.
Proof.
  destruct (process_video_all_or_nothing Demo.offline
              (Some (Demo.file "clip.mp4" "")) Demo.indexed) as (_ & H & _).
  destruct H as (Hv & _ & _ & _ & Hs & _).
  - right. exists (Demo.file "clip.mp4" ""). split; [reflexivity|].
    left. reflexivity.
  - split; [reflexivity|]. split; [exact Hv|exact Hs].
Defined.

(** Audio and video uploaded to the same indexed session. *)
Lemma audio_replaces_video_appends_witness :
  content (session (final (process_audio Demo.ext (Some (Demo.file "talk.wav" ""))
                                         Demo.indexed)))
  = py "spoken words" /\
  content (session (final (process_video Demo.ext (Some (Demo.file "clip.mp4" ""))
                                         Demo.indexed)))
  = py "first document" ++ [0x0A] ++ py "spoken words" ++ [0x0A].
Proof.
  destruct (audio_replaces_video_appends Demo.ext
              (Some (Demo.file "talk.wav" "")) (Some (Demo.file "clip.mp4" ""))
              Demo.indexed) as (Ha & Hv & _).
  split.
  - destruct Ha as (f & t & vs & Hf & Ht & Hc & _); [vm_compute; reflexivity|].
    rewrite Hc. injection Hf as <-. injection Ht as <-. reflexivity.
  - destruct Hv as (f & t & vs & Hf & Ht & Hc & _); [vm_compute; reflexivity|].
    rewrite Hc. injection Hf as <-. injection Ht as <-. reflexivity.
Defined.

(** ** Chunks: what is embedded, and how late chunks overlap *)

Section Chunks.
Context {VS Doc Img : Type}.
Variable E : Externals VS Doc Img.

(** C10. [clean_text] normalizes and is idempotent: its result has no
    character above U+FFFF and no leading or trailing whitespace, cleaning
    it again changes nothing, and the empty string and [None] give the
    empty string.  [get_vector_store] embeds the cleaned chunks, so every
    chunk it embeds has these properties. *)
Theorem clean_text_normalizes
        (s : pystr) (chunks : list pystr) (path : string) (w : World VS Img) :
  wf_str s ->
  Forall wf_str chunks ->
  Forall (fun c => c <= 0xFFFF) (clean_text s) /\
  starts_with_space (clean_text s) = false /\
  ends_with_space (clean_text s) = false /\
  clean_text (clean_text s) = clean_text s /\
  clean_text [] = [] /\
  clean_text_value None = [] /\
  (exists rest,
      events (get_vector_store E chunks path w)
      = EvFromTexts (map clean_text chunks) false :: rest) /\
  Forall embeds_cleaned (events (get_vector_store E chunks path w)).
Proof.
  intros Hs Hchunks.
  destruct (clean_text_cleaned s Hs) as (Hb & [Hl Hr] & Hi).
  split; [exact Hb|]. split; [exact Hl|]. split; [exact Hr|].
  split; [apply clean_text_idempotent|]. split; [reflexivity|].
  split; [reflexivity|].
  assert (Hall : Forall cleaned (map clean_text chunks)).
  { apply Forall_map. eapply Forall_impl; [exact Hchunks|].
    intros c Hc. apply clean_text_cleaned, Hc. }
  rewrite get_vector_store_run.
  destruct (FAISS_from_texts E (map clean_text chunks) false); cbn [events].
  - split; [eexists; reflexivity|].
    constructor; [exact Hall|]. constructor; [exact I|constructor].
  - split; [eexists; reflexivity|].
    constructor; [exact Hall|constructor].
Qed.




End Chunks.

(** A string with an emoji, a lone surrogate and blanks around it. *)
Lemma clean_text_normalizes_witness :
  wf_str [0x20; 0x1F600; 0x41; 0xD800; 0x42; 0x0A] /\
  clean_text [0x20; 0x1F600; 0x41; 0xD800; 0x42; 0x0A] = [0x41; 0x3F; 0x42] /\
  clean_text (clean_text [0x20; 0x1F600; 0x41; 0xD800; 0x42; 0x0A])
  = clean_text [0x20; 0x1F600; 0x41; 0xD800; 0x42; 0x0A].
Proof.
  assert (Hwf : wf_str [0x20; 0x1F600; 0x41; 0xD800; 0x42; 0x0A]).
  { unfold wf_str, max_codepoint. repeat constructor; lia. }
  destruct (clean_text_normalizes Demo.ext
              [0x20; 0x1F600; 0x41; 0xD800; 0x42; 0x0A]
              [[0x20; 0x1F600; 0x41; 0xD800; 0x42; 0x0A]]
              INDEX_FOLDER Demo.fresh Hwf) as (_ & _ & _ & Hi & _).
  - constructor; [exact Hwf|constructor].
  - split; [exact Hwf|]. split; [reflexivity|exact Hi].
Defined.




Set Warnings "-clear-no-such-hyp".

(** ** Splitting and joining *)

Section SplitJoin.

Lemma join_cons (sep x : pystr) (rest : list pystr) :
  rest <> [] -> join sep (x :: rest) = x ++ sep ++ join sep rest.
Proof. destruct rest; [contradiction|reflexivity]. Qed.

Lemma split_on_from_nonempty sep cur s : split_on_from sep cur s <> [].
Proof.
  revert cur. induction s as [|c s IH]; intros cur; simpl; [discriminate|].
  destruct (c =? sep); [discriminate|apply IH].
Qed.

Lemma join_split_on_from sep cur s :
  join [sep] (split_on_from sep cur s) = rev cur ++ s.
Proof.
  revert cur. induction s as [|c s IH]; intros cur.
  - simpl. rewrite app_nil_r. reflexivity.
  - cbn [split_on_from]. destruct (N.eqb_spec c sep) as [->|Hne].
    + rewrite join_cons by apply split_on_from_nonempty.
      rewrite IH. reflexivity.
    + rewrite IH. simpl. rewrite <- app_assoc. reflexivity.
Qed.

Lemma split_on_from_fields sep cur s :
  Forall (fun c => c <> sep) cur ->
  Forall (Forall (fun c => c <> sep)) (split_on_from sep cur s).
Proof.
  revert cur. induction s as [|c s IH]; intros cur Hcur.
  - simpl. constructor; [|constructor]. apply Forall_rev, Hcur.
  - cbn [split_on_from]. destruct (N.eqb_spec c sep) as [->|Hne].
    + constructor; [apply Forall_rev, Hcur|]. apply IH. constructor.
    + apply IH. constructor; assumption.
Qed.

(** X1. [sep.join(s.split(sep))] gives [s] back, [split] never returns an
    empty list, and no field contains the separator. *)
Theorem split_on_join_round_trip (sep : codepoint) (s : pystr) :
  join [sep] (split_on sep s) = s /\
  split_on sep s <> [] /\
  Forall (Forall (fun c => c <> sep)) (split_on sep s).
Proof.
  unfold split_on. split; [|split].
  - apply (join_split_on_from sep [] s).
  - apply split_on_from_nonempty.
  - apply split_on_from_fields. constructor.
Qed.

End SplitJoin.

(** ** The related terms *)

Section RelatedTerms.

Lemma split_on_from_app sep cur x s :
  Forall (fun c => c <> sep) x ->
  split_on_from sep cur (x ++ s) = split_on_from sep (rev x ++ cur) s.
Proof.
  intros Hx. revert cur. induction Hx as [|c x Hc _ IH]; intros cur; [reflexivity|].
  cbn [app split_on_from]. destruct (N.eqb_spec c sep) as [->|_]; [contradiction|].
  rewrite IH. simpl. rewrite <- app_assoc. reflexivity.
Qed.

Lemma split_on_from_field sep cur x :
  Forall (fun c => c <> sep) x ->
  split_on_from sep cur x = [rev cur ++ x].
Proof.
  intros Hx. rewrite <- (app_nil_r x) at 1. rewrite split_on_from_app by exact Hx.
  simpl. rewrite rev_app_distr, rev_involutive. reflexivity.
Qed.

Lemma split_on_from_sep sep cur s :
  split_on_from sep cur (sep :: s) = rev cur :: split_on_from sep [] s.
Proof. cbn [split_on_from]. rewrite N.eqb_refl. reflexivity. Qed.

Lemma split_on_from_other sep cur c s :
  c <> sep -> split_on_from sep cur (c :: s) = split_on_from sep (c :: cur) s.
Proof.
  intros H. cbn [split_on_from]. destruct (N.eqb_spec c sep); [contradiction|reflexivity].
Qed.

(** Splitting what [", ".join] built from comma-free terms. *)
Lemma split_on_from_joined cur t rest :
  Forall (fun c => c <> comma) t ->
  Forall (Forall (fun c => c <> comma)) rest ->
  split_on_from comma cur (join [comma; 0x20] (t :: rest)) =
  (rev cur ++ t) :: map (cons 0x20) rest.
Proof.
  intros Ht Hrest. revert cur t Ht.
  induction Hrest as [|t' rest Ht' _ IH]; intros cur t Ht.
  - simpl. apply split_on_from_field, Ht.
  - rewrite join_cons by discriminate.
    rewrite split_on_from_app by exact Ht.
    change ([comma; 0x20] ++ join [comma; 0x20] (t' :: rest))
      with (comma :: 0x20 :: join [comma; 0x20] (t' :: rest)).
    rewrite split_on_from_sep, split_on_from_other by discriminate.
    rewrite rev_app_distr, rev_involutive. f_equal.
    exact (IH [0x20] t' Ht').
Qed.

Lemma starts_with_space_app x y :
  x <> [] -> starts_with_space (x ++ y) = starts_with_space x.
Proof. destruct x; [contradiction|reflexivity]. Qed.

Lemma ends_with_space_app x y :
  y <> [] -> ends_with_space (x ++ y) = ends_with_space y.
Proof.
  intros Hy. unfold ends_with_space. rewrite rev_app_distr.
  apply starts_with_space_app. intros H. apply Hy.
  apply (f_equal (@rev codepoint)) in H. rewrite rev_involutive in H. exact H.
Qed.

Lemma join_terms_nonempty t rest : is_term t -> join [comma; 0x20] (t :: rest) <> [].
Proof.
  intros (Hne & _). destruct rest; simpl; [exact Hne|].
  destruct t; [contradiction|discriminate].
Qed.

Lemma join_terms_trimmed ts :
  Forall is_term ts -> trimmed (join [comma; 0x20] ts).
Proof.
  intros Hts. split.
  - destruct Hts as [|t rest Ht _]; [reflexivity|].
    destruct rest as [|t' rest].
    + simpl. apply Ht.
    + rewrite join_cons by discriminate.
      rewrite starts_with_space_app by apply Ht. apply Ht.
  - induction Hts as [|t rest Ht Hrest IH]; [reflexivity|].
    destruct Hrest as [|t' rest Ht' Hrest].
    + simpl. apply Ht.
    + rewrite join_cons by discriminate.
      rewrite ends_with_space_app.
      * rewrite ends_with_space_app by (apply join_terms_nonempty, Ht').
        exact IH.
      * discriminate.
Qed.

Lemma strip_space_cons t : trimmed t -> strip (0x20 :: t) = t.
Proof.
  intros Ht. unfold strip, lstrip. cbn [drop_while].
  change (is_space 0x20) with true. cbv iota.
  apply (strip_fixed t Ht).
Qed.

Lemma keep_spaced_terms rest :
  Forall is_term rest ->
  map strip (List.filter (fun term => truthy (strip term)) (map (cons 0x20) rest))
  = rest.
Proof.
  induction 1 as [|t rest (Hne & Htr & _) _ IH]; [reflexivity|].
  cbn [map List.filter]. rewrite (strip_space_cons t Htr).
  destruct t; [contradiction|]. cbn [truthy map]. rewrite (strip_space_cons _ Htr).
  rewrite IH. reflexivity.
Qed.

(** Terms that are already tidy come back as they are. *)
Lemma terms_of_joined ts :
  Forall is_term ts -> terms_of (join [comma; 0x20] ts) = ts.
Proof.
  intros Hts. unfold terms_of.
  rewrite (strip_fixed _ (join_terms_trimmed ts Hts)).
  destruct Hts as [|t rest Ht Hrest]; [reflexivity|].
  unfold split_on. rewrite split_on_from_joined.
  - cbn [rev app List.filter map]. destruct Ht as (Hne & Htr & _).
    rewrite (strip_fixed t Htr). destruct t; [contradiction|].
    cbn [truthy map]. rewrite (strip_fixed _ Htr).
    rewrite (keep_spaced_terms rest Hrest). reflexivity.
  - apply Ht.
  - eapply Forall_impl; [exact Hrest|]. intros x Hx. apply Hx.
Qed.

Lemma terms_of_are_terms text : Forall is_term (terms_of text).
Proof.
  unfold terms_of, split_on.
  pose proof (split_on_from_fields comma [] (strip text) (List.Forall_nil _)) as Hf.
  induction Hf as [|x fields Hx _ IH]; [constructor|].
  cbn [List.filter]. destruct (truthy (strip x)) eqn:Htr; [|exact IH].
  cbn [map]. constructor; [|exact IH].
  split; [|split].
  - intros H. rewrite H in Htr. discriminate.
  - apply strip_trimmed.
  - apply strip_Forall, Hx.
Qed.

(** X2. What [fetch_related_terms] makes of Cohere's answer: terms that are
    not empty, have nothing left to strip and hold no comma, joined by a
    comma and a space; doing it again changes nothing. *)
Theorem tidy_terms_normal_form (text : pystr) :
  tidy_terms text = join (py ", ") (terms_of text) /\
  Forall is_term (terms_of text) /\
  terms_of (tidy_terms text) = terms_of text /\
  tidy_terms (tidy_terms text) = tidy_terms text.
Proof.
  assert (Hn : terms_of (tidy_terms text) = terms_of text).
  { apply (terms_of_joined (terms_of text)), terms_of_are_terms. }
  split; [reflexivity|]. split; [apply terms_of_are_terms|].
  split; [exact Hn|].
  change (tidy_terms (tidy_terms text))
    with (join (py ", ") (terms_of (tidy_terms text))).
  rewrite Hn. reflexivity.
Qed.

End RelatedTerms.

(** ** Words *)

Section Words.

Lemma split_ws_from_concat cur s :
  concat (split_ws_from cur s) = rev cur ++ List.filter not_space s.
Proof.
  revert cur. induction s as [|c s IH]; intros cur.
  - destruct cur; simpl; [reflexivity|]. rewrite !app_nil_r. reflexivity.
  - cbn [split_ws_from List.filter]. unfold not_space at 1.
    destruct (is_space c); cbn [negb].
    + destruct cur as [|d cur]; [apply IH|].
      cbn [concat]. rewrite IH. reflexivity.
    + rewrite IH. simpl. rewrite <- app_assoc. reflexivity.
Qed.

Lemma split_ws_from_words cur s :
  forallb not_space cur = true -> Forall is_word (split_ws_from cur s).
Proof.
  assert (Hrev : forall l, l <> [] -> forallb not_space l = true -> is_word (rev l)).
  { intros l Hne Hl. split.
    - intros H. apply Hne. apply (f_equal (@rev codepoint)) in H.
      rewrite rev_involutive in H. exact H.
    - apply forallb_forall. intros x Hx. apply in_rev in Hx.
      rewrite forallb_forall in Hl. apply Hl, Hx. }
  revert cur. induction s as [|c s IH]; intros cur Hcur.
  - destruct cur as [|d cur]; cbn [split_ws_from]; [constructor|].
    constructor; [|constructor]. apply Hrev; [discriminate|exact Hcur].
  - cbn [split_ws_from]. destruct (is_space c) eqn:Hc.
    + destruct cur as [|d cur]; [apply IH; reflexivity|].
      constructor; [apply Hrev; [discriminate|exact Hcur]|].
      apply IH. reflexivity.
    + apply IH. cbn [forallb]. unfold not_space at 1. rewrite Hc, Hcur. reflexivity.
Qed.

(** X3. The words [s.split()] returns are not empty and hold no whitespace;
    put together they are [s] without its whitespace, so nothing but
    whitespace is lost, and there is no word exactly when [s] is empty or
    all whitespace. *)
Theorem split_ws_words (s : pystr) :
  Forall is_word (split_ws s) /\
  concat (split_ws s) = List.filter not_space s /\
  (split_ws s = [] <-> forallb is_space s = true).
Proof.
  assert (Hc : concat (split_ws s) = List.filter not_space s)
    by apply (split_ws_from_concat [] s).
  assert (Hw : Forall is_word (split_ws s))
    by (apply split_ws_from_words; reflexivity).
  split; [exact Hw|]. split; [exact Hc|]. split.
  - intros H. rewrite H in Hc. cbn in Hc.
    apply forallb_forall. intros x Hx.
    destruct (is_space x) eqn:Hsp; [reflexivity|].
    assert (Hin : In x (List.filter not_space s)).
    { apply filter_In. split; [exact Hx|]. unfold not_space. rewrite Hsp. reflexivity. }
    rewrite <- Hc in Hin. destruct Hin.
  - intros Hall. destruct (split_ws s) as [|w ws]; [reflexivity|].
    exfalso. inversion Hw as [|? ? [Hne Hns] _]; subst.
    destruct w as [|c w]; [contradiction|].
    assert (Hin : In c (List.filter not_space s)).
    { rewrite <- Hc. cbn. left. reflexivity. }
    apply filter_In in Hin as [Hin Hc'].
    rewrite forallb_forall in Hall. specialize (Hall c Hin).
    unfold not_space in Hc'. rewrite Hall in Hc'. discriminate.
Qed.

End Words.

(** ** The fixed points of [clean_text] *)

Section CleanTextMore.

Lemma drop_while_nil p s : drop_while p s = [] <-> forallb p s = true.
Proof.
  induction s as [|c s IH]; simpl; [tauto|].
  destruct (p c); simpl; [exact IH|]. split; discriminate.
Qed.

Lemma forallb_rev (p : codepoint -> bool) s : forallb p (rev s) = forallb p s.
Proof.
  induction s as [|c s IH]; [reflexivity|].
  simpl. rewrite forallb_app, IH. simpl. rewrite andb_true_r. apply andb_comm.
Qed.

Lemma strip_nil s : strip s = [] <-> forallb is_space s = true.
Proof.
  unfold strip, rstrip. split.
  - intros H. apply (f_equal (@rev codepoint)) in H. rewrite rev_involutive in H.
    cbn in H. apply drop_while_nil in H. rewrite forallb_rev in H.
    destruct (lstrip s) as [|c r] eqn:Hl.
    + apply drop_while_nil. exact Hl.
    + apply drop_while_head in Hl. cbn in H. rewrite Hl in H. discriminate.
  - intros H. apply drop_while_nil in H. unfold lstrip. rewrite H. reflexivity.
Qed.

Lemma drop_while_length p s : (length (drop_while p s) <= length s)%nat.
Proof.
  induction s as [|c s IH]; simpl; [lia|]. destruct (p c); simpl; lia.
Qed.

Lemma strip_length s : (length (strip s) <= length s)%nat.
Proof.
  unfold strip, rstrip, lstrip. rewrite length_rev.
  etransitivity; [apply drop_while_length|]. rewrite length_rev.
  apply drop_while_length.
Qed.

Lemma space_is_plain c : is_space c = true -> is_surrogate c = false /\ is_astral c = false.
Proof.
  unfold is_space, is_surrogate, is_astral. intros H.
  repeat (apply orb_true_iff in H as [H|H]);
    repeat (apply andb_true_iff in H as [? H]);
    repeat match goal with
           | H : (_ <=? _) = true |- _ => apply N.leb_le in H
           | H : (_ =? _) = true |- _ => apply N.eqb_eq in H
           end;
    split; apply andb_false_iff;
    first [left; apply N.leb_gt; lia | right; apply N.leb_gt; lia].
Qed.

(** X4. [clean_text] leaves a string as it is exactly when the string has
    no surrogate, no character beyond U+FFFF and no whitespace at either
    end; and it never makes a string longer. *)
Theorem clean_text_fixed_points (s : pystr) :
  (clean_text s = s <-> Forall plain s /\ trimmed s) /\
  (length (clean_text s) <= length s)%nat.
Proof.
  split.
  - split.
    + intros H. rewrite <- H. split; [apply clean_text_plain|apply clean_text_trimmed].
    + intros [Hp Ht]. apply clean_text_fixed; assumption.
  - unfold clean_text. destruct (negb (truthy s)); [simpl; lia|].
    etransitivity; [apply strip_length|].
    unfold remove_astral, encode_replace_decode.
    etransitivity; [apply filter_length_le|]. rewrite length_map. lia.
Qed.

(** X5. [clean_text] returns the empty string exactly for the strings made
    of whitespace and of characters beyond U+FFFF only, the empty string
    among them: such a chunk is embedded as an empty text. *)
Theorem clean_text_empty (s : pystr) :
  clean_text s = [] <-> forallb vanishes s = true.
Proof.
  unfold clean_text. destruct s as [|c0 s0]; [simpl; tauto|].
  cbn [truthy negb]. cbv iota. rewrite strip_nil.
  generalize (c0 :: s0). clear. intros s.
  induction s as [|c s IH]; [simpl; tauto|].
  cbn [encode_replace_decode map remove_astral List.filter forallb] in *.
  unfold vanishes at 1.
  destruct (is_surrogate c) eqn:Hs.
  - change (is_astral 0x3F) with false. cbn [negb forallb].
    change (is_space 0x3F) with false. cbn [andb].
    split; [discriminate|]. intros H. apply andb_true_iff in H as [H _].
    apply orb_true_iff in H as [H|H].
    + apply space_is_plain in H as [H _]. congruence.
    + unfold is_surrogate, is_astral in *.
      apply andb_true_iff in Hs as [_ Hs]. apply andb_true_iff in H as [H _].
      apply N.leb_le in Hs, H. lia.
  - destruct (is_astral c) eqn:Ha; cbn [negb forallb].
    + rewrite orb_true_r. cbn [andb]. exact IH.
    + rewrite orb_false_r. destruct (is_space c); cbn [andb]; [exact IH|].
      split; discriminate.
Qed.

End CleanTextMore.

(** ** Late chunking: what the chunks cover *)

Section LateCoverage.

Lemma late_loop_covers (text : pystr) (size overlap : Z) :
  (0 <= overlap < size)%Z ->
  forall fuel start chunks,
    (0 <= start)%Z ->
    late_loop fuel text size overlap start = Some chunks ->
    concat (map (firstn (Z.to_nat (size - overlap))) chunks)
    = skipn (Z.to_nat start) text /\
    Forall (is_chunk size) chunks.
Proof.
  intros Hov. induction fuel as [|fuel IH]; intros start chunks Hstart; simpl;
    [discriminate|].
  destruct (Z.ltb_spec start (Z.of_nat (length text))) as [Hlt|Hge].
  2:{ intros H. injection H as <-. split; [|constructor].
      simpl. symmetry. apply skipn_all2. lia. }
  destruct (late_loop fuel text size overlap _) as [rest|] eqn:Hrest; [|discriminate].
  intros H. injection H as <-.
  destruct (IH (start + (size - overlap))%Z rest) as [Hc Hf]; [lia|exact Hrest|].
  rewrite py_slice_inside by lia.
  replace (Z.to_nat (start + size - start)) with (Z.to_nat size) by lia.
  split.
  - cbn [map concat]. rewrite Hc, firstn_firstn.
    replace (Nat.min (Z.to_nat (size - overlap)) (Z.to_nat size))
      with (Z.to_nat (size - overlap)) by lia.
    replace (Z.to_nat (start + (size - overlap)))
      with (Z.to_nat (size - overlap) + Z.to_nat start)%nat by lia.
    rewrite <- skipn_skipn. apply firstn_skipn.
  - constructor; [|exact Hf]. split.
    + intros Hnil. apply (f_equal (@length codepoint)) in Hnil.
      rewrite length_firstn, length_skipn in Hnil. cbn in Hnil. lia.
    + rewrite length_firstn. lia.
Qed.

Lemma late_chunks_cover_text (text : pystr) (size overlap : Z) :
  (0 <= overlap < size)%Z ->
  exists chunks,
    late_chunks text size overlap = Some chunks /\
    concat (map (firstn (Z.to_nat (size - overlap))) chunks) = text /\
    Forall (is_chunk size) chunks.
Proof.
  intros Hov. unfold late_chunks.
  destruct (late_loop_ends text size overlap) with (fuel := length text) (start := 0%Z)
    as [chunks Hc]; [lia|lia|].
  exists chunks. split; [exact Hc|].
  destruct (late_loop_covers text size overlap Hov (S (length text)) 0%Z chunks) as [H1 H2]; [lia|exact Hc|].
  split; [exact H1|exact H2].
Qed.

(** X6. With [0 <= chunk_overlap < chunk_size], [get_late_chunked_text]
    returns, every chunk is non-empty and at most [chunk_size] long, and no
    character is lost: the first [chunk_size - chunk_overlap] characters of
    each chunk, put end to end, are the cleaned texts of the documents. *)
Theorem late_chunks_cover (docs : list LateDoc) (size overlap : Z) :
  (0 <= overlap < size)%Z ->
  exists chunks,
    get_late_chunked_text docs size overlap = Some chunks /\
    concat (map (firstn (Z.to_nat (size - overlap))) chunks)
    = concat (map late_doc_text docs) /\
    Forall (is_chunk size) chunks.
Proof.
  intros Hov. induction docs as [|doc docs (more & Hm & Hc & Hf)].
  - exists []. repeat split. constructor.
  - destruct (late_chunks_cover_text (late_doc_text doc) size overlap Hov)
      as (chunks & Hl & Hc' & Hf').
    exists (chunks ++ more). cbn [get_late_chunked_text]. rewrite Hl, Hm.
    split; [reflexivity|]. split.
    + rewrite List.map_app, List.concat_app. cbn [map concat]. f_equal; [exact Hc'|exact Hc].
    + apply Forall_app. split; assumption.
Qed.

(** X7. With [chunk_overlap >= chunk_size] the loop makes no progress:
    [get_late_chunked_text] returns, with no chunk, only when every
    document cleans to the empty string; as soon as one does not, the loop
    never ends, whatever the number of rounds it is given. *)
Theorem late_chunks_diverge (docs : list LateDoc) (size overlap : Z) :
  (size <= overlap)%Z ->
  (Forall (fun d => late_doc_text d = []) docs ->
   get_late_chunked_text docs size overlap = Some []) /\
  (Exists (fun d => late_doc_text d <> []) docs ->
   get_late_chunked_text docs size overlap = None) /\
  (forall text fuel, text <> [] -> late_loop fuel text size overlap 0 = None).
Proof.
  intros Hov.
  assert (Hloop : forall text fuel, text <> [] ->
                                    late_loop fuel text size overlap 0 = None).
  { intros text fuel Hne. apply late_loop_diverges; [exact Hov|].
    destruct text; [contradiction|]. cbn [length]. lia. }
  split; [|split; [|exact Hloop]].
  - induction 1 as [|d docs Hd _ IH]; [reflexivity|].
    cbn [get_late_chunked_text]. rewrite Hd, IH. reflexivity.
  - induction docs as [|d docs IH]; intros Hex; [inversion Hex|].
    cbn [get_late_chunked_text].
    destruct (late_doc_text d) as [|c t] eqn:Hd.
    + cbn. rewrite IH; [reflexivity|].
      inversion Hex as [? ? H|? ? H]; subst; [contradiction|exact H].
    + unfold late_chunks. rewrite Hloop by discriminate. reflexivity.
Qed.

End LateCoverage.

(** Overlapping windows of four over ten characters lose nothing. *)
Lemma late_chunks_cover_witness :
  (0 <= 2 < 4)%Z /\
  exists chunks,
    get_late_chunked_text [IsDocument (py "abcdefghij")] 4 2 = Some chunks /\
    concat (map (firstn 2) chunks) = py "abcdefghij".
Proof.
  assert (H : (0 <= 2 < 4)%Z) by lia. split; [exact H|].
  destruct (late_chunks_cover [IsDocument (py "abcdefghij")] 4 2 H)
    as (chunks & Hc & Hcat & _).
  exists chunks. split; [exact Hc|]. exact Hcat.
Defined.

(** The same text with an overlap as large as the chunk. *)
Lemma late_chunks_diverge_witness :
  (4 <= 4)%Z /\
  get_late_chunked_text [IsDocument (py "abcdefghij")] 4 4 = None.
Proof.
  assert (H : (4 <= 4)%Z) by lia. split; [exact H|].
  destruct (late_chunks_diverge [IsDocument (py "abcdefghij")] 4 4 H) as (_ & Hd & _).
  apply Hd. constructor. vm_compute. discriminate.
Defined.

(** ** Uploads: once per session, and when a step fails *)

Section Gating.
Context {VS Doc Img : Type}.
Variable E : Externals VS Doc Img.

Lemma process_uploaded_files_done file_type files w :
  documents_processed (session w) = true ->
  process_uploaded_files E file_type files w = skipped w.
Proof.
  intros Hdp. unfold process_uploaded_files.
  rewrite bind_get_session, Hdp. reflexivity.
Qed.

Lemma sidebar_documents_done file_type up w :
  is_document_type file_type = true ->
  documents_processed (session w) = true ->
  sidebar E file_type up w = skipped w.
Proof.
  intros Hty Hdp.
  destruct (uploaded_files_in up) as [|f files] eqn:Hf.
  - unfold sidebar, upload_branch. rewrite Hf.
    destruct file_type; try discriminate; reflexivity.
  - rewrite sidebar_documents by (assumption || (rewrite Hf; discriminate)).
    apply process_uploaded_files_done, Hdp.
Qed.

Lemma sidebar_audio_done up w :
  audio_processed (session w) = true -> sidebar E Audio up w = skipped w.
Proof.
  intros Hap. unfold sidebar, upload_branch. run. rewrite Hap.
  destruct (uploaded_audio_in up); reflexivity.
Qed.

Lemma sidebar_video_done up w :
  video_processed (session w) = Some true -> sidebar E Video up w = skipped w.
Proof.
  intros Hvp. unfold sidebar, upload_branch. run. rewrite Hvp. run.
  rewrite Hvp. cbn [default from_option id negb].
  destruct (uploaded_video_in up); reflexivity.
Qed.

(** X8. Every kind of upload is processed once per session: with
    [documents_processed] set a batch of documents is not even parsed, with
    [audio_processed] or [video_processed] set the recording is not looked
    at.  A processed recording sets [documents_processed] too, so documents
    uploaded after it are ignored as well. *)
Theorem uploads_processed_once
        (file_type : FileType) (up up' : Uploads) (w : World VS Img) :
  (is_document_type file_type = true ->
   documents_processed (session w) = true ->
   sidebar E file_type up w = skipped w) /\
  (audio_processed (session w) = true -> sidebar E Audio up w = skipped w) /\
  (video_processed (session w) = Some true -> sidebar E Video up w = skipped w) /\
  (forall a,
     is_document_type file_type = true ->
     uploaded_audio_in up = Some a ->
     audio_processed (session w) = false ->
     value (process_audio E (Some a) w) = Ok true ->
     let w' := final (sidebar E Audio up w) in
     sidebar E file_type up' w' = skipped w' /\ sidebar E Audio up' w' = skipped w') /\
  (forall v,
     is_document_type file_type = true ->
     uploaded_video_in up = Some v ->
     default false (video_processed (session w)) = false ->
     value (process_video E (Some v) (video_ready w)) = Ok true ->
     let w' := final (sidebar E Video up w) in
     sidebar E file_type up' w' = skipped w' /\ sidebar E Video up' w' = skipped w').
Proof.
  split; [apply sidebar_documents_done|].
  split; [apply sidebar_audio_done|].
  split; [apply sidebar_video_done|].
  split.
  - intros a Hty Hup Hap Hv. cbv zeta.
    destruct (sidebar_audio E up a w true Hup Hap Hv) as (_ & Hs & _).
    destruct (process_audio_true E a w Hv) as (t & vs & _ & _ & _ & Hf & _).
    rewrite Hf in Hs. split.
    + apply sidebar_documents_done; [exact Hty|]. rewrite Hs. reflexivity.
    + apply sidebar_audio_done. rewrite Hs. reflexivity.
  - intros v Hty Hup Hvp Hv. cbv zeta.
    destruct (sidebar_video E up v w true Hup Hvp Hv) as (_ & Hs & _).
    destruct (process_video_true E v _ Hv) as (t & vs & _ & _ & _ & _ & Hf & _).
    rewrite Hf in Hs. split.
    + apply sidebar_documents_done; [exact Hty|]. rewrite Hs. reflexivity.
    + apply sidebar_video_done. rewrite Hs. reflexivity.
Qed.

End Gating.

Section FailedUploads.
Context {VS Doc Img : Type}.
Variable E : Externals VS Doc Img.

Lemma combine_files_raise file_type before f after texts acc w :
  is_document_type file_type = true ->
  Forall2 (fun f t => extracted_text E file_type f = Ok t) before texts ->
  extracted_text E file_type f = Raise ->
  combine_files E file_type (before ++ f :: after) acc w =
  {| value := Raise; final := w;
     events := map (extract_event file_type) (before ++ [f]) |}.
Proof.
  intros Hty Hall Hf. revert acc.
  induction Hall as [|g t before texts Ht _ IH]; intros acc.
  - cbn [app combine_files]. unfold bind. cbv zeta.
    rewrite (extract_file_run E file_type f w Hty), Hf. reflexivity.
  - cbn [app combine_files]. unfold bind. cbv zeta.
    rewrite (extract_file_run E file_type g w Hty), Ht. cbn [value final events].
    rewrite IH. reflexivity.
Qed.

Lemma excel_texts files :
  Forall2 (fun f t => extracted_text E Excel f = Ok t) files (map (excel_text E) files).
Proof.
  induction files as [|f files IH]; constructor; [|exact IH].
  unfold extracted_text, excel_text. destruct (read_excel_to_csv E f); reflexivity.
Qed.

(** X9. A PDF or PowerPoint file that cannot be parsed ends the run of the
    script with its exception, after the files before it were parsed and
    after the index folder was deleted: the session is as it was (a store
    it held stays in memory), the index on disk is gone and nothing was
    embedded. *)
Theorem failed_parse_drops_old_index
        (file_type : FileType) (up : Uploads) (w : World VS Img)
        (before after : list UploadedFile) (f : UploadedFile) (texts : list pystr) :
  is_document_type file_type = true ->
  uploaded_files_in up = before ++ f :: after ->
  documents_processed (session w) = false ->
  Forall2 (fun f t => extracted_text E file_type f = Ok t) before texts ->
  extracted_text E file_type f = Raise ->
  let o := sidebar E file_type up w in
  value o = Raise /\
  session (final o) = session w /\
  fs (final o) = fs w ∖ {[INDEX_FOLDER]} /\
  events o = deletion_events w ++ map (extract_event file_type) (before ++ [f]) /\
  file_type <> Excel.
Proof.
  intros Hty Hup Hdp Hall Hf. cbv zeta.
  rewrite sidebar_documents
    by (assumption || (rewrite Hup; destruct before; discriminate)).
  unfold process_uploaded_files.
  rewrite bind_get_session, Hdp. cbn [negb].
  rewrite (bind_run _ _ w tt _ _ (clear_old_index_run w)).
  rewrite Hup.
  rewrite (bind_raise_run _ _ _ _ _
             (combine_files_raise file_type before f after texts []
                                  (without_index w) Hty Hall Hf)).
  cbn [value final events session fs without_index].
  repeat split.
  intros ->. unfold extracted_text in Hf.
  destruct (read_excel_to_csv E f); discriminate.
Qed.

(** X10. An Excel file that cannot be read does not stop the upload: every
    file of the batch is read, the text [Error: ...] stands in for the
    unreadable ones, and it is indexed with the rest. *)
Theorem excel_errors_are_indexed (up : Uploads) (w : World VS Img) (vs : VS) :
  uploaded_files_in up <> [] ->
  documents_processed (session w) = false ->
  let texts := map (excel_text E) (uploaded_files_in up) in
  FAISS_from_texts E (map clean_text (get_text_chunks E (combined texts))) false
  = Ok vs ->
  let o := sidebar E Excel up w in
  value o = Ok tt /\
  content (session (final o)) = combined texts /\
  vector_store (session (final o)) = Some vs /\
  List.filter (fun e => negb (builds_index e)) (events o)
  = map EvReadExcel (uploaded_files_in up) /\
  (forall f, In f (uploaded_files_in up) -> read_excel_to_csv E f = Raise ->
             In (py "Error: " ++ excel_error_text E f) texts).
Proof.
  intros Hne Hdp texts Hvs. cbv zeta.
  rewrite sidebar_documents by (reflexivity || assumption).
  rewrite (process_uploaded_files_ok E Excel _ texts vs w eq_refl Hdp
             (excel_texts _) Hvs).
  cbn [value final events session content vector_store documents_session].
  repeat split.
  - rewrite !List.filter_app. unfold deletion_events.
    destruct (bool_decide (INDEX_FOLDER ∈ fs w)); cbn [List.filter builds_index negb app];
      rewrite app_nil_r; clear;
      induction (uploaded_files_in up) as [|f l IH]; cbn; rewrite ?IH; reflexivity.
  - intros f Hin Hf. unfold texts. apply in_map_iff. exists f. split; [|exact Hin].
    unfold excel_text. rewrite Hf. reflexivity.
Qed.

End FailedUploads.

Section MediaFiles.
Context {VS Doc Img : Type}.
Variable E : Externals VS Doc Img.

Lemma cleanup_two_fs (a b : string) (w : World VS Img) :
  let o := try_except (bind (remove_file a) (fun _ => remove_file b))
                      (@ret VS Doc Img unit tt) w in
  (a ∈ fs w -> (a ∉ fs (final o)) /\ (b ∉ fs (final o))) /\
  (forall p, p <> a -> p <> b -> p ∈ fs (final o) <-> p ∈ fs w).
Proof.
  unfold remove_file. run.
  destruct (decide (a ∈ fs w)) as [Ha|Ha].
  - rewrite (bool_decide_eq_true_2 _ Ha). run.
    destruct (decide (b ∈ fs w ∖ {[a]})) as [Hb|Hb].
    + rewrite (bool_decide_eq_true_2 _ Hb). run.
      split; [intros _; split|intros p Hpa Hpb]; set_solver.
    + rewrite (bool_decide_eq_false_2 _ Hb). run.
      split; [intros _; split|intros p Hpa Hpb]; set_solver.
  - rewrite (bool_decide_eq_false_2 _ Ha). run. split; [contradiction|reflexivity].
Qed.

Lemma cleanup_one_fs (a : string) (w : World VS Img) :
  let o := try_except (remove_file a) (@ret VS Doc Img unit tt) w in
  (a ∉ fs (final o)) /\ (forall p, p <> a -> p ∈ fs (final o) <-> p ∈ fs w).
Proof.
  unfold remove_file. run.
  destruct (decide (a ∈ fs w)) as [Ha|Ha].
  - rewrite (bool_decide_eq_true_2 _ Ha). run. split; [|intros p Hp]; set_solver.
  - rewrite (bool_decide_eq_false_2 _ Ha). run. split; [exact Ha|reflexivity].
Qed.

(** The disk after the part of [process_video] that builds the index. *)
Lemma process_video_index_fs video_path audio_path t w :
  video_path ∈ fs w ->
  let o := process_video_index E video_path audio_path t w in
  let text := content (session w) ++ (t ++ newline) in
  match FAISS_from_texts E (map clean_text (get_text_chunks E text)) false with
  | Ok vs =>
      (video_path ∉ fs (final o)) /\ (audio_path ∉ fs (final o)) /\
      (forall p, p <> video_path -> p <> audio_path ->
                 p ∈ fs (final o) <-> p = INDEX_FOLDER \/ p ∈ fs w)
  | Raise => fs (final o) = fs w ∖ {[INDEX_FOLDER]}
  end.
Proof.
  intros Hin. cbv zeta. unfold process_video_index.
  rewrite bind_get_session. unfold set_content. rewrite bind_modify_session.
  rewrite (bind_run _ _ _ tt _ _ (clear_old_index_run _)).
  rewrite bind_get_session.
  cbn [value final events session content without_index].
  match goal with
  | |- context [bind (get_vector_store E ?c ?p) ?k ?w0] =>
      pose proof (get_vector_store_run E c p w0) as Hg
  end.
  destruct (FAISS_from_texts E _ false) as [vs|].
  - rewrite (bind_run _ _ _ _ _ _ Hg). clear Hg.
    unfold set_vector_store, set_documents_processed.
    rewrite !bind_modify_session.
    match goal with
    | |- context [bind (try_except ?m ?h) ?k ?w0] =>
        destruct (cleanup_two_fs video_path audio_path w0) as (Hgone & Hrest);
        destruct (try_except m h w0) as [v wf evs] eqn:Hcl
    end.
    cbn [value final events session fs with_path without_index] in Hgone, Hrest.
    destruct v as [[]|];
      [rewrite (bind_run _ _ _ _ _ _ Hcl)|rewrite (bind_raise_run _ _ _ _ _ Hcl)];
      cbn [value final events ret];
      (destruct Hgone as [H1 H2];
       [destruct (decide (video_path = INDEX_FOLDER)); set_solver|]);
      (split; [exact H1|]); (split; [exact H2|]);
      intros p Hp1 Hp2; rewrite (Hrest p Hp1 Hp2);
      destruct (decide (p = INDEX_FOLDER)); set_solver.
  - rewrite (bind_raise _ _ _ (f_equal value Hg)). rewrite Hg. reflexivity.
Qed.

(** The disk after the part of [process_audio] that builds the index. *)
Lemma process_audio_index_fs audio_path t w :
  let o := process_audio_index E audio_path t w in
  match FAISS_from_texts E (split_text E audio_splitter_config t) true with
  | Ok vs =>
      (audio_path ∉ fs (final o)) /\
      (forall p, p <> audio_path -> p ∈ fs (final o) <-> p = INDEX_FOLDER \/ p ∈ fs w)
  | Raise => fs (final o) = fs w ∖ {[INDEX_FOLDER]}
  end.
Proof.
  cbv zeta. unfold process_audio_index.
  rewrite (bind_run _ _ _ tt _ _ (clear_old_index_run _)).
  match goal with
  | |- context [bind (call ?e ?r) ?k ?w0] => pose proof (call_run e r w0) as Hg
  end.
  destruct (FAISS_from_texts E _ true) as [vs|].
  - rewrite (bind_run _ _ _ _ _ _ Hg). clear Hg.
    unfold set_vector_store, set_documents_processed, set_content, save_local, modify_fs.
    rewrite bind_modify_session.
    rewrite (bind_run _ _ _ tt _ [EvSaveLocal INDEX_FOLDER] eq_refl).
    rewrite !bind_modify_session.
    match goal with
    | |- context [bind (try_except ?m ?h) ?k ?w0] =>
        destruct (cleanup_one_fs audio_path w0) as (Hgone & Hrest);
        destruct (try_except m h w0) as [v wf evs] eqn:Hcl
    end.
    cbn [value final events session fs without_index] in Hgone, Hrest.
    destruct v as [[]|];
      [rewrite (bind_run _ _ _ _ _ _ Hcl)|rewrite (bind_raise_run _ _ _ _ _ Hcl)];
      cbn [value final events ret]; (split; [exact Hgone|]);
      intros p Hp; rewrite (Hrest p Hp);
      destruct (decide (p = INDEX_FOLDER)); set_solver.
  - rewrite (bind_raise _ _ _ (f_equal value Hg)). rewrite Hg. reflexivity.
Qed.

Lemma upload_path_saved f w : upload_path E f ∈ fs (after_upload E f w).
Proof. unfold after_upload. cbn. set_solver. Qed.

Lemma upload_path_extracted f w : upload_path E f ∈ fs (after_extraction E f w).
Proof.
  unfold after_extraction, with_path.
  destruct (ffmpeg_run E _ _) as [[|]|]; cbn [fs]; pose proof (upload_path_saved f w);
    set_solver.
Qed.

End MediaFiles.

Section MediaFailures.
Context {VS Doc Img : Type}.
Variable E : Externals VS Doc Img.

Lemma after_extraction_session f (w : World VS Img) :
  session (after_extraction E f w) = session w.
Proof.
  unfold after_extraction, with_path, after_upload.
  destruct (ffmpeg_run E _ _) as [[|]|]; reflexivity.
Qed.

(** [process_video] once the file is saved, its audio extracted and
    transcribed: what is left is the part that builds the index. *)
Lemma process_video_transcribed f w t :
  saved E f = true ->
  audio_extracted E f w = true ->
  transcription E (wav_path E f) = Some t ->
  let p := process_video_index E (upload_path E f) (wav_path E f) t
                               (after_extraction E f w) in
  let o := process_video E (Some f) w in
  value o = match value p with Ok b => Ok b | Raise => Ok false end /\
  final o = final p.
Proof.
  intros Hs Ha Ht. cbv zeta. rewrite process_video_run, Hs, Ha, Ht.
  unfold guarded. split; reflexivity.
Qed.

Lemma process_audio_transcribed f w t :
  saved E f = true ->
  transcription E (upload_path E f) = Some t ->
  let p := process_audio_index E (upload_path E f) t (after_upload E f w) in
  let o := process_audio E (Some f) w in
  value o = match value p with Ok b => Ok b | Raise => Ok false end /\
  final o = final p.
Proof.
  intros Hs Ht. cbv zeta. rewrite process_audio_run, Hs, Ht.
  unfold guarded. split; reflexivity.
Qed.

Lemma process_video_index_fails f w t :
  saved E f = true ->
  audio_extracted E f w = true ->
  transcription E (wav_path E f) = Some t ->
  FAISS_from_texts E
    (map clean_text (get_text_chunks E (content (session w) ++ (t ++ newline))))
    false = Raise ->
  let o := process_video E (Some f) w in
  value o = Ok false /\
  session (final o) = with_content (session w) (content (session w) ++ (t ++ newline)) /\
  fs (final o) = fs (after_extraction E f w) ∖ {[INDEX_FOLDER]}.
Proof.
  intros Hs Ha Ht Hf. cbv zeta.
  destruct (process_video_transcribed f w t Hs Ha Ht) as [Hv Hw].
  pose proof (process_video_index_run E (upload_path E f) (wav_path E f) t
                                      (after_extraction E f w)) as Hrun.
  pose proof (process_video_index_fs E (upload_path E f) (wav_path E f) t
                                     (after_extraction E f w)
                                     (upload_path_extracted E f w)) as Hfs.
  cbv zeta in Hrun, Hfs. rewrite after_extraction_session in Hrun, Hfs.
  rewrite Hf in Hrun, Hfs. destruct Hrun as (Hp & Hsess & _).
  rewrite Hv, Hw, Hp, Hsess, Hfs. repeat split.
Qed.

Lemma process_audio_index_fails f w t :
  saved E f = true ->
  transcription E (upload_path E f) = Some t ->
  FAISS_from_texts E (split_text E audio_splitter_config t) true = Raise ->
  let o := process_audio E (Some f) w in
  value o = Ok false /\
  session (final o) = session w /\
  fs (final o) = fs (after_upload E f w) ∖ {[INDEX_FOLDER]}.
Proof.
  intros Hs Ht Hf. cbv zeta.
  destruct (process_audio_transcribed f w t Hs Ht) as [Hv Hw].
  pose proof (process_audio_index_run E (upload_path E f) t (after_upload E f w))
    as Hrun.
  pose proof (process_audio_index_fs E (upload_path E f) t (after_upload E f w))
    as Hfs.
  cbv zeta in Hrun, Hfs. rewrite Hf in Hrun, Hfs. destruct Hrun as (Hp & Hsess & _).
  rewrite Hv, Hw, Hp, Hsess, Hfs. repeat split.
Qed.

(** X11. When FAISS fails on the transcription of a video, the sidebar reports
    an error and goes on, but the run is not undone: the transcription has
    been appended to the session's content, the index folder has been
    deleted, no store was set, and [video_processed] stays [False], so the
    video is transcribed again on the next run. *)
Theorem failed_video_index_keeps_transcription
        (up : Uploads) (v : UploadedFile) (w : World VS Img) (t : pystr) :
  uploaded_video_in up = Some v ->
  default false (video_processed (session w)) = false ->
  saved E v = true ->
  audio_extracted E v (video_ready w) = true ->
  transcription E (wav_path E v) = Some t ->
  FAISS_from_texts E
    (map clean_text (get_text_chunks E (content (session w) ++ (t ++ newline))))
    false = Raise ->
  let o := sidebar E Video up w in
  value o = Ok tt /\
  content (session (final o)) = content (session w) ++ (t ++ newline) /\
  vector_store (session (final o)) = vector_store (session w) /\
  documents_processed (session (final o)) = documents_processed (session w) /\
  video_processed (session (final o)) = Some false /\
  (INDEX_FOLDER ∉ fs (final (process_video E (Some v) (video_ready w)))).
Proof.
  intros Hup Hvp Hs Ha Ht Hf. cbv zeta.
  destruct (video_ready_frame w) as (Hc & Hvs & Hdp & _).
  rewrite <- Hc in Hf.
  destruct (process_video_index_fails v (video_ready w) t Hs Ha Ht Hf)
    as (Hv & Hsess & Hfs).
  destruct (sidebar_video E up v w false Hup Hvp Hv) as (Hval & Hfin & _).
  cbv zeta in Hfin. rewrite Hfin, Hsess.
  cbn [content vector_store documents_processed video_processed with_content].
  rewrite Hc, Hvs, Hdp, Hfs.
  split; [exact Hval|]. do 3 (split; [reflexivity|]). split; [|set_solver].
  unfold video_ready. destruct (video_processed (session w)) as [[|]|] eqn:Hq;
    [discriminate|exact Hq|reflexivity].
Qed.

(** X12. When FAISS fails on the transcription of an audio file, the session
    is exactly as it was, the store of an earlier upload included, but the
    index folder that store was saved to is gone and the uploaded file
    stays in the upload folder. *)
Theorem failed_audio_index_drops_old_index
        (up : Uploads) (a : UploadedFile) (w : World VS Img) (t : pystr) :
  uploaded_audio_in up = Some a ->
  audio_processed (session w) = false ->
  saved E a = true ->
  transcription E (upload_path E a) = Some t ->
  FAISS_from_texts E (split_text E audio_splitter_config t) true = Raise ->
  upload_path E a <> INDEX_FOLDER ->
  let o := sidebar E Audio up w in
  let p := process_audio E (Some a) w in
  value o = Ok tt /\
  session (final o) = session w /\
  (INDEX_FOLDER ∉ fs (final p)) /\
  (upload_path E a ∈ fs (final p)).
Proof.
  intros Hup Hap Hs Ht Hf Hne. cbv zeta.
  destruct (process_audio_index_fails a w t Hs Ht Hf) as (Hv & Hsess & Hfs).
  destruct (sidebar_audio E up a w false Hup Hap Hv) as (Hval & Hfin & _).
  cbv zeta in Hfin. rewrite Hfin, Hsess, Hfs.
  pose proof (upload_path_saved E a w).
  split; [exact Hval|]. split; [reflexivity|]. split; set_solver.
Qed.


End MediaFailures.

Section Questions.
Context {VS Doc Img : Type}.
Variable E : Externals VS Doc Img.

Lemma retrieve_documents_final q w :
  after_question E w (final (retrieve_documents E q w)) /\
  Forall (fun e => is_retrieval e = true) (events (retrieve_documents E q w)).
Proof.
  destruct (vector_store (session w)) as [vs|] eqn:Hs.
  - rewrite (retrieve_documents_session E q w vs Hs). cbn [final events].
    split; [left; reflexivity|]. repeat constructor.
  - destruct (decide (INDEX_FOLDER ∈ fs w)) as [Hd|Hd].
    + destruct (FAISS_load_local E INDEX_FOLDER) as [vs|] eqn:Hl.
      * destruct (retrieve_documents_loaded E q w vs Hs Hd Hl) as (_ & _ & _ & _ & ->).
        split; [|repeat constructor].
        right. split; [exact Hs|]. split; [exact Hd|]. exists vs. split; [exact Hl|].
        unfold retrieve_documents, available_vector_store, load_vector_store,
          set_vector_store, modify_session.
        run. rewrite Hs. cbn. rewrite bool_decide_eq_true_2 by exact Hd. cbn.
        rewrite Hl. cbn. destruct (similarity_search E vs q); reflexivity.
      * rewrite (retrieve_documents_load_fails E q w Hs Hd Hl). cbn [final events].
        split; [left; reflexivity|]. repeat constructor.
    + rewrite (retrieve_documents_no_index E q w Hs Hd). cbn [final events].
      split; [left; reflexivity|]. constructor.
Qed.

Lemma process_question_final question docs w :
  final (process_question E question docs w) = w.
Proof.
  destruct docs as [|d docs]; [reflexivity|]. rewrite process_question_docs. reflexivity.
Qed.

Lemma after_question_frame (w w' : World VS Img) :
  after_question E w w' ->
  fs w' = fs w /\
  content (session w') = content (session w) /\
  documents_processed (session w') = documents_processed (session w) /\
  audio_processed (session w') = audio_processed (session w) /\
  video_processed (session w') = video_processed (session w) /\
  uploaded_image (session w') = uploaded_image (session w) /\
  (forall vs, vector_store (session w) = Some vs -> vector_store (session w') = Some vs).
Proof.
  intros [->|(Hs & _ & vs & _ & ->)]; cbn; repeat split; try (intros; assumption).
  intros vs' H. congruence.
Qed.

Lemma process_input_final question w :
  after_question E w (final (process_input E question w)) /\
  Forall (fun e => is_retrieval e = true) (events (process_input E question w)).
Proof.
  destruct (retrieve_documents_returns E (retrieval_query E question) w) as [docs Hd].
  rewrite (process_input_run E question w docs Hd).
  cbn [value final events]. rewrite process_question_final.
  destruct (retrieve_documents_final (retrieval_query E question) w) as [Haq Hev].
  split; [exact Haq|].
  apply Forall_app. split.
  - unfold expansion_events. destruct (_ <? _)%nat; repeat constructor.
  - apply Forall_app. split; [exact Hev|].
    destruct docs as [|d docs]; [constructor|].
    rewrite process_question_docs. repeat constructor.
Qed.

(** X14. Asking a question changes nothing a user uploaded: the disk, the
    content and the flags of the session are as before, and the store is
    the session's, or the one just loaded from the index folder when the
    session had none.  [process_input] only calls Cohere, the index and the
    chain, and the only exception it lets through is the chain's. *)
Theorem questions_leave_documents_alone (question : pystr) (w : World VS Img) :
  let o := process_input E question w in
  after_question E w (final o) /\
  fs (final o) = fs w /\
  content (session (final o)) = content (session w) /\
  documents_processed (session (final o)) = documents_processed (session w) /\
  uploaded_image (session (final o)) = uploaded_image (session w) /\
  Forall (fun e => is_retrieval e = true) (events o) /\
  (value o = Raise ->
   exists docs, docs <> [] /\ In (EvChain docs question) (events o) /\
                qa_chain E docs question = Raise).
Proof.
  cbv zeta. destruct (process_input_final question w) as [Haq Hev].
  destruct (after_question_frame _ _ Haq) as (Hfs & Hc & Hdp & _ & _ & Hi & _).
  split; [exact Haq|]. split; [exact Hfs|]. split; [exact Hc|].
  split; [exact Hdp|]. split; [exact Hi|]. split; [exact Hev|].
  destruct (retrieve_documents_returns E (retrieval_query E question) w) as [docs Hd].
  rewrite (process_input_run E question w docs Hd). cbn [value final events].
  destruct docs as [|d docs]; [discriminate|].
  rewrite process_question_docs. cbn [value events]. intros Hr.
  exists (d :: docs). split; [discriminate|]. split; [|exact Hr].
  apply in_or_app. right. apply in_or_app. right. left. reflexivity.
Qed.

(** X15. A question asked after a batch of documents was indexed searches the
    store that upload put in the session: nothing is loaded from disk, the
    one search is for the query [process_input] built, and the answer is
    the chain's on what the search gave, or the fixed message when it gave
    nothing. *)
Theorem question_after_upload_uses_new_store
        (file_type : FileType) (up : Uploads) (w : World VS Img)
        (texts : list pystr) (vs : VS) (question : pystr) :
  is_document_type file_type = true ->
  uploaded_files_in up <> [] ->
  documents_processed (session w) = false ->
  Forall2 (fun f t => extracted_text E file_type f = Ok t)
          (uploaded_files_in up) texts ->
  FAISS_from_texts E (map clean_text (get_text_chunks E (combined texts))) false
  = Ok vs ->
  let w' := final (sidebar E file_type up w) in
  let o := process_input E question w' in
  let query := retrieval_query E question in
  final o = w' /\
  List.filter is_search (events o) = [EvSimilaritySearch vs query] /\
  ~ In (EvLoadLocal INDEX_FOLDER) (events o) /\
  match search_result E vs query with
  | [] => value o = Ok no_documents_message
  | docs => value o = qa_chain E docs question /\
            In (EvChain docs question) (events o)
  end.
Proof.
  intros Hty Hne Hdp Hall Hvs. cbv zeta.
  rewrite (sidebar_documents E file_type up w Hty Hne).
  rewrite (process_uploaded_files_ok E file_type _ texts vs w Hty Hdp Hall Hvs).
  cbn [final].
  set (w' := {| session := documents_session (session w) (combined texts) vs;
                fs := {[INDEX_FOLDER]} ∪ fs w ∖ {[INDEX_FOLDER]} |}).
  assert (Hr : retrieve_documents E (retrieval_query E question) w' =
               {| value := Ok (search_result E vs (retrieval_query E question));
                  final := w';
                  events := [EvSimilaritySearch vs (retrieval_query E question)] |})
    by (apply retrieve_documents_session; reflexivity).
  rewrite (process_input_run E question w' _ (f_equal value Hr)).
  rewrite Hr. cbn [value final events].
  rewrite process_question_final.
  split; [reflexivity|].
  assert (Hexp : forall e, In e (@expansion_events VS Doc question) ->
                           e = EvCohere (related_terms_prompt question)).
  { unfold expansion_events. destruct (_ <? _)%nat; intros e He;
      [destruct He as [<-|[]]; reflexivity|destruct He]. }
  split; [|split].
  - rewrite !List.filter_app.
    replace (List.filter is_search (@expansion_events VS Doc question)) with
      (@nil (Event VS Doc))
      by (unfold expansion_events; destruct (_ <? _)%nat; reflexivity).
    cbn [List.filter is_search app]. f_equal.
    destruct (search_result E vs _) as [|d docs]; [reflexivity|].
    rewrite process_question_docs. reflexivity.
  - intros Hin. apply in_app_or in Hin. destruct Hin as [Hin|Hin].
    + apply Hexp in Hin. discriminate.
    + cbn [app] in Hin. destruct Hin as [Hin|Hin]; [discriminate|].
      apply process_question_events in Hin. discriminate.
  - destruct (search_result E vs _) as [|d docs] eqn:Hsr; [reflexivity|].
    rewrite process_question_docs. cbn [value events]. split; [reflexivity|].
    apply in_or_app. right. right. left. reflexivity.
Qed.

End Questions.

(** ** What the session never loses *)

Section Steady.
Context {VS Doc Img : Type}.
Variable E : Externals VS Doc Img.
Variable P : Event VS Doc -> Prop.

Lemma grows_refl (s : Session VS Img) : grows s s.
Proof. unfold grows. tauto. Qed.

Lemma grows_trans (s1 s2 s3 : Session VS Img) :
  grows s1 s2 -> grows s2 s3 -> grows s1 s3.
Proof. unfold grows. tauto. Qed.

Lemma steady_at_same {A} (m : @M VS Doc Img A) w :
  session (final (m w)) = session w -> Forall P (events (m w)) -> steady_at P m w.
Proof. intros Hs He. split; [rewrite Hs; apply grows_refl|exact He]. Qed.

Lemma steady_ret {A} (a : A) : steady P (@ret VS Doc Img A a).
Proof. intros w. apply steady_at_same; [reflexivity|constructor]. Qed.

Lemma steady_raise {A} : steady P (@raise VS Doc Img A).
Proof. intros w. apply steady_at_same; [reflexivity|constructor]. Qed.

Lemma steady_call {A} (e : Event VS Doc) (r : result A) : P e -> steady P (@call VS Doc Img A e r).
Proof.
  intros He w. unfold steady_at. rewrite call_run. cbn [final events].
  split; [apply grows_refl|]. repeat constructor. exact He.
Qed.

Lemma steady_emit (e : Event VS Doc) : P e -> steady P (@emit VS Doc Img e).
Proof. intros He w. apply steady_at_same; [reflexivity|]. repeat constructor. exact He. Qed.

Lemma steady_modify_fs f : steady P (@modify_fs VS Doc Img f).
Proof. intros w. apply steady_at_same; [reflexivity|constructor]. Qed.

Lemma steady_path_exists path : steady P (@path_exists VS Doc Img path).
Proof. intros w. apply steady_at_same; [reflexivity|constructor]. Qed.

Lemma steady_get_session : steady P (@get_session VS Doc Img).
Proof. intros w. apply steady_at_same; [reflexivity|constructor]. Qed.

Lemma steady_at_bind {A B} (m : @M VS Doc Img A) (k : A -> @M VS Doc Img B) w :
  steady_at P m w ->
  (forall a, value (m w) = Ok a -> steady_at P (k a) (final (m w))) ->
  steady_at P (bind m k) w.
Proof.
  intros [Hg He] Hk. unfold steady_at, bind.
  destruct (m w) as [[a|] w1 evs]; cbn [value final events] in *.
  - destruct (Hk a eq_refl) as [Hg' He']. split.
    + eapply grows_trans; eassumption.
    + apply Forall_app. split; assumption.
  - split; assumption.
Qed.

Lemma steady_bind {A B} (m : @M VS Doc Img A) (k : A -> @M VS Doc Img B) :
  steady P m -> (forall a, steady P (k a)) -> steady P (bind m k).
Proof. intros Hm Hk w. apply steady_at_bind; [apply Hm|]. intros a _. apply Hk. Qed.

Lemma steady_at_get_session {B} (k : Session VS Img -> @M VS Doc Img B) w :
  steady_at P (k (session w)) w -> steady_at P (bind get_session k) w.
Proof. unfold steady_at. rewrite bind_get_session. tauto. Qed.

Lemma steady_at_try {A} (body handler : @M VS Doc Img A) w :
  steady_at P body w -> steady P handler -> steady_at P (try_except body handler) w.
Proof.
  intros [Hg He] Hh. unfold steady_at, try_except.
  destruct (body w) as [[a|] w1 evs]; cbn [value final events] in *.
  - split; assumption.
  - destruct (Hh w1) as [Hg' He']. split.
    + eapply grows_trans; eassumption.
    + apply Forall_app. split; assumption.
Qed.

Lemma steady_try {A} (body handler : @M VS Doc Img A) :
  steady P body -> steady P handler -> steady P (try_except body handler).
Proof. intros Hb Hh w. apply steady_at_try; [apply Hb|exact Hh]. Qed.

Lemma steady_modify_session f :
  (forall s : Session VS Img, grows s (f s)) -> steady P (@modify_session VS Doc Img f).
Proof. intros Hf w. split; [apply Hf|constructor]. Qed.

Lemma steady_set_content c : c <> [] -> steady P (@set_content VS Doc Img c).
Proof. intros Hc. apply steady_modify_session. intros s. unfold grows. cbn. tauto. Qed.

Lemma steady_set_vector_store vs : steady P (@set_vector_store VS Doc Img (Some vs)).
Proof.
  apply steady_modify_session. intros s. unfold grows. cbn.
  repeat split; try tauto. discriminate.
Qed.

Lemma steady_set_documents_processed :
  steady P (@set_documents_processed VS Doc Img true).
Proof. apply steady_modify_session. intros s. unfold grows. cbn. tauto. Qed.

Lemma steady_set_audio_processed : steady P (@set_audio_processed VS Doc Img true).
Proof. apply steady_modify_session. intros s. unfold grows. cbn. tauto. Qed.

Lemma steady_set_video_processed :
  steady P (@set_video_processed VS Doc Img (Some true)).
Proof.
  apply steady_modify_session. intros s. unfold grows. cbn.
  repeat split; try tauto. discriminate.
Qed.

Lemma steady_set_uploaded_image i : steady P (@set_uploaded_image VS Doc Img (Some i)).
Proof.
  apply steady_modify_session. intros s. unfold grows. cbn.
  repeat split; try tauto. discriminate.
Qed.

End Steady.

Create HintDb steady.

#[local] Hint Resolve steady_ret steady_raise steady_modify_fs steady_path_exists
  steady_get_session steady_set_vector_store steady_set_documents_processed
  steady_set_audio_processed steady_set_video_processed steady_set_uploaded_image
  : steady.

(** Takes a computation apart along its binds, handlers and branches. *)
Ltac steady_step :=
  match goal with
  | |- steady _ (bind _ _) => apply steady_bind; [|intros ?]
  | |- steady _ (try_except _ _) => apply steady_try
  | |- steady _ (call _ _) => apply steady_call; reflexivity
  | |- steady _ (emit _) => apply steady_emit; reflexivity
  | |- steady _ (if ?b then _ else _) => destruct b eqn:?
  | |- steady _ (match ?x with _ => _ end) => destruct x eqn:?
  | |- steady _ _ => solve [auto with steady]
  end.

Section SteadyUploads.
Context {VS Doc Img : Type}.
Variable E : Externals VS Doc Img.

Lemma steady_clear_old_index : steady is_upload_call (@clear_old_index VS Doc Img).
Proof. unfold clear_old_index, rmtree. repeat steady_step. Qed.

Lemma steady_remove_file path : steady is_upload_call (@remove_file VS Doc Img path).
Proof. unfold remove_file. repeat steady_step. Qed.

Lemma steady_handle_file_upload f : steady is_upload_call (handle_file_upload E f).
Proof. unfold handle_file_upload, makedirs, write_file. repeat steady_step. Qed.

Lemma steady_extract_audio path : steady is_upload_call (extract_audio E path).
Proof. unfold extract_audio. repeat steady_step. Qed.

Lemma steady_transcribe_audio path : steady is_upload_call (transcribe_audio E path).
Proof. unfold transcribe_audio. repeat steady_step. Qed.

Lemma steady_get_vector_store chunks path : steady is_upload_call (get_vector_store E chunks path).
Proof. unfold get_vector_store, save_local. repeat steady_step. Qed.

Lemma truthy_nonempty (t : pystr) : truthy t = true -> t <> [].
Proof. intros H ->. discriminate. Qed.

Lemma steady_process_video_index video_path audio_path t :
  steady is_upload_call (process_video_index E video_path audio_path t).
Proof.
  unfold process_video_index.
  pose proof steady_clear_old_index. pose proof steady_remove_file.
  pose proof steady_get_vector_store.
  repeat steady_step.
  apply steady_set_content. unfold newline.
  intros Hnil. apply (f_equal (@length codepoint)) in Hnil.
  rewrite !length_app in Hnil. cbn in Hnil. lia.
Qed.

Lemma steady_process_audio_index audio_path t :
  t <> [] -> steady is_upload_call (process_audio_index E audio_path t).
Proof.
  intros Ht. unfold process_audio_index, save_local.
  pose proof steady_clear_old_index. pose proof steady_remove_file.
  repeat steady_step.
  apply steady_set_content, Ht.
Qed.

Lemma steady_process_video up : steady is_upload_call (process_video E up).
Proof.
  unfold process_video.
  pose proof steady_handle_file_upload. pose proof steady_extract_audio.
  pose proof steady_transcribe_audio. pose proof steady_process_video_index.
  repeat steady_step.
Qed.

Lemma steady_process_audio up : steady is_upload_call (process_audio E up).
Proof.
  unfold process_audio.
  pose proof steady_handle_file_upload. pose proof steady_transcribe_audio.
  repeat steady_step.
  apply steady_process_audio_index, truthy_nonempty. assumption.
Qed.

End SteadyUploads.

Section SteadySidebar.
Context {VS Doc Img : Type}.
Variable E : Externals VS Doc Img.

Lemma steady_extract_file file_type file :
  steady is_upload_call (extract_file E file_type file).
Proof.
  unfold extract_file, get_pdf_text, get_ppt_content, load_excel_and_convert_to_csv.
  repeat steady_step.
Qed.

Lemma steady_combine_files file_type files acc :
  steady is_upload_call (combine_files E file_type files acc).
Proof.
  pose proof steady_extract_file.
  revert acc. induction files as [|f files IH]; intros acc; cbn [combine_files];
    repeat steady_step.
Qed.

Lemma combine_files_nonempty file_type files acc w c :
  value (combine_files E file_type files acc w) = Ok c ->
  acc <> [] \/ (files <> [] /\ is_document_type file_type = true) ->
  c <> [].
Proof.
  revert acc w. induction files as [|f files IH]; intros acc w.
  - cbn. intros [= <-] [H|[H _]]; [exact H|contradiction].
  - cbn [combine_files]. unfold bind. cbv zeta.
    destruct (extract_file E file_type f w) as [[[t|]|] w1 evs] eqn:Hx;
      cbn [value final events].
    + destruct (combine_files E file_type files _ w1) as [v w2 evs2] eqn:Hc.
      cbn [value]. intros -> _.
      apply (IH (acc ++ t ++ newline) w1); [rewrite Hc; reflexivity|].
      left. intros Hnil. apply (f_equal (@length codepoint)) in Hnil.
      rewrite !length_app in Hnil. cbn in Hnil. lia.
    + destruct (combine_files E file_type files acc w1) as [v w2 evs2] eqn:Hc.
      cbn [value]. intros -> [Hacc|[_ Hty]].
      * apply (IH acc w1); [rewrite Hc; reflexivity|]. left. exact Hacc.
      * rewrite (extract_file_run E file_type f w Hty) in Hx.
        destruct (extracted_text E file_type f); discriminate.
    + discriminate.
Qed.

Lemma steady_process_uploaded_files file_type files w :
  files <> [] -> is_document_type file_type = true ->
  steady_at is_upload_call (process_uploaded_files E file_type files) w.
Proof.
  intros Hne Hty. unfold process_uploaded_files.
  apply steady_at_get_session.
  destruct (negb (documents_processed (session w))); [|apply steady_ret].
  apply steady_at_bind; [apply steady_clear_old_index|intros _ _].
  apply steady_at_bind; [apply steady_combine_files|intros c Hc].
  apply steady_at_bind.
  - apply steady_set_content. eapply combine_files_nonempty; [exact Hc|].
    right. split; assumption.
  - intros _ _. pose proof (steady_get_vector_store E).
    match goal with |- steady_at _ ?m _ => assert (Hm : steady is_upload_call m) end.
    { repeat steady_step. }
    apply Hm.
Qed.

Lemma sidebar_no_files file_type up (w : World VS Img) :
  is_document_type file_type = true -> uploaded_files_in up = [] ->
  sidebar E file_type up w = skipped w.
Proof.
  intros Hty Hf. unfold sidebar, upload_branch. rewrite Hf.
  destruct file_type; try discriminate; reflexivity.
Qed.

Lemma steady_upload_audio up :
  steady is_upload_call (upload_branch E Audio up).
Proof.
  unfold upload_branch. pose proof (steady_process_audio E). repeat steady_step.
Qed.

Lemma steady_upload_image up :
  steady is_upload_call (upload_branch E Image up).
Proof. unfold upload_branch. repeat steady_step. Qed.

Lemma steady_upload_video up w :
  steady_at is_upload_call (upload_branch E Video up) w.
Proof.
  unfold upload_branch. apply steady_at_get_session.
  apply steady_at_bind.
  - destruct (video_processed (session w)) as [b|] eqn:Hv; [apply steady_ret|].
    split; [|constructor]. unfold grows. cbn. rewrite Hv.
    repeat split; try tauto; discriminate.
  - intros _ _. pose proof (steady_process_video E).
    match goal with |- steady_at _ ?m _ => assert (Hm : steady is_upload_call m) end.
    { repeat steady_step. }
    apply Hm.
Qed.

Lemma upload_audio_value up (w : World VS Img) l :
  value (upload_branch E Audio up w) = Ok l -> l = [].
Proof.
  unfold upload_branch. rewrite bind_get_session.
  destruct (uploaded_audio_in up) as [a|]; [|intros [= <-]; reflexivity].
  destruct (negb (audio_processed (session w))); [|intros [= <-]; reflexivity].
  unfold bind. destruct (process_audio E (Some a) w) as [[[|]|] w1 evs];
    cbn; intros H; inversion H; reflexivity.
Qed.

Lemma upload_video_value up (w : World VS Img) l :
  value (upload_branch E Video up w) = Ok l -> l = [].
Proof.
  unfold upload_branch. rewrite bind_get_session.
  unfold bind at 1.
  match goal with
  | |- context [match video_processed (session w) with _ => _ end w] =>
      destruct (video_processed (session w)) as [b|]
  end; cbn [value final events set_video_processed modify_session ret];
    rewrite bind_get_session;
    (destruct (uploaded_video_in up) as [v|]; [|intros [= <-]; reflexivity]);
    match goal with
    | |- context [if ?c then _ else _] => destruct c
    end; try (intros [= <-]; reflexivity);
    unfold bind;
    match goal with
    | |- context [process_video E (Some v) ?w0] =>
        destruct (process_video E (Some v) w0) as [[[|]|] w1 evs]
    end; cbn; intros H; inversion H; reflexivity.
Qed.

(** Every run of the sidebar keeps what the session has, and calls
    neither Cohere nor the search nor the chain. *)
Lemma steady_sidebar file_type up : steady is_upload_call (sidebar E file_type up).
Proof.
  intros w.
  assert (Hdoc : is_document_type file_type = true ->
                 steady_at is_upload_call (sidebar E file_type up) w).
  { intros Hty. destruct (uploaded_files_in up) as [|f files] eqn:Hf.
    - unfold steady_at. rewrite (sidebar_no_files file_type up w Hty Hf).
      split; [apply grows_refl|constructor].
    - unfold steady_at.
      rewrite (sidebar_documents E file_type up w Hty) by (rewrite Hf; discriminate).
      rewrite Hf. apply steady_process_uploaded_files; [discriminate|exact Hty]. }
  destruct file_type; try (apply Hdoc; reflexivity); unfold sidebar.
  - apply steady_at_bind; [apply steady_upload_image|]. intros l _. apply steady_ret.
  - apply steady_at_bind; [apply steady_upload_audio|]. intros l Hl.
    apply upload_audio_value in Hl. subst l. apply steady_ret.
  - apply steady_at_bind; [apply steady_upload_video|]. intros l Hl.
    apply upload_video_value in Hl. subst l. apply steady_ret.
Qed.

End SteadySidebar.

(** ** The chat *)

Section ChatFacts.
Context {VS Doc Img : Type}.
Variable E : Externals VS Doc Img.
Variable G : Gemini Img.

Lemma after_question_grows (w w' : World VS Img) :
  after_question E w w' -> grows (session w) (session w').
Proof.
  intros [->|(Hs & _ & vs & _ & ->)]; [apply grows_refl|].
  unfold grows. cbn. repeat split; tauto || discriminate.
Qed.

Lemma strip_question (q : pystr) : is_question q -> q <> [].
Proof. intros H ->. apply H. reflexivity. Qed.

Lemma truthy_true (s : pystr) : s <> [] -> truthy s = true.
Proof. destruct s; [contradiction|reflexivity]. Qed.

Lemma truthy_false (s : pystr) : truthy s = false -> s = [].
Proof. destruct s; [reflexivity|discriminate]. Qed.

(** What [handle_submit] does with the text in the box. *)
Lemma handle_submit_blank (c : Chat VS Img) :
  strip (user_input c) = [] -> handle_submit c = (c, false).
Proof.
  intros H. unfold handle_submit. rewrite H. cbn [truthy]. rewrite andb_false_r.
  reflexivity.
Qed.

Lemma handle_submit_early (c : Chat VS Img) :
  is_question (user_input c) ->
  content (session (world c)) = [] -> uploaded_image (session (world c)) = None ->
  handle_submit c = (c, true).
Proof.
  intros Hq Hc Hi. unfold handle_submit.
  rewrite (truthy_true _ Hq), (truthy_true _ (strip_question _ Hq)), Hc, Hi.
  reflexivity.
Qed.

Lemma handle_submit_accepted (c : Chat VS Img) :
  is_question (user_input c) -> has_material (session (world c)) ->
  handle_submit c =
  ({| world := world c; user_input := [];
      current_question := Some (user_input c); processing := true;
      conversation_history := conversation_history c |}, false).
Proof.
  intros Hq Hm. unfold handle_submit.
  rewrite (truthy_true _ Hq), (truthy_true _ (strip_question _ Hq)).
  cbn [andb].
  destruct Hm as [Hc|Hi].
  - rewrite (truthy_true _ Hc). reflexivity.
  - destruct (uploaded_image (session (world c))); [|contradiction].
    rewrite orb_true_r. reflexivity.
Qed.

Lemma handle_submit_cases (c : Chat VS Img) :
  fst (handle_submit c) = c \/
  (is_question (user_input c) /\ has_material (session (world c)) /\
   fst (handle_submit c) =
   {| world := world c; user_input := [];
      current_question := Some (user_input c); processing := true;
      conversation_history := conversation_history c |}).
Proof.
  unfold handle_submit.
  destruct (truthy (user_input c) && truthy (strip (user_input c))) eqn:Hq;
    [|left; reflexivity].
  apply andb_true_iff in Hq. destruct Hq as [_ Hq].
  destruct (negb _) eqn:Hm; [left; reflexivity|].
  right. split; [intros H; rewrite H in Hq; discriminate|]. split; [|reflexivity].
  apply negb_false_iff, orb_true_iff in Hm. destruct Hm as [Hm|Hm].
  - left. intros H. rewrite H in Hm. discriminate.
  - right. destruct (uploaded_image (session (world c))); discriminate.
Qed.

(** The step that answers: the session it leaves and the history. *)
Lemma answer_step_cases (c : Chat VS Img) :
  let r := answer_step E G c in
  (r = idle c) \/
  (exists q, current_question c = Some q /\ processing c = true /\ q <> [] /\
     ((exists image response,
         uploaded_image (session (world c)) = Some image /\
         get_gemini_response G q image = Ok response /\
         r = {| outcome := Ok tt; chat := answered c (world c) q response;
                calls := [] |}) \/
      (exists image,
         uploaded_image (session (world c)) = Some image /\
         get_gemini_response G q image = Raise /\
         r = {| outcome := Raise; chat := c; calls := [] |}) \/
      (exists response,
         uploaded_image (session (world c)) = None /\
         value (process_input E q (world c)) = Ok response /\
         r = {| outcome := Ok tt;
                chat := answered c (final (process_input E q (world c))) q response;
                calls := events (process_input E q (world c)) |}) \/
      (uploaded_image (session (world c)) = None /\
       value (process_input E q (world c)) = Raise /\
       r = {| outcome := Raise;
              chat := with_world c (final (process_input E q (world c)));
              calls := events (process_input E q (world c)) |}))).
Proof.
  cbv zeta. unfold answer_step.
  destruct (current_question c) as [q|] eqn:Hq; [|left; reflexivity].
  destruct (processing c) eqn:Hp; [|left; reflexivity].
  destruct (truthy q) eqn:Ht; [|left; reflexivity]. cbn [andb].
  right. exists q. split; [reflexivity|]. split; [reflexivity|].
  split; [apply truthy_nonempty; exact Ht|].
  destruct (uploaded_image (session (world c))) as [image|] eqn:Hi.
  - destruct (get_gemini_response G q image) as [response|] eqn:Hg.
    + left. exists image, response. repeat split; assumption.
    + right. left. exists image. repeat split; assumption.
  - cbv zeta. destruct (value (process_input E q (world c))) as [response|] eqn:Hv.
    + right. right. left. exists response. repeat split; assumption.
    + right. right. right. repeat split; assumption.
Qed.

Lemma answer_step_world (c : Chat VS Img) :
  grows (session (world c)) (session (world (chat (answer_step E G c)))).
Proof.
  destruct (answer_step_cases c) as [->|(q & _ & _ & _ & H)]; [apply grows_refl|].
  destruct H as [(i & r & _ & _ & ->)|[(i & _ & _ & ->)|[(r & _ & _ & ->)|(_ & _ & ->)]]];
    cbn [chat world answered with_world]; try apply grows_refl;
    apply after_question_grows, process_input_final.
Qed.

Lemma answer_step_history (c : Chat VS Img) :
  exists more,
    conversation_history (chat (answer_step E G c)) = conversation_history c ++ more /\
    (length more <= 1)%nat /\
    Forall (fun qa => current_question c = Some (fst qa)) more.
Proof.
  destruct (answer_step_cases c) as [->|(q & Hq & _ & _ & H)].
  - exists []. cbn. rewrite app_nil_r. repeat split; [lia|constructor].
  - destruct H as [(i & r & _ & _ & ->)|[(i & _ & _ & ->)|[(r & _ & _ & ->)|(_ & _ & ->)]]];
      cbn [chat conversation_history answered with_world].
    + exists [(q, r)]. repeat split; [cbn; lia|]. repeat constructor. exact Hq.
    + exists []. rewrite app_nil_r. repeat split; [cbn; lia|constructor].
    + exists [(q, r)]. repeat split; [cbn; lia|]. repeat constructor. exact Hq.
    + exists []. rewrite app_nil_r. repeat split; [cbn; lia|constructor].
Qed.

Lemma answer_step_calls (c : Chat VS Img) :
  uploaded_image (session (world c)) <> None -> calls (answer_step E G c) = [].
Proof.
  intros Hi.
  destruct (answer_step_cases c) as [->|(q & _ & _ & _ & H)]; [reflexivity|].
  destruct H as [(i & r & _ & _ & ->)|[(i & _ & _ & ->)|[(r & H & _)|(H & _)]]];
    try reflexivity; contradiction.
Qed.

(** One run of the script seen from the chat. *)
Lemma script_run_cases file_type up (c : Chat VS Img) :
  let o := sidebar E file_type up (world c) in
  let r := script_run E G file_type up c in
  grows (session (world c)) (session (final o)) /\
  Forall is_upload_call (events o) /\
  ((value o = Raise /\
    r = {| outcome := Raise; chat := with_world c (final o); calls := events o |}) \/
   (value o = Ok tt /\
    r = {| outcome := outcome (answer_step E G (with_world c (final o)));
           chat := chat (answer_step E G (with_world c (final o)));
           calls := events o ++ calls (answer_step E G (with_world c (final o))) |})).
Proof.
  cbv zeta. destruct (steady_sidebar E file_type up (world c)) as [Hg He].
  split; [exact Hg|]. split; [exact He|].
  unfold script_run. destruct (value (sidebar E file_type up (world c))) as [[]|];
    [right|left]; split; reflexivity.
Qed.

Lemma act_world (a : Action) (c : Chat VS Img) :
  grows (session (world c)) (session (world (chat (act E G a c)))).
Proof.
  destruct a as [text|file_type up]; cbn [act].
  - cbn [chat idle]. destruct (handle_submit_cases (typed text c)) as [->|(_ & _ & ->)];
      apply grows_refl.
  - destruct (script_run_cases file_type up c) as (Hg & _ & [[_ ->]|[_ ->]]);
      cbn [chat world with_world]; [exact Hg|].
    eapply grows_trans; [exact Hg|].
    apply (answer_step_world (with_world c (final (sidebar E file_type up (world c))))).
Qed.

Lemma act_history (a : Action) (c : Chat VS Img) :
  exists more,
    conversation_history (chat (act E G a c)) = conversation_history c ++ more /\
    (length more <= 1)%nat /\
    Forall (fun qa => current_question c = Some (fst qa)) more.
Proof.
  destruct a as [text|file_type up]; cbn [act].
  - exists []. rewrite app_nil_r. cbn [chat idle].
    destruct (handle_submit_cases (typed text c)) as [->|(_ & _ & ->)];
      repeat split; cbn; try lia; constructor.
  - destruct (script_run_cases file_type up c) as (_ & _ & [[_ ->]|[_ ->]]);
      cbn [chat conversation_history with_world].
    + exists []. rewrite app_nil_r. repeat split; [cbn; lia|constructor].
    + apply (answer_step_history (with_world c (final (sidebar E file_type up (world c))))).
Qed.

Lemma act_calls (a : Action) (c : Chat VS Img) :
  uploaded_image (session (world c)) <> None ->
  Forall is_upload_call (calls (act E G a c)).
Proof.
  intros Hi. destruct a as [text|file_type up]; cbn [act]; [constructor|].
  destruct (script_run_cases file_type up c) as (Hg & He & [[_ ->]|[_ ->]]);
    cbn [calls]; [exact He|].
  rewrite answer_step_calls; [rewrite app_nil_r; exact He|].
  cbn [world with_world]. apply Hg, Hi.
Qed.

Lemma act_coherent (a : Action) (c : Chat VS Img) :
  coherent c -> coherent (chat (act E G a c)).
Proof.
  assert (Hmat : forall s s' : Session VS Img,
             grows s s' -> has_material s -> has_material s').
  { intros s s' Hg [H|H]; [left|right]; apply Hg, H. }
  assert (Hw : forall (c0 : Chat VS Img) w,
             coherent c0 -> grows (session (world c0)) (session w) ->
             coherent (with_world c0 w)).
  { intros c0 w (H1 & H2 & H3) Hg. split; [exact H1|]. split; [|exact H3].
    intros q Hq. destruct (H2 q Hq) as [Ha Hb]. split; [exact Ha|].
    eapply Hmat; eassumption. }
  assert (Hans : forall c0 : Chat VS Img,
             coherent c0 -> coherent (chat (answer_step E G c0))).
  { intros c0 Hc. pose proof Hc as (H1 & H2 & H3).
    assert (Hdone : forall w q r, current_question c0 = Some q ->
                                  coherent (answered c0 w q r)).
    { intros w q r Hq. split; [|split].
      - cbn. split; [discriminate|intros H; contradiction].
      - cbn. discriminate.
      - cbn. apply Forall_app. split; [exact H3|].
        repeat constructor. cbn. apply (H2 q Hq). }
    destruct (answer_step_cases c0) as [->|(q & Hq & _ & _ & H)]; [exact Hc|].
    destruct H as [(i & r & _ & _ & ->)|[(i & _ & _ & ->)|[(r & _ & _ & ->)|(_ & _ & ->)]]];
      cbn [chat]; try (apply Hdone; exact Hq); try exact Hc.
    apply Hw; [exact Hc|]. apply after_question_grows, process_input_final. }
  intros Hc. destruct a as [text|file_type up]; cbn [act].
  - cbn [chat idle].
    assert (Ht : coherent (typed text c)) by exact Hc.
    destruct (handle_submit_cases (typed text c)) as [->|(Hq & Hm & ->)]; [exact Ht|].
    destruct Hc as (_ & _ & H3). split; [|split].
    + cbn. split; [discriminate|reflexivity].
    + cbn. intros q [= <-]. split; [exact Hq|exact Hm].
    + exact H3.
  - destruct (script_run_cases file_type up c) as (Hg & _ & [[_ ->]|[_ ->]]);
      cbn [chat].
    + apply Hw; assumption.
    + apply Hans, Hw; assumption.
Qed.

End ChatFacts.

Section ChatTheorems.
Context {VS Doc Img : Type}.
Variable E : Externals VS Doc Img.
Variable G : Gemini Img.

(** X16. A question that is sent is answered once.  With nothing pending, a
    text that is not blank, sent when the session has content or an image,
    becomes the pending question as it was typed, and the box is emptied;
    the step that answers it appends one pair to the history and resets
    the chat, so that the next run answers nothing, or it raises and leaves
    the question pending with the history as it was.  A blank text is
    ignored, and a question sent before anything was uploaded is refused
    with the error message: neither is ever answered. *)
Theorem submitted_question_answered_once (text : pystr) (c : Chat VS Img) :
  processing c = false ->
  let sent := handle_submit (typed text c) in
  let r := answer_step E G (fst sent) in
  (is_question text -> has_material (session (world c)) ->
   snd sent = false /\
   current_question (fst sent) = Some text /\
   user_input (fst sent) = [] /\
   match outcome r with
   | Ok _ =>
       exists response,
         conversation_history (chat r) = conversation_history c ++ [(text, response)] /\
         processing (chat r) = false /\
         current_question (chat r) = None /\
         answer_step E G (chat r) = idle (chat r)
   | Raise =>
       conversation_history (chat r) = conversation_history c /\
       processing (chat r) = true /\
       current_question (chat r) = Some text
   end) /\
  (strip text = [] -> sent = (typed text c, false) /\ r = idle (typed text c)) /\
  (is_question text ->
   content (session (world c)) = [] -> uploaded_image (session (world c)) = None ->
   sent = (typed text c, true) /\ r = idle (typed text c)).
Proof.
  intros Hp. cbv zeta.
  assert (Hidle : answer_step E G (typed text c) = idle (typed text c)).
  { unfold answer_step. cbn [current_question processing typed]. rewrite Hp.
    destruct (current_question c); reflexivity. }
  split; [|split].
  - intros Hq Hm.
    rewrite (handle_submit_accepted (typed text c) Hq Hm).
    cbn [fst snd current_question user_input typed world].
    split; [reflexivity|]. split; [reflexivity|]. split; [reflexivity|].
    match goal with |- context [answer_step E G ?c0] => set (c1 := c0) end.
    assert (Hdone : forall w response,
               answer_step E G (answered c1 w text response)
               = idle (answered c1 w text response)) by reflexivity.
    assert (Hstep : answer_step E G c1 =
              match uploaded_image (session (world c)) with
              | Some image =>
                  match get_gemini_response G text image with
                  | Ok response =>
                      {| outcome := Ok tt; chat := answered c1 (world c) text response;
                         calls := [] |}
                  | Raise => {| outcome := Raise; chat := c1; calls := [] |}
                  end
              | None =>
                  match value (process_input E text (world c)) with
                  | Ok response =>
                      {| outcome := Ok tt;
                         chat := answered c1 (final (process_input E text (world c)))
                                          text response;
                         calls := events (process_input E text (world c)) |}
                  | Raise =>
                      {| outcome := Raise;
                         chat := with_world c1 (final (process_input E text (world c)));
                         calls := events (process_input E text (world c)) |}
                  end
              end).
    { unfold answer_step. cbn [c1 current_question processing world].
      rewrite (truthy_true _ (strip_question _ Hq)). reflexivity. }
    rewrite Hstep. clear Hstep.
    destruct (uploaded_image (session (world c))) as [image|].
    + destruct (get_gemini_response G text image) as [response|]; cbn [outcome chat].
      * exists response. rewrite Hdone. repeat split.
      * repeat split.
    + destruct (value (process_input E text (world c))) as [response|];
        cbn [outcome chat].
      * exists response. rewrite Hdone. repeat split.
      * repeat split.
  - intros Hb. rewrite (handle_submit_blank (typed text c) Hb). split; [reflexivity|].
    exact Hidle.
  - intros Hq Hc Hi. rewrite (handle_submit_early (typed text c) Hq Hc Hi).
    split; [reflexivity|]. exact Hidle.
Qed.

(** X17. With an image in the session a pending question goes to Gemini and
    nowhere else: no call of the retrieval path is made and the world is as
    before.  Once the model object is built the step cannot fail: the text
    Gemini returned, or [Error processing image: ...] when it raised, is
    recorded as the answer and the question is not asked again. *)
Theorem image_question_goes_to_gemini
        (c : Chat VS Img) (question : pystr) (image : Img) :
  current_question c = Some question ->
  processing c = true ->
  question <> [] ->
  uploaded_image (session (world c)) = Some image ->
  let r := answer_step E G c in
  calls r = [] /\
  world (chat r) = world c /\
  (GenerativeModel G = Raise -> outcome r = Raise /\ chat r = c) /\
  (GenerativeModel G <> Raise ->
   outcome r = Ok tt /\
   processing (chat r) = false /\
   current_question (chat r) = None /\
   conversation_history (chat r) =
   conversation_history c ++
   [(question,
     match generate_content G question image with
     | Ok text => text
     | Raise => py "Error processing image: " ++ gemini_error_text G question image
     end)]).
Proof.
  intros Hq Hp Hne Hi. cbv zeta. unfold answer_step.
  rewrite Hq, Hp, (truthy_true _ Hne), Hi. cbn [andb].
  unfold get_gemini_response.
  destruct (GenerativeModel G) as [[]|].
  - destruct (generate_content G question image);
      cbn [calls chat world answered outcome processing current_question
           conversation_history];
      repeat split; congruence.
  - cbn [calls chat outcome]. repeat split; congruence.
Qed.

(** X18. Whatever the user does, in whatever order, the session never loses
    what an upload gave it: content does not become empty again, a store
    and an image stay set, no flag is reset.  The history only grows, by
    at most one answer for each action. *)
Theorem session_never_shrinks (actions : list Action) (c : Chat VS Img) :
  let c' := fst (interact E G actions c) in
  grows (session (world c)) (session (world c')) /\
  exists more,
    conversation_history c' = conversation_history c ++ more /\
    (length more <= length actions)%nat.
Proof.
  cbv zeta. revert c. induction actions as [|a actions IH]; intros c.
  - cbn [interact fst]. split; [apply grows_refl|]. exists []. rewrite app_nil_r.
    split; [reflexivity|apply Nat.le_refl].
  - cbn [interact fst]. destruct (IH (chat (act E G a c))) as (Hg & more & Hh & Hl).
    split.
    + eapply grows_trans; [apply (act_world E G a c)|exact Hg].
    + destruct (act_history E G a c) as (one & Ho & Hlo & _).
      exists (one ++ more). rewrite Hh, Ho, <- app_assoc. split; [reflexivity|].
      rewrite length_app. cbn [length]. lia.
Qed.

(** X19. Once an image is in the session, no question is answered from the
    documents any more: whatever is uploaded or asked afterwards, the
    script never calls Cohere, never loads or searches an index and never
    runs the chain. *)
Theorem image_shadows_documents (actions : list Action) (c : Chat VS Img) :
  uploaded_image (session (world c)) <> None ->
  Forall is_upload_call (snd (interact E G actions c)) /\
  uploaded_image (session (world (fst (interact E G actions c)))) <> None.
Proof.
  revert c. induction actions as [|a actions IH]; intros c Hi.
  - cbn. split; [constructor|exact Hi].
  - cbn [interact fst snd].
    assert (Hi' : uploaded_image (session (world (chat (act E G a c)))) <> None)
      by (apply (act_world E G a c), Hi).
    destruct (IH _ Hi') as [Hc Hk]. split; [|exact Hk].
    apply Forall_app. split; [apply (act_calls E G a c Hi)|exact Hc].
Qed.

(** X20. From the state the script starts in, whatever the user does, the
    chat stays coherent: a question is pending exactly when [processing]
    is set; the pending question is not blank and was accepted with
    content or an image in the session, which is still there; and no
    question in the history is blank. *)
Theorem chat_stays_coherent (actions : list Action) (disk : gset string) :
  coherent (fst (interact E G actions (initial_chat disk))).
Proof.
  assert (H : forall c : Chat VS Img,
             coherent c -> coherent (fst (interact E G actions c))).
  { induction actions as [|a actions IH]; intros c Hc; [exact Hc|].
    cbn [interact fst]. apply IH. apply (act_coherent E G a c Hc). }
  apply H. split; [|split].
  - cbn. split; [discriminate|intros Hn; contradiction].
  - cbn. discriminate.
  - constructor.
Qed.

End ChatTheorems.

(** ** Runs of the failure paths and of the chat *)

(** A second batch of PDF files in a session that indexed one. *)
Lemma uploads_processed_once_witness :
  documents_processed (session Demo.indexed) = true /\
  sidebar Demo.ext PDF Demo.two_files Demo.indexed = skipped Demo.indexed.
Proof.
  assert (H : documents_processed (session Demo.indexed) = true) by reflexivity.
  split; [exact H|].
  destruct (uploads_processed_once Demo.ext PDF Demo.two_files Demo.no_uploads
                                   Demo.indexed) as (Hd & _).
  apply Hd; [reflexivity|exact H].
Defined.

(** PDF files that cannot be parsed, uploaded over an old index. *)
Lemma failed_parse_drops_old_index_witness :
  value (sidebar Demo.offline PDF Demo.two_files Demo.restarted) = Raise /\
  fs (final (sidebar Demo.offline PDF Demo.two_files Demo.restarted))
  = fs Demo.restarted ∖ {[INDEX_FOLDER]}.
Proof.
  destruct (failed_parse_drops_old_index Demo.offline PDF Demo.two_files Demo.restarted
              [] [Demo.file "b.pdf" "beta"] (Demo.file "a.pdf" "alpha") [])
    as (Hv & _ & Hfs & _).
  - reflexivity.
  - reflexivity.
  - reflexivity.
  - constructor.
  - reflexivity.
  - split; [exact Hv|exact Hfs].
Defined.

(** A sheet pandas cannot read is indexed as its error message. *)
Lemma excel_errors_are_indexed_witness :
  value (sidebar Scenes.no_excel Excel Scenes.one_sheet Demo.fresh) = Ok tt /\
  content (session (final (sidebar Scenes.no_excel Excel Scenes.one_sheet Demo.fresh)))
  = py "Error: unreadable" ++ [0x0A].
Proof.
  destruct (excel_errors_are_indexed Scenes.no_excel Scenes.one_sheet Demo.fresh
              [py "Error: unreadable"]) as (Hv & Hc & _).
  - discriminate.
  - reflexivity.
  - vm_compute. reflexivity.
  - split; [exact Hv|]. rewrite Hc. reflexivity.
Defined.

(** A video whose transcription FAISS refuses. *)
Lemma failed_video_index_keeps_transcription_witness :
  value (sidebar Scenes.no_index Video Demo.one_video Demo.indexed) = Ok tt /\
  content (session (final (sidebar Scenes.no_index Video Demo.one_video Demo.indexed)))
  = py "first document" ++ [0x0A] ++ py "spoken words" ++ [0x0A] /\
  video_processed (session (final (sidebar Scenes.no_index Video Demo.one_video
                                           Demo.indexed)))
  = Some false.
Proof.
  destruct (failed_video_index_keeps_transcription Scenes.no_index Demo.one_video
              (Demo.file "clip.mp4" "") Demo.indexed (py "spoken words"))
    as (Hv & Hc & _ & _ & Hp & _).
  - reflexivity.
  - reflexivity.
  - reflexivity.
  - reflexivity.
  - reflexivity.
  - reflexivity.
  - split; [exact Hv|]. split; [|exact Hp]. rewrite Hc. reflexivity.
Defined.

(** An audio file whose transcription FAISS refuses. *)
Lemma failed_audio_index_drops_old_index_witness :
  (INDEX_FOLDER ∈ fs Demo.indexed) /\
  session (final (sidebar Scenes.no_index Audio Demo.one_audio Demo.indexed))
  = session Demo.indexed /\
  (INDEX_FOLDER ∉ fs (final (process_audio Scenes.no_index
                                            (Some (Demo.file "talk.wav" ""))
                                            Demo.indexed))).
Proof.
  destruct (failed_audio_index_drops_old_index Scenes.no_index Demo.one_audio
              (Demo.file "talk.wav" "") Demo.indexed (py "spoken words"))
    as (_ & Hs & Hi & _).
  - reflexivity.
  - reflexivity.
  - reflexivity.
  - reflexivity.
  - reflexivity.
  - intros H. vm_compute in H. discriminate H.
  - split; [apply elem_of_singleton; reflexivity|]. split; [exact Hs|exact Hi].
Defined.


(** A short question asked right after two PDF files were indexed. *)
Lemma question_after_upload_uses_new_store_witness :
  final (process_input Demo.ext Demo.short_question
                       (final (sidebar Demo.ext PDF Demo.two_files Demo.fresh)))
  = final (sidebar Demo.ext PDF Demo.two_files Demo.fresh) /\
  ~ In (EvLoadLocal INDEX_FOLDER)
       (events (process_input Demo.ext Demo.short_question
                              (final (sidebar Demo.ext PDF Demo.two_files Demo.fresh)))).
Proof.
  destruct (question_after_upload_uses_new_store Demo.ext PDF Demo.two_files Demo.fresh
              [py "alpha"; py "beta"] [py "alpha"; py "beta"] Demo.short_question)
    as (Hf & _ & Hl & _).
  - reflexivity.
  - discriminate.
  - reflexivity.
  - repeat constructor.
  - reflexivity.
  - split; [exact Hf|exact Hl].
Defined.

(** A question sent to a chat that has a document. *)
Lemma submitted_question_answered_once_witness :
  processing Scenes.ready = false /\
  current_question (fst (handle_submit (typed Demo.short_question Scenes.ready)))
  = Some Demo.short_question /\
  outcome (answer_step Demo.ext Scenes.gemini_down
             (fst (handle_submit (typed Demo.short_question Scenes.ready))))
  = Ok tt.
Proof.
  assert (H : processing Scenes.ready = false) by reflexivity.
  split; [exact H|].
  destruct (submitted_question_answered_once Demo.ext Scenes.gemini_down
              Demo.short_question Scenes.ready H) as (Hs & _).
  destruct Hs as (_ & Hq & _).
  - intros Hb. vm_compute in Hb. discriminate Hb.
  - left. discriminate.
  - split; [exact Hq|]. vm_compute. reflexivity.
Defined.

(** A question about an image when Gemini fails. *)
Lemma image_question_goes_to_gemini_witness :
  calls (answer_step Demo.ext Scenes.gemini_down Scenes.with_image) = [] /\
  conversation_history (chat (answer_step Demo.ext Scenes.gemini_down Scenes.with_image))
  = [(py "what is shown", py "Error processing image: quota exceeded")].
Proof.
  destruct (image_question_goes_to_gemini Demo.ext Scenes.gemini_down Scenes.with_image
              (py "what is shown") (py "pixels")) as (Hc & _ & _ & Hh).
  - reflexivity.
  - reflexivity.
  - discriminate.
  - reflexivity.
  - split; [exact Hc|]. destruct Hh as (_ & _ & _ & Hh); [discriminate|].
    rewrite Hh. reflexivity.
Defined.

(** Documents uploaded and a question asked with an image in the session. *)
Lemma image_shadows_documents_witness :
  uploaded_image (session (world Scenes.with_image)) <> None /\
  Forall is_upload_call
         (snd (interact Demo.ext Scenes.gemini_down Scenes.upload_and_ask
                        Scenes.with_image)).
Proof.
  assert (H : uploaded_image (session (world Scenes.with_image)) <> None)
    by discriminate.
  split; [exact H|].
  destruct (image_shadows_documents Demo.ext Scenes.gemini_down Scenes.upload_and_ask
                                    Scenes.with_image H) as (Hc & _).
  exact Hc.
Defined.
